(** * Camera fitting in the Prinjekt configurator

    A shallow embedding of the viewer code of the two configurator scripts:

    - [Master]: the headless "Master Logic" library
      ([_fitCameraToModel], [handleResize]);
    - [Configurator]: the Shopify asset [assets/configurator.js]
      ([fitCameraToModel], [onWindowResize], the [loadSTLModel] callback).

    JavaScript numbers are modelled by [number]: the IEEE special values
    [NaN], [+Infinity], [-Infinity] and the finite values, the latter carried
    by real numbers.  Arithmetic on finite values is exact (rounding and the
    sign of zero are not modelled); the special values follow IEEE 754 as
    JavaScript applies it.  The parts of three.js the code calls ([Vector3],
    [Box3], [Box3.setFromObject], [BufferGeometry.translate]) are modelled
    after the library's own source. *)

From Stdlib Require Import Reals Lra Lia ZArith NArith List Bool.
Import ListNotations.

Open Scope R_scope.

(** ** JavaScript numbers *)

Inductive number : Type :=
| NaN
| PInf
| NInf
| Fin (x : R).

Declare Scope js_scope.
Delimit Scope js_scope with js.
Bind Scope js_scope with number.

Definition Rltb (x y : R) : bool := if Rlt_dec x y then true else false.
Definition Reqb (x y : R) : bool := if Req_dec_T x y then true else false.

(** [isNaN(a)] *)
Definition isNaN (a : number) : bool :=
  match a with NaN => true | _ => false end.

Definition finite (a : number) : Prop :=
  match a with Fin _ => True | _ => False end.

(** [-a] *)
Definition neg (a : number) : number :=
  match a with
  | NaN => NaN
  | PInf => NInf
  | NInf => PInf
  | Fin x => Fin (- x)
  end.

(** [a + b] *)
Definition add (a b : number) : number :=
  match a, b with
  | NaN, _ | _, NaN => NaN
  | PInf, NInf | NInf, PInf => NaN
  | PInf, _ | _, PInf => PInf
  | NInf, _ | _, NInf => NInf
  | Fin x, Fin y => Fin (x + y)
  end.

(** [a - b] *)
Definition sub (a b : number) : number := add a (neg b).

(** The sign of a non-zero finite value selects between an infinity and its
    opposite. *)
Definition signed (positive : bool) (a : number) : number :=
  if positive then a else neg a.

(** [a * b]: an infinity times zero is [NaN]. *)
Definition mul (a b : number) : number :=
  match a, b with
  | NaN, _ | _, NaN => NaN
  | Fin x, Fin y => Fin (x * y)
  | Fin x, inf | inf, Fin x =>
      if Reqb x 0 then NaN else signed (Rltb 0 x) inf
  | PInf, PInf | NInf, NInf => PInf
  | PInf, NInf | NInf, PInf => NInf
  end.

(** [a / b]: a non-zero value over zero is an infinity, [0 / 0] and
    [Infinity / Infinity] are [NaN], a finite value over an infinity is zero. *)
Definition div (a b : number) : number :=
  match a, b with
  | NaN, _ | _, NaN => NaN
  | Fin x, Fin y =>
      if Reqb y 0
      then if Reqb x 0 then NaN else signed (Rltb 0 x) PInf
      else Fin (x / y)
  | Fin _, _ => Fin 0
  | inf, Fin y => signed (negb (Rltb y 0)) inf
  | _, _ => NaN
  end.

(** [a > b]: false as soon as an operand is [NaN]. *)
Definition gt (a b : number) : bool :=
  match a, b with
  | NaN, _ | _, NaN => false
  | PInf, PInf => false
  | PInf, _ => true
  | _, PInf => false
  | NInf, _ => false
  | _, NInf => true
  | Fin x, Fin y => Rltb y x
  end.

(** [a < b] *)
Definition lt (a b : number) : bool := gt b a.

(** [a === b] on numbers: [NaN] equals nothing. *)
Definition strict_eq (a b : number) : bool :=
  match a, b with
  | PInf, PInf | NInf, NInf => true
  | Fin x, Fin y => Reqb x y
  | _, _ => false
  end.

(** [Math.abs(a)] *)
Definition Math_abs (a : number) : number :=
  match a with
  | NaN => NaN
  | PInf | NInf => PInf
  | Fin x => Fin (Rabs x)
  end.

(** [Math.max(a, b)]: [NaN] if an argument is [NaN]. *)
Definition Math_max (a b : number) : number :=
  match a, b with
  | NaN, _ | _, NaN => NaN
  | PInf, _ | _, PInf => PInf
  | NInf, c | c, NInf => c
  | Fin x, Fin y => Fin (Rmax x y)
  end.

(** [Math.min(a, b)] *)
Definition Math_min (a b : number) : number :=
  match a, b with
  | NaN, _ | _, NaN => NaN
  | NInf, _ | _, NInf => NInf
  | PInf, c | c, PInf => c
  | Fin x, Fin y => Fin (Rmin x y)
  end.

(** [Math.max(a, b, c)] *)
Definition Math_max3 (a b c : number) : number := Math_max (Math_max a b) c.

(** [Math.tan(a)]: the quotient of sine by cosine, [NaN] at an infinity. *)
Definition Math_tan (a : number) : number :=
  match a with
  | Fin x => div (Fin (sin x)) (Fin (cos x))
  | _ => NaN
  end.

(** [Math.sqrt(a)]: [NaN] below zero. *)
Definition Math_sqrt (a : number) : number :=
  match a with
  | NaN | NInf => NaN
  | PInf => PInf
  | Fin x => if Rltb x 0 then NaN else Fin (sqrt x)
  end.

(** [Math.PI] *)
Definition Math_PI : number := Fin PI.

(** An integer of the DOM ([clientWidth], [clientHeight]) as a number. *)
Definition of_N (n : N) : number := Fin (IZR (Z.of_N n)).

Infix "+" := add : js_scope.
Infix "-" := sub : js_scope.
Infix "*" := mul : js_scope.
Infix "/" := div : js_scope.
Notation "- a" := (neg a) : js_scope.

(** ** three.js: [Vector3] *)

Module Vector3.

Record t : Type := mk { x : number; y : number; z : number }.

(** [new THREE.Vector3()] *)
Definition zero : t := mk (Fin 0) (Fin 0) (Fin 0).

(** [a.min(b)], [a.max(b)]: componentwise [Math.min], [Math.max]. *)
Definition min (a b : t) : t :=
  mk (Math_min (x a) (x b)) (Math_min (y a) (y b)) (Math_min (z a) (z b)).

Definition max (a b : t) : t :=
  mk (Math_max (x a) (x b)) (Math_max (y a) (y b)) (Math_max (z a) (z b)).

(** [target.addVectors(a, b)], [target.subVectors(a, b)] *)
Definition addVectors (a b : t) : t :=
  mk (x a + x b)%js (y a + y b)%js (z a + z b)%js.

Definition subVectors (a b : t) : t :=
  mk (x a - x b)%js (y a - y b)%js (z a - z b)%js.

(** [a.multiplyScalar(s)] *)
Definition multiplyScalar (a : t) (s : number) : t :=
  mk (x a * s)%js (y a * s)%js (z a * s)%js.

(** [a.multiply(b)]: componentwise product, which is what the world matrix of
    an object that is only scaled does to a point. *)
Definition multiply (a b : t) : t :=
  mk (x a * x b)%js (y a * y b)%js (z a * z b)%js.

(** [a.setScalar(s)] *)
Definition setScalar (s : number) : t := mk s s s.

(** [a.length()] *)
Definition length (a : t) : number :=
  Math_sqrt (x a * x a + y a * y a + z a * z a)%js.

Definition finite (a : t) : Prop :=
  finite (x a) /\ finite (y a) /\ finite (z a).

End Vector3.

(** ** three.js: [Box3] *)

Module Box3.

Record t : Type := mk { min : Vector3.t; max : Vector3.t }.

(** [box.makeEmpty()]: also the state of [new THREE.Box3()]. *)
Definition makeEmpty : t :=
  mk (Vector3.mk PInf PInf PInf) (Vector3.mk NInf NInf NInf).

(** [box.isEmpty()] *)
Definition isEmpty (b : t) : bool :=
  lt (Vector3.x (max b)) (Vector3.x (min b))
  || lt (Vector3.y (max b)) (Vector3.y (min b))
  || lt (Vector3.z (max b)) (Vector3.z (min b)).

(** [box.expandByPoint(p)] *)
Definition expandByPoint (b : t) (p : Vector3.t) : t :=
  mk (Vector3.min (min b) p) (Vector3.max (max b) p).

(** [box.setFromPoints(points)], which is also how
    [box.setFromBufferAttribute] reads the vertices of a geometry. *)
Definition setFromPoints (points : list Vector3.t) : t :=
  fold_left expandByPoint points makeEmpty.

(** [box.getCenter(target)] *)
Definition getCenter (b : t) : Vector3.t :=
  if isEmpty b then Vector3.zero
  else Vector3.multiplyScalar (Vector3.addVectors (min b) (max b)) (Fin 0.5).

(** [box.getSize(target)] *)
Definition getSize (b : t) : Vector3.t :=
  if isEmpty b then Vector3.zero
  else Vector3.subVectors (max b) (min b).

(** [box.union(other)] *)
Definition union (b other : t) : t :=
  mk (Vector3.min (min b) (min other)) (Vector3.max (max b) (max other)).

(** The eight corners, in the order [Box3.applyMatrix4] lists them. *)
Definition corners (b : t) : list Vector3.t :=
  let lo := min b in
  let hi := max b in
  [ Vector3.mk (Vector3.x lo) (Vector3.y lo) (Vector3.z lo);
    Vector3.mk (Vector3.x lo) (Vector3.y lo) (Vector3.z hi);
    Vector3.mk (Vector3.x lo) (Vector3.y hi) (Vector3.z lo);
    Vector3.mk (Vector3.x lo) (Vector3.y hi) (Vector3.z hi);
    Vector3.mk (Vector3.x hi) (Vector3.y lo) (Vector3.z lo);
    Vector3.mk (Vector3.x hi) (Vector3.y lo) (Vector3.z hi);
    Vector3.mk (Vector3.x hi) (Vector3.y hi) (Vector3.z lo);
    Vector3.mk (Vector3.x hi) (Vector3.y hi) (Vector3.z hi) ].

(** [box.applyMatrix4(matrix)], the matrix given by its action on points: an
    empty box stays empty, any other is the box of its transformed corners. *)
Definition applyMatrix4 (b : t) (matrix : Vector3.t -> Vector3.t) : t :=
  if isEmpty b then b else setFromPoints (map matrix (corners b)).

End Box3.

(** ** Completions: a call returns normally, or throws a [TypeError] on
    reading a property of [null]; either way it leaves a state behind. *)

Inductive completion (S A : Type) : Type :=
| Normal (a : A) (s : S)
| Throw (s : S).

Arguments Normal {S A} a s.
Arguments Throw {S A} s.

Definition M (S A : Type) : Type := S -> completion S A.

Definition ret {S A} (a : A) : M S A := fun s => Normal a s.

Definition bind {S A B} (m : M S A) (k : A -> M S B) : M S B :=
  fun s => match m s with
           | Normal a s' => k a s'
           | Throw s' => Throw s'
           end.

(** The receiver [this]. *)
Definition get {S} : M S S := fun s => Normal s s.

(** Reading through a reference that may be [null]. *)
Definition deref {S A} (o : option A) : M S A :=
  fun s => match o with Some a => Normal a s | None => Throw s end.

(** A write into the receiver. *)
Definition modify {S} (f : S -> S) : M S unit := fun s => Normal tt (f s).

(** [!o] on a reference. *)
Definition falsy {A} (o : option A) : bool :=
  match o with Some _ => false | None => true end.

(** The state a call leaves behind. *)
Definition final {S A} (c : completion S A) : S :=
  match c with Normal _ s | Throw s => s end.

Definition returns {S A} (c : completion S A) : Prop :=
  match c with Normal _ _ => True | Throw _ => False end.

Declare Scope monad_scope.
Delimit Scope monad_scope with monad.
Notation "x <- m ;; k" := (bind m (fun x => k))
  (at level 61, m at next level, right associativity) : monad_scope.
Notation "m ;; k" := (bind m (fun _ => k))
  (at level 61, right associativity) : monad_scope.

(** ** three.js and DOM objects of the viewer *)

(** The canvas element, with the layout size the browser reports. *)
Record Canvas : Type := mkCanvas {
  clientWidth : N;
  clientHeight : N
}.

(** [THREE.PerspectiveCamera]: the vertical field of view in degrees, the
    aspect ratio, the position, and the orientation, which is kept as the
    point the camera was last aimed at ([lookAt]).  [projection] is the pair
    of field of view and aspect ratio that the last
    [updateProjectionMatrix()] baked into the projection matrix. *)
Record PerspectiveCamera : Type := mkCamera {
  fov : number;
  aspect : number;
  position : Vector3.t;
  lookingAt : Vector3.t;
  projection : number * number
}.

(** [camera.position.set(x, y, z)] *)
Definition position_set (px py pz : number) (c : PerspectiveCamera) : PerspectiveCamera :=
  mkCamera (fov c) (aspect c) (Vector3.mk px py pz) (lookingAt c) (projection c).

(** [camera.lookAt(x, y, z)] and [camera.lookAt(vector)] *)
Definition lookAt (p : Vector3.t) (c : PerspectiveCamera) : PerspectiveCamera :=
  mkCamera (fov c) (aspect c) (position c) p (projection c).

(** [camera.aspect = a] *)
Definition set_aspect (a : number) (c : PerspectiveCamera) : PerspectiveCamera :=
  mkCamera (fov c) a (position c) (lookingAt c) (projection c).

(** [camera.updateProjectionMatrix()] *)
Definition updateProjectionMatrix (c : PerspectiveCamera) : PerspectiveCamera :=
  mkCamera (fov c) (aspect c) (position c) (lookingAt c) (fov c, aspect c).

(** [THREE.OrbitControls]: the orbit target and the limits on the distance
    between camera and target ([new OrbitControls] sets them to 0 and
    [Infinity]); [updates] counts the calls of [update()]. *)
Record OrbitControls : Type := mkControls {
  target : Vector3.t;
  minDistance : number;
  maxDistance : number;
  updates : nat
}.

(** [controls.target.set(x, y, z)] and [controls.target.copy(vector)] *)
Definition target_set (p : Vector3.t) (o : OrbitControls) : OrbitControls :=
  mkControls p (minDistance o) (maxDistance o) (updates o).

(** What [controls.update()] does to the camera it steers, when no user
    input and no damped motion is pending and auto-rotation is off, as in
    the default settings (the library's interaction state is not
    modelled): it keeps the distance between camera and target
    within the limits, moving the camera along the line through the target
    if it has to, and aims the camera at the target.  The library goes
    through spherical coordinates, which in exact arithmetic gives the
    camera back where it was when the distance is within the limits; a
    camera at the target itself is moved straight up. *)
Definition orbit (o : OrbitControls) (c : PerspectiveCamera) : PerspectiveCamera :=
  let offset := Vector3.subVectors (position c) (target o) in
  let radius := Vector3.length offset in
  let clamped := Math_max (minDistance o) (Math_min (maxDistance o) radius) in
  let moved :=
    if strict_eq clamped radius then position c
    else if strict_eq radius (Fin 0)
         then Vector3.addVectors (target o) (Vector3.mk (Fin 0) clamped (Fin 0))
         else Vector3.addVectors
                (target o) (Vector3.multiplyScalar offset (clamped / radius)%js) in
  mkCamera (fov c) (aspect c) moved (target o) (projection c).

(** [controls.update()], on the controls themselves. *)
Definition update (o : OrbitControls) : OrbitControls :=
  mkControls (target o) (minDistance o) (maxDistance o) (S (updates o)).

(** [THREE.WebGLRenderer]: the drawing size of the last [setSize]. *)
Record WebGLRenderer : Type := mkRenderer {
  size : number * number
}.

(** [renderer.setSize(width, height)] *)
Definition setSize (w h : number) (r : WebGLRenderer) : WebGLRenderer :=
  mkRenderer (w, h).

(** The camera pose the claims speak of: position, aim, orbit target. *)
Definition pose_of (c : option PerspectiveCamera) (o : option OrbitControls)
  : option Vector3.t * option Vector3.t * option Vector3.t :=
  (option_map position c, option_map lookingAt c, option_map target o).

(** ** The Master Logic library *)

Module Master.

Local Open Scope monad_scope.

(** A [THREE.Object3D] as the fit sees it: through the world-space box that
    [new THREE.Box3().setFromObject(model)] computes for it. *)
Record Object3D : Type := mkObject3D {
  worldBox : Box3.t
}.

Definition setFromObject (model : Object3D) : Box3.t := worldBox model.

(** The fields of the configurator instance that the viewer code reads and
    writes.  The renderer draws into [canvas] ([renderer.domElement] is that
    element). *)
Record Viewer : Type := mkViewer {
  canvas : Canvas;
  camera : option PerspectiveCamera;
  renderer : option WebGLRenderer;
  controls : option OrbitControls;
  currentModel : option Object3D
}.

Definition set_camera (c : PerspectiveCamera) (this : Viewer) : Viewer :=
  mkViewer (canvas this) (Some c) (renderer this) (controls this) (currentModel this).

Definition set_renderer (r : WebGLRenderer) (this : Viewer) : Viewer :=
  mkViewer (canvas this) (camera this) (Some r) (controls this) (currentModel this).

Definition set_controls (o : OrbitControls) (this : Viewer) : Viewer :=
  mkViewer (canvas this) (camera this) (renderer this) (Some o) (currentModel this).

(** [this.camera], [this.controls], [this.renderer] read for a property. *)
Definition this_camera : M Viewer PerspectiveCamera :=
  this <- get;; deref (camera this).

Definition this_controls : M Viewer OrbitControls :=
  this <- get;; deref (controls this).

Definition this_renderer : M Viewer WebGLRenderer :=
  this <- get;; deref (renderer this).

(** [this.renderer.domElement] *)
Definition domElement : M Viewer Canvas :=
  _ <- this_renderer;; this <- get;; ret (canvas this).

(** A method call on [this.camera], [this.controls], [this.renderer]. *)
Definition on_camera (f : PerspectiveCamera -> PerspectiveCamera) : M Viewer unit :=
  c <- this_camera;; modify (set_camera (f c)).

Definition on_controls (f : OrbitControls -> OrbitControls) : M Viewer unit :=
  o <- this_controls;; modify (set_controls (f o)).

Definition on_renderer (f : WebGLRenderer -> WebGLRenderer) : M Viewer unit :=
  r <- this_renderer;; modify (set_renderer (f r)).

(** [this.controls.update()]: the controls steer the camera they were
    created with, which is [this.camera]. *)
Definition controls_update : M Viewer unit :=
  o <- this_controls;;
  this <- get;;
  match camera this with
  | Some c => modify (fun this => set_controls (update o) (set_camera (orbit o c) this))
  | None => modify (set_controls (update o))
  end.

(** [_fitCameraToModel(model)] *)
Definition _fitCameraToModel (model : option Object3D) : M Viewer unit :=
  this <- get;;
  if falsy model || falsy (camera this) || falsy (controls this) || falsy (renderer this)
  then ret tt
  else
    model <- deref model;;
    let box := setFromObject model in
    let size := Box3.getSize box in
    let center := Box3.getCenter box in
    let maxDim := Math_max3 (Vector3.x size) (Vector3.y size) (Vector3.z size) in
    cam <- this_camera;;
    let fov := (fov cam * (Math_PI / Fin 180))%js in
    el <- domElement;;
    let aspect := (of_N (clientWidth el) / of_N (clientHeight el))%js in
    if isNaN aspect || strict_eq aspect (Fin 0)
    then ret tt
    else
      let cameraZ :=
        Math_abs ((maxDim / (if gt aspect (Fin 1) then Fin 2 else Fin 2 * aspect))
                  / Math_tan (fov / Fin 2))%js in
      let cameraZ := (cameraZ * Fin 1.5)%js in
      on_camera (position_set cameraZ (cameraZ * Fin 0.7)%js cameraZ);;
      let targetY := Vector3.y center in
      on_camera (lookAt (Vector3.mk (Vector3.x center) targetY (Vector3.z center)));;
      on_controls (target_set (Vector3.mk (Vector3.x center) targetY (Vector3.z center)));;
      controls_update.

(** [handleResize], the listener that [initThreeJS] registers. *)
Definition handleResize : M Viewer unit :=
  this <- get;;
  let width := clientWidth (canvas this) in
  let height := clientHeight (canvas this) in
  if (width =? 0)%N || (height =? 0)%N
  then ret tt
  else
    on_camera (set_aspect (of_N width / of_N height)%js);;
    on_camera updateProjectionMatrix;;
    on_renderer (setSize (of_N width) (of_N height));;
    this <- get;;
    _fitCameraToModel (currentModel this).

(** The pose of a viewer. *)
Definition pose (this : Viewer) := pose_of (camera this) (controls this).

End Master.

(** ** The Shopify asset [assets/configurator.js] *)

Module Configurator.

Local Open Scope monad_scope.

(** [THREE.BufferGeometry]: the vertex positions and the cached bounding
    box ([null] until first computed). *)
Record BufferGeometry : Type := mkGeometry {
  attributes_position : list Vector3.t;
  boundingBox : option Box3.t
}.

(** [geometry.computeBoundingBox()] *)
Definition computeBoundingBox (g : BufferGeometry) : BufferGeometry :=
  mkGeometry (attributes_position g)
             (Some (Box3.setFromPoints (attributes_position g))).

(** [geometry.translate(x, y, z)]: moves every vertex and, as
    [applyMatrix4] does, recomputes a bounding box that is already there. *)
Definition translate (tx ty tz : number) (g : BufferGeometry) : BufferGeometry :=
  let moved :=
    map (fun p => Vector3.addVectors p (Vector3.mk tx ty tz)) (attributes_position g) in
  mkGeometry moved
             (if falsy (boundingBox g) then None else Some (Box3.setFromPoints moved)).

(** [THREE.Mesh]: its geometry and its scale; position and rotation keep
    their defaults in this script. *)
Record Mesh : Type := mkMesh {
  geometry : BufferGeometry;
  scale : Vector3.t
}.

Definition set_geometry (g : BufferGeometry) (m : Mesh) : Mesh := mkMesh g (scale m).

(** [mesh.scale.setScalar(s)] *)
Definition scale_setScalar (s : number) (m : Mesh) : Mesh :=
  mkMesh (geometry m) (Vector3.setScalar s).

(** The world matrix of a mesh that is only scaled, acting on a point. *)
Definition matrixWorld (object : Mesh) (p : Vector3.t) : Vector3.t :=
  Vector3.multiply p (scale object).

(** [new THREE.Box3().setFromObject(object)]: the bounding box of the
    geometry (computed if absent), carried to world space, joined to an empty
    box. *)
Definition setFromObject (object : Mesh) : Box3.t :=
  let box :=
    match boundingBox (geometry object) with
    | Some b => b
    | None => Box3.setFromPoints (attributes_position (geometry object))
    end in
  Box3.union Box3.makeEmpty (Box3.applyMatrix4 box (matrixWorld object)).

(** The fields of the configurator instance that the viewer code reads and
    writes; [canvas] is [this.elements.canvas]. *)
Record Viewer : Type := mkViewer {
  canvas : Canvas;
  camera : option PerspectiveCamera;
  renderer : option WebGLRenderer;
  controls : option OrbitControls;
  model : option Mesh
}.

Definition set_camera (c : PerspectiveCamera) (this : Viewer) : Viewer :=
  mkViewer (canvas this) (Some c) (renderer this) (controls this) (model this).

Definition set_renderer (r : WebGLRenderer) (this : Viewer) : Viewer :=
  mkViewer (canvas this) (camera this) (Some r) (controls this) (model this).

Definition set_controls (o : OrbitControls) (this : Viewer) : Viewer :=
  mkViewer (canvas this) (camera this) (renderer this) (Some o) (model this).

Definition set_model (m : Mesh) (this : Viewer) : Viewer :=
  mkViewer (canvas this) (camera this) (renderer this) (controls this) (Some m).

Definition this_camera : M Viewer PerspectiveCamera :=
  this <- get;; deref (camera this).

Definition this_controls : M Viewer OrbitControls :=
  this <- get;; deref (controls this).

Definition this_renderer : M Viewer WebGLRenderer :=
  this <- get;; deref (renderer this).

Definition this_model : M Viewer Mesh :=
  this <- get;; deref (model this).

Definition on_camera (f : PerspectiveCamera -> PerspectiveCamera) : M Viewer unit :=
  c <- this_camera;; modify (set_camera (f c)).

Definition on_controls (f : OrbitControls -> OrbitControls) : M Viewer unit :=
  o <- this_controls;; modify (set_controls (f o)).

Definition on_renderer (f : WebGLRenderer -> WebGLRenderer) : M Viewer unit :=
  r <- this_renderer;; modify (set_renderer (f r)).

Definition on_model (f : Mesh -> Mesh) : M Viewer unit :=
  m <- this_model;; modify (set_model (f m)).

(** [this.controls.update()]: the controls steer the camera they were
    created with, which is [this.camera]. *)
Definition controls_update : M Viewer unit :=
  o <- this_controls;;
  this <- get;;
  match camera this with
  | Some c => modify (fun this => set_controls (update o) (set_camera (orbit o c) this))
  | None => modify (set_controls (update o))
  end.

(** A method call on the geometry, which the mesh [this.model] holds. *)
Definition on_geometry (f : BufferGeometry -> BufferGeometry) : M Viewer unit :=
  on_model (fun m => set_geometry (f (geometry m)) m).

(** [geometry.boundingBox], read for a property. *)
Definition geometry_boundingBox : M Viewer Box3.t :=
  m <- this_model;; deref (boundingBox (geometry m)).

(** [fitCameraToModel()] *)
Definition fitCameraToModel : M Viewer unit :=
  this <- get;;
  if falsy (model this)
  then ret tt
  else
    model <- this_model;;
    let box := setFromObject model in
    let size := Box3.getSize box in
    let center := Box3.getCenter box in
    let maxDim := Math_max3 (Vector3.x size) (Vector3.y size) (Vector3.z size) in
    cam <- this_camera;;
    let fov := (fov cam * (Math_PI / Fin 180))%js in
    let cameraZ := Math_abs (maxDim / Fin 2 / Math_tan (fov / Fin 2))%js in
    let cameraZ := (cameraZ * Fin 1.5)%js in
    on_camera (position_set (Vector3.x center) (Vector3.y center)
                            (Vector3.z center + cameraZ)%js);;
    on_camera (lookAt center);;
    on_controls (target_set center);;
    controls_update.

(** [onWindowResize()] *)
Definition onWindowResize : M Viewer unit :=
  this <- get;;
  let canvas := canvas this in
  on_camera (set_aspect (of_N (clientWidth canvas) / of_N (clientHeight canvas))%js);;
  on_camera updateProjectionMatrix;;
  on_renderer (setSize (of_N (clientWidth canvas)) (of_N (clientHeight canvas))).

(** The "Center and scale model" step of the callback that [loadSTLModel]
    hands to the loader: the new mesh becomes [this.model], its geometry is
    centred and the mesh scaled.  ([box] is the geometry's own bounding box
    object, so it is read again after [translate] has recomputed it.) *)
Definition centerAndScale (geometry : BufferGeometry) : M Viewer unit :=
  modify (set_model (mkMesh geometry (Vector3.setScalar (Fin 1))));;
  on_geometry computeBoundingBox;;
  box <- geometry_boundingBox;;
  let center := Box3.getCenter box in
  on_geometry (translate (- Vector3.x center)%js (- Vector3.y center)%js
                         (- Vector3.z center)%js);;
  box <- geometry_boundingBox;;
  let size := Box3.getSize box in
  let maxDim := Math_max3 (Vector3.x size) (Vector3.y size) (Vector3.z size) in
  let scale := (Fin 100 / maxDim)%js in
  on_model (scale_setScalar scale).

(** The whole callback: centre and scale, then fit the camera. *)
Definition loadSTLModel_onLoad (geometry : BufferGeometry) : M Viewer unit :=
  centerAndScale geometry;;
  fitCameraToModel.

(** The pose of a viewer. *)
Definition pose (this : Viewer) := pose_of (camera this) (controls this).

End Configurator.

(** ** The formula of the specification *)

(** The camera distance as the specification words it:
    [fovRad = verticalFOV * π / 180],
    [distance = |maxDim / (aspect > 1 ? 2 : 2*aspect) / tan(fovRad/2)|],
    [distance *= 1.5]. *)
Definition spec_distance (maxDim a f : number) : number :=
  let fovRad := (f * Math_PI / Fin 180)%js in
  (Math_abs (maxDim / (if gt a (Fin 1) then Fin 2 else Fin 2 * a)
             / Math_tan (fovRad / Fin 2)) * Fin 1.5)%js.

(** The distance as [fitCameraToModel] of [configurator.js] computes it
    (its local [cameraZ]): the viewport plays no part. *)
Definition Configurator_distance (maxDim f : number) : number :=
  (Math_abs (maxDim / Fin 2 / Math_tan (f * (Math_PI / Fin 180) / Fin 2)) * Fin 1.5)%js.

(** ** The view frustum *)

Definition to_R (a : number) : option R :=
  match a with Fin r => Some r | _ => None end.

(** Vectors of real numbers, for the geometry of the frustum. *)
Module R3.

Definition t : Type := (R * R * R)%type.

Definition sub (a b : t) : t :=
  let '(ax, ay, az) := a in let '(bx, b_y, bz) := b in (ax - bx, ay - b_y, az - bz).

Definition dot (a b : t) : R :=
  let '(ax, ay, az) := a in let '(bx, b_y, bz) := b in ax * bx + ay * b_y + az * bz.

Definition cross (a b : t) : t :=
  let '(ax, ay, az) := a in let '(bx, b_y, bz) := b in
  (ay * bz - az * b_y, az * bx - ax * bz, ax * b_y - ay * bx).

Definition norm (a : t) : R := sqrt (dot a a).

(** [Object3D.DefaultUp] *)
Definition up : t := (0, 1, 0).

Definition of_Vector3 (v : Vector3.t) : option t :=
  match to_R (Vector3.x v), to_R (Vector3.y v), to_R (Vector3.z v) with
  | Some a, Some b, Some c => Some (a, b, c)
  | _, _, _ => None
  end.

End R3.

(** A point [p] seen from [eye] by a camera aimed at [tgt], with [T] the
    tangent of half the vertical field of view and [a] the aspect ratio.
    As [Matrix4.lookAt] builds it, the camera's axes are [zb = eye - tgt]
    (the camera looks down the opposite direction), [xb = up × zb] and
    [yb = zb × xb], used here without normalising: the point is in front of
    the camera, and its offsets along [yb] and [xb] are within [T] and
    [a * T] times its depth.  (The near and far planes are left out: the
    claims are about the bounds a point projects into.  [between_planes]
    has the two planes.) *)
Definition frustum (eye tgt : R3.t) (T a : R) (p : R3.t) : Prop :=
  let zb := R3.sub eye tgt in
  let xb := R3.cross R3.up zb in
  let yb := R3.cross zb xb in
  let w := R3.sub p eye in
  let depth := - R3.dot w zb in
  0 < R3.norm xb
  /\ 0 < depth
  /\ Rabs (R3.dot w yb) * R3.norm zb <= T * depth * R3.norm yb
  /\ Rabs (R3.dot w xb) * R3.norm zb <= a * T * depth * R3.norm xb.

(** The point [p] lies in the view frustum of the camera, as its projection
    matrix (field of view and aspect ratio of the last
    [updateProjectionMatrix]) and its pose define it. *)
Definition in_frustum (c : PerspectiveCamera) (p : Vector3.t) : Prop :=
  match to_R (fst (projection c)), to_R (snd (projection c)),
        R3.of_Vector3 (position c), R3.of_Vector3 (lookingAt c), R3.of_Vector3 p with
  | Some f, Some a, Some eye, Some tgt, Some q =>
      frustum eye tgt (tan (f * (PI / 180) / 2)) a q
  | _, _, _, _, _ => False
  end.

(** Every vertex of the box is in the view frustum of the viewer's camera. *)
Definition box_in_view (c : option PerspectiveCamera) (b : Box3.t) : Prop :=
  match c with
  | Some c => Forall (in_frustum c) (Box3.corners b)
  | None => False
  end.

(** ** The states the scripts set up *)

(** The cube of side [2 * h] around [(cx, cy, cz)]. *)
Definition cube (cx cy cz h : R) : Box3.t :=
  Box3.mk (Vector3.mk (Fin (cx - h)) (Fin (cy - h)) (Fin (cz - h)))
          (Vector3.mk (Fin (cx + h)) (Fin (cy + h)) (Fin (cz + h))).

(** What [initThreeJS] of the master library leaves behind: a camera of 45
    degrees at [(200, 150, 200)], the renderer sized to the canvas, and
    orbit controls, whose constructor runs [update()] once and so aims the
    camera at the target, the origin. *)
Definition Master_initThreeJS (canvas : Canvas) : Master.Viewer :=
  let aspect := (of_N (clientWidth canvas) / of_N (clientHeight canvas))%js in
  Master.mkViewer canvas
    (Some (mkCamera (Fin 45) aspect (Vector3.mk (Fin 200) (Fin 150) (Fin 200))
                    Vector3.zero (Fin 45, aspect)))
    (Some (mkRenderer (of_N (clientWidth canvas), of_N (clientHeight canvas))))
    (Some (mkControls Vector3.zero (Fin 0) PInf 1))
    None.

(** The master viewer once a model is the current one. *)
Definition Master_with_model (model : Master.Object3D) (this : Master.Viewer)
  : Master.Viewer :=
  Master.mkViewer (Master.canvas this) (Master.camera this) (Master.renderer this)
                  (Master.controls this) (Some model).

(** The browser lays the canvas out anew. *)
Definition Master_resized (canvas : Canvas) (this : Master.Viewer) : Master.Viewer :=
  Master.mkViewer canvas (Master.camera this) (Master.renderer this)
                  (Master.controls this) (Master.currentModel this).

(** What [setupViewer] of [configurator.js] leaves behind: a camera of 50
    degrees at [(0, 0, 150)], the renderer, and orbit controls that keep the
    camera between 50 and 500 from the target. *)
Definition Configurator_setupViewer (canvas : Canvas) : Configurator.Viewer :=
  let aspect := (of_N (clientWidth canvas) / of_N (clientHeight canvas))%js in
  Configurator.mkViewer canvas
    (Some (mkCamera (Fin 50) aspect (Vector3.mk (Fin 0) (Fin 0) (Fin 150))
                    Vector3.zero (Fin 50, aspect)))
    (Some (mkRenderer (of_N (clientWidth canvas), of_N (clientHeight canvas))))
    (Some (mkControls Vector3.zero (Fin 50) (Fin 500) 1))
    None.

Definition Configurator_resized (canvas : Canvas) (this : Configurator.Viewer)
  : Configurator.Viewer :=
  Configurator.mkViewer canvas (Configurator.camera this) (Configurator.renderer this)
                        (Configurator.controls this) (Configurator.model this).

(** A mesh whose geometry has the given vertices and an up-to-date bounding
    box, at scale [s]. *)
Definition Configurator_mesh (vertices : list Vector3.t) (s : number) : Configurator.Mesh :=
  Configurator.mkMesh
    (Configurator.computeBoundingBox (Configurator.mkGeometry vertices None))
    (Vector3.setScalar s).

(** ** Least and greatest coordinate of a list of points *)

(** The coordinate-wise folds that [Box3.setFromPoints] runs. *)
Definition minimum (l : list number) : number := fold_left Math_min l PInf.
Definition maximum (l : list number) : number := fold_left Math_max l NInf.

(** [m] is the least (greatest) of the finite numbers of [l]. *)
Definition least (l : list number) (m : R) : Prop :=
  In (Fin m) l /\ forall r, In (Fin r) l -> m <= r.

Definition greatest (l : list number) (m : R) : Prop :=
  In (Fin m) l /\ forall r, In (Fin r) l -> r <= m.

(** The box between two corners with finite coordinates. *)
Definition bounds (lo hi : R3.t) : Box3.t :=
  let '(lx, ly, lz) := lo in
  let '(hx, hy, hz) := hi in
  Box3.mk (Vector3.mk (Fin lx) (Fin ly) (Fin lz))
          (Vector3.mk (Fin hx) (Fin hy) (Fin hz)).

(** A mesh as [configurator.js] displays it: the cube of side 100 around
    the origin. *)
Definition cube100 : Configurator.Mesh :=
  Configurator_mesh [Vector3.mk (Fin (-50)) (Fin (-50)) (Fin (-50));
                     Vector3.mk (Fin 50) (Fin 50) (Fin 50)] (Fin 1).

From Stdlib Require String.
(** ** three.js: rotations and world matrices *)

(** [Math.sin(a)], [Math.cos(a)]: [NaN] at an infinity. *)
Definition Math_sin (a : number) : number :=
  match a with Fin x => Fin (sin x) | _ => NaN end.

Definition Math_cos (a : number) : number :=
  match a with Fin x => Fin (cos x) | _ => NaN end.

Module Quaternion.

Record t : Type := mk { x : number; y : number; z : number; w : number }.

(** [quaternion.setFromEuler(euler)] for the default order ['XYZ']; the
    Euler angles are given as a vector. *)
Definition setFromEuler (euler : Vector3.t) : t :=
  let c1 := Math_cos (Vector3.x euler / Fin 2)%js in
  let c2 := Math_cos (Vector3.y euler / Fin 2)%js in
  let c3 := Math_cos (Vector3.z euler / Fin 2)%js in
  let s1 := Math_sin (Vector3.x euler / Fin 2)%js in
  let s2 := Math_sin (Vector3.y euler / Fin 2)%js in
  let s3 := Math_sin (Vector3.z euler / Fin 2)%js in
  mk (s1 * c2 * c3 + c1 * s2 * s3)%js
     (c1 * s2 * c3 - s1 * c2 * s3)%js
     (c1 * c2 * s3 + s1 * s2 * c3)%js
     (c1 * c2 * c3 - s1 * s2 * s3)%js.

End Quaternion.

Module Matrix4.

(** The sixteen [elements], in the library's column-major order. *)
Record t : Type := mk {
  e0 : number; e1 : number; e2 : number; e3 : number;
  e4 : number; e5 : number; e6 : number; e7 : number;
  e8 : number; e9 : number; e10 : number; e11 : number;
  e12 : number; e13 : number; e14 : number; e15 : number
}.

(** [matrix.compose(position, quaternion, scale)] *)
Definition compose (position : Vector3.t) (quaternion : Quaternion.t) (scale : Vector3.t)
  : t :=
  let x := Quaternion.x quaternion in
  let y := Quaternion.y quaternion in
  let z := Quaternion.z quaternion in
  let w := Quaternion.w quaternion in
  let x2 := (x + x)%js in
  let y2 := (y + y)%js in
  let z2 := (z + z)%js in
  let xx := (x * x2)%js in
  let xy := (x * y2)%js in
  let xz := (x * z2)%js in
  let yy := (y * y2)%js in
  let yz := (y * z2)%js in
  let zz := (z * z2)%js in
  let wx := (w * x2)%js in
  let wy := (w * y2)%js in
  let wz := (w * z2)%js in
  let sx := Vector3.x scale in
  let sy := Vector3.y scale in
  let sz := Vector3.z scale in
  mk ((Fin 1 - (yy + zz)) * sx)%js ((xy + wz) * sx)%js ((xz - wy) * sx)%js (Fin 0)
     ((xy - wz) * sy)%js ((Fin 1 - (xx + zz)) * sy)%js ((yz + wx) * sy)%js (Fin 0)
     ((xz + wy) * sz)%js ((yz - wx) * sz)%js ((Fin 1 - (xx + yy)) * sz)%js (Fin 0)
     (Vector3.x position) (Vector3.y position) (Vector3.z position) (Fin 1).

End Matrix4.

(** [v.applyMatrix4(m)] *)
Definition Vector3_applyMatrix4 (v : Vector3.t) (m : Matrix4.t) : Vector3.t :=
  let x := Vector3.x v in
  let y := Vector3.y v in
  let z := Vector3.z v in
  let w := (Fin 1 / (Matrix4.e3 m * x + Matrix4.e7 m * y + Matrix4.e11 m * z
                     + Matrix4.e15 m))%js in
  Vector3.mk
    ((Matrix4.e0 m * x + Matrix4.e4 m * y + Matrix4.e8 m * z + Matrix4.e12 m) * w)%js
    ((Matrix4.e1 m * x + Matrix4.e5 m * y + Matrix4.e9 m * z + Matrix4.e13 m) * w)%js
    ((Matrix4.e2 m * x + Matrix4.e6 m * y + Matrix4.e10 m * z + Matrix4.e14 m) * w)%js.

(** ** The Master Logic library: loading a model and the render loop *)

Module MasterInstance.

Import Stdlib.Strings.String.StringSyntax.
Local Open Scope string_scope.
Local Open Scope monad_scope.

(** The [THREE.Mesh] that [loadModel] builds: its object id, the vertex
    positions of its geometry, and its position and rotation (the Euler
    angles, in the default order); the scale keeps its default, 1. *)
Record Mesh : Type := mkMesh {
  id : nat;
  attributes_position : list Vector3.t;
  position : Vector3.t;
  rotation : Vector3.t
}.

(** [mesh.position.sub(v)] *)
Definition position_sub (v : Vector3.t) (mesh : Mesh) : Mesh :=
  mkMesh (id mesh) (attributes_position mesh)
         (Vector3.subVectors (position mesh) v) (rotation mesh).

(** [mesh.matrixWorld] after [updateWorldMatrix]: the mesh is a child of the
    scene, whose own world matrix is the identity, so it is the local
    matrix, composed from position, rotation and scale. *)
Definition matrixWorld (object : Mesh) : Matrix4.t :=
  Matrix4.compose (position object) (Quaternion.setFromEuler (rotation object))
                  (Vector3.setScalar (Fin 1)).

(** [new THREE.Box3().setFromObject(mesh)]: the bounding box of the geometry
    (which [computeBoundingBox] reads off the vertices), carried to world
    space, joined to an empty box. *)
Definition setFromObject (object : Mesh) : Box3.t :=
  let box := Box3.setFromPoints (attributes_position object) in
  Box3.union Box3.makeEmpty
             (Box3.applyMatrix4 box (fun p => Vector3_applyMatrix4 p (matrixWorld object))).

(** The mesh as the fit sees it. *)
Definition world (object : Mesh) : Master.Object3D :=
  Master.mkObject3D (setFromObject object).

(** [THREE.GridHelper]: its height. *)
Record GridHelper : Type := mkGridHelper {
  position_y : number
}.

(** What the library reads of the page: whether three.js and its
    [DRACOLoader] are loaded, the counter from which three.js numbers its
    objects, and the animation frame callbacks of the window, which are kept
    by their handles (this library registers no callback but [animate]). *)
Record Window : Type := mkWindow {
  THREE : bool;
  DRACOLoader : bool;
  object3DId : nat;
  callback_identifier : N;
  callbacks : list N
}.

(** The fields of the configurator instance that loading, rendering and
    resizing read and write.  The scene is kept as the list of the ids of
    its children. *)
Record Instance : Type := mkInstance {
  window : Window;
  canvas : Canvas;
  scene : option (list nat);
  camera : option PerspectiveCamera;
  renderer : option WebGLRenderer;
  controls : option OrbitControls;
  currentModel : option Mesh;
  gridHelper : option GridHelper;
  animationFrameId : option N
}.

Definition set_window (w : Window) (this : Instance) : Instance :=
  mkInstance w (canvas this) (scene this) (camera this) (renderer this) (controls this)
             (currentModel this) (gridHelper this) (animationFrameId this).

Definition set_scene (children : list nat) (this : Instance) : Instance :=
  mkInstance (window this) (canvas this) (Some children) (camera this) (renderer this)
             (controls this) (currentModel this) (gridHelper this) (animationFrameId this).

Definition set_currentModel (model : option Mesh) (this : Instance) : Instance :=
  mkInstance (window this) (canvas this) (scene this) (camera this) (renderer this)
             (controls this) model (gridHelper this) (animationFrameId this).

Definition set_gridHelper (grid : GridHelper) (this : Instance) : Instance :=
  mkInstance (window this) (canvas this) (scene this) (camera this) (renderer this)
             (controls this) (currentModel this) (Some grid) (animationFrameId this).

Definition set_animationFrameId (handle : option N) (this : Instance) : Instance :=
  mkInstance (window this) (canvas this) (scene this) (camera this) (renderer this)
             (controls this) (currentModel this) (gridHelper this) handle.

(** The part of the instance that [_fitCameraToModel] and [handleResize]
    work on, and their results written back: they assign to the camera, the
    renderer and the controls only. *)
Definition viewer (this : Instance) : Master.Viewer :=
  Master.mkViewer (canvas this) (camera this) (renderer this) (controls this)
                  (option_map world (currentModel this)).

Definition with_viewer (v : Master.Viewer) (this : Instance) : Instance :=
  mkInstance (window this) (canvas this) (scene this) (Master.camera v)
             (Master.renderer v) (Master.controls v) (currentModel this)
             (gridHelper this) (animationFrameId this).

Definition lift {A} (m : M Master.Viewer A) : M Instance A :=
  fun this =>
    match m (viewer this) with
    | Normal a v => Normal a (with_viewer v this)
    | Throw v => Throw (with_viewer v this)
    end.

(** [this.scene], read for a method call. *)
Definition this_scene : M Instance (list nat) :=
  this <- get;; deref (scene this).

(** [children.splice(children.indexOf(object), 1)], when the object is
    among the children: its first occurrence goes. *)
Fixpoint splice_first (object : nat) (children : list nat) : list nat :=
  match children with
  | [] => []
  | child :: rest =>
      if Nat.eqb child object then rest else child :: splice_first object rest
  end.

(** [scene.add(object)] for an object that has no parent, and
    [scene.remove(object)] *)
Definition scene_add (object : nat) : M Instance unit :=
  children <- this_scene;; modify (set_scene (children ++ [object])).

Definition scene_remove (object : nat) : M Instance unit :=
  children <- this_scene;; modify (set_scene (splice_first object children)).

(** [_fitCameraToModel(mesh)] and [handleResize], on the instance. *)
Definition _fitCameraToModel (model : option Mesh) : M Instance unit :=
  lift (Master._fitCameraToModel (option_map world model)).

Definition handleResize : M Instance unit := lift Master.handleResize.

(** [loadModel(url)], up to the call of [loader.load]: the promise is
    rejected at once, with the message given, if a prerequisite is missing;
    otherwise the model on display is taken out and the loader started. *)
Definition loadModel (this : Instance) : completion Instance (option String.string) :=
  (this <- get;;
   if negb (THREE (window this)) then ret (Some "THREE.js not loaded")
   else if negb (DRACOLoader (window this)) then ret (Some "DRACOLoader not available")
   else if falsy (scene this) then ret (Some "Scene not initialized")
   else
     (match currentModel this with
      | Some model =>
          scene_remove (id model);;
          modify (set_currentModel None)
      | None => ret tt
      end);;
     ret None) this.

(** The callback that [loadModel] hands to the loader for the decoded
    geometry; it resolves the promise with the mesh.  The new mesh is turned
    from Z-up to Y-up, added to the scene and made the current model; it is
    then moved so that its world box is centred, the grid is put just below
    it, and the camera is fitted.  ([this.currentModel] is this very mesh,
    so it moves with it.) *)
Definition loadModel_onLoad (geometry : list Vector3.t) : M Instance Mesh :=
  this <- get;;
  let mesh :=
    mkMesh (object3DId (window this)) geometry Vector3.zero
           (Vector3.mk (- (Math_PI / Fin 2))%js (Fin 0) (Fin 0)) in
  modify (set_window (mkWindow (THREE (window this)) (DRACOLoader (window this))
                               (S (object3DId (window this)))
                               (callback_identifier (window this))
                               (callbacks (window this))));;
  scene_add (id mesh);;
  modify (set_currentModel (Some mesh));;
  let box := setFromObject mesh in
  let center := Box3.getCenter box in
  let mesh := position_sub center mesh in
  modify (set_currentModel (Some mesh));;
  let finalBox := setFromObject mesh in
  this <- get;;
  (match gridHelper this with
   | Some _ =>
       let modelBottom := Vector3.y (Box3.min finalBox) in
       modify (set_gridHelper (mkGridHelper (modelBottom - Fin 0.1)%js))
   | None => ret tt
   end);;
  _fitCameraToModel (Some mesh);;
  ret mesh.

(** [requestAnimationFrame(animate)]: the window hands out the next handle
    and keeps the callback under it. *)
Definition requestAnimationFrame : M Instance N :=
  this <- get;;
  let w := window this in
  let handle := (callback_identifier w + 1)%N in
  modify (set_window (mkWindow (THREE w) (DRACOLoader w) (object3DId w) handle
                               (callbacks w ++ [handle])));;
  ret handle.

(** [cancelAnimationFrame(handle)] *)
Definition cancelAnimationFrame (handle : N) : M Instance unit :=
  this <- get;;
  let w := window this in
  modify (set_window (mkWindow (THREE w) (DRACOLoader w) (object3DId w)
                               (callback_identifier w)
                               (remove N.eq_dec handle (callbacks w)))).

(** The closure [animate] of [startRenderLoop]: it registers itself for the
    next frame, lets the controls update the camera, and renders (which
    changes none of the fields kept here). *)
Definition animate : M Instance unit :=
  handle <- requestAnimationFrame;;
  modify (set_animationFrameId (Some handle));;
  this <- get;;
  if falsy (controls this) then ret tt else lift Master.controls_update.

(** [startRenderLoop()] *)
Definition startRenderLoop : M Instance unit := animate.

(** [stopRenderLoop()]: a handle that is [null] or 0 counts as none. *)
Definition stopRenderLoop : M Instance unit :=
  this <- get;;
  match animationFrameId this with
  | Some handle =>
      if (handle =? 0)%N then ret tt
      else
        cancelAnimationFrame handle;;
        modify (set_animationFrameId None)
  | None => ret tt
  end.

(** One animation frame of the window: the callbacks registered so far are
    taken off the list and run, each of them being [animate]; a throwing
    callback does not keep the others from running. *)
Fixpoint run_callbacks (handles : list N) (this : Instance) : Instance :=
  match handles with
  | [] => this
  | _ :: rest => run_callbacks rest (final (animate this))
  end.

Definition frame (this : Instance) : Instance :=
  let w := window this in
  run_callbacks (callbacks w)
                (set_window (mkWindow (THREE w) (DRACOLoader w) (object3DId w)
                                      (callback_identifier w) [])
                            this).

(** The pose of the instance's camera. *)
Definition pose (this : Instance) := pose_of (camera this) (controls this).

End MasterInstance.

(** ** [configurator.js]: the animation loop *)

(** [animate()] of [configurator.js], as far as the viewer goes: the
    controls update the camera and the renderer draws; neither reference is
    checked. *)
Definition Configurator_animate : M Configurator.Viewer unit :=
  bind Configurator.controls_update (fun _ =>
  bind Configurator.this_renderer (fun _ => ret tt)).

(** ** The near and the far plane *)

(** Both scripts create their camera as
    [new PerspectiveCamera(fov, aspect, 0.1, 1000)] and leave the two planes
    as they are. *)
Definition camera_near : R := 0.1.
Definition camera_far : R := 1000.

(** A point [p] seen from [eye] by a camera aimed at [tgt] is between the
    near and the far plane: its depth along the viewing direction is
    [camera_near] at least and [camera_far] at most.  (As in [frustum], the
    axis [zb] is used without normalising.) *)
Definition between_planes (eye tgt p : R3.t) : Prop :=
  let zb := R3.sub eye tgt in
  let depth := - R3.dot (R3.sub p eye) zb in
  camera_near * R3.norm zb <= depth <= camera_far * R3.norm zb.

Definition within_planes (c : PerspectiveCamera) (p : Vector3.t) : Prop :=
  match R3.of_Vector3 (position c), R3.of_Vector3 (lookingAt c), R3.of_Vector3 p with
  | Some eye, Some tgt, Some q => between_planes eye tgt q
  | _, _, _ => False
  end.

(** Every vertex of the box is within the six planes of the viewer's
    camera: the four sides of the view frustum, the near and the far
    plane. *)
Definition box_drawn (c : option PerspectiveCamera) (b : Box3.t) : Prop :=
  box_in_view c b
  /\ match c with
     | Some c => Forall (within_planes c) (Box3.corners b)
     | None => False
     end.

(** ** JavaScript values and plain objects *)

Module JS.

Import Stdlib.Strings.String.StringSyntax.
Local Open Scope string_scope.

(** The values that parameters and saved configurations carry. *)
#[local] Unset Elimination Schemes.
Inductive value : Type :=
| Undefined
| Null
| Bool (b : bool)
| Num (n : number)
| Str (s : String.string)
| Obj (properties : list (String.string * value))
| Arr (items : list value).
#[local] Set Elimination Schemes.

(** A plain object: its own enumerable properties, in the order in which
    [Object.entries] lists them.  (A key occurs once; keys that are array
    indices, which JavaScript lists first, are never added by the code
    modelled here.) *)
Definition object : Type := list (String.string * value).

(** The own property [k] of an object, if it has one. *)
Fixpoint own {A} (o : list (String.string * A)) (k : String.string) : option A :=
  match o with
  | [] => None
  | (k', v) :: rest => if String.eqb k k' then Some v else own rest k
  end.

(** The names that every object inherits from [Object.prototype]. *)
Definition Object_prototype : list String.string :=
  [ "constructor"; "__defineGetter__"; "__defineSetter__"; "hasOwnProperty";
    "__lookupGetter__"; "__lookupSetter__"; "isPrototypeOf";
    "propertyIsEnumerable"; "toString"; "valueOf"; "__proto__"; "toLocaleString" ].

Definition inherited (k : String.string) : bool :=
  existsb (String.eqb k) Object_prototype.

(** [o.k] for a name [k] that is not inherited: the own property, or
    [undefined]. *)
Definition prop (o : object) (k : String.string) : value :=
  match own o k with
  | Some v => v
  | None => Undefined
  end.

(** [o[k] = v] on data properties: an own property keeps its place, a new
    one comes last. *)
Fixpoint put {A} (k : String.string) (v : A) (o : list (String.string * A))
  : list (String.string * A) :=
  match o with
  | [] => [(k, v)]
  | (k', v') :: rest =>
      if String.eqb k k' then (k, v) :: rest else (k', v') :: put k v rest
  end.

(** [v !== undefined] *)
Definition defined (v : value) : bool :=
  match v with Undefined => false | _ => true end.

(** The truth value of [v] in a condition. *)
Definition truthy (v : value) : bool :=
  match v with
  | Undefined | Null => false
  | Bool b => b
  | Num n => negb (isNaN n || strict_eq n (Fin 0))
  | Str s => negb (String.eqb s "")
  | Obj _ | Arr _ => true
  end.

(** The own keys, as [Object.keys] lists them. *)
Definition keys {A} (o : list (String.string * A)) : list String.string :=
  map fst o.

End JS.

(** ** The Master Logic library: state and parameters *)

Module MasterState.

Import Stdlib.Strings.String.StringSyntax.
Local Open Scope string_scope.
Local Open Scope monad_scope.

(** [this.state].  The parameters are an object of parameter objects,
    keyed by name. *)
Record State : Type := mkState {
  loading : bool;
  initialized : bool;
  parameters : list (String.string * JS.object);
  pricing : JS.object;
  modelLoaded : bool;
  isDirty : bool;
  error : JS.value
}.

(** The instance, as far as the methods on parameters go: its state,
    whether [this.currentModel] is set, and the states that the callback
    [onStateChange] was called with, each as it was at the call (the
    callback is taken to return normally). *)
Record Instance : Type := mkInstance {
  state : State;
  currentModel : bool;
  notified : list State
}.

(** The argument of [updateState]: the properties to overwrite. *)
Record Updates : Type := mkUpdates {
  set_loading : option bool;
  set_initialized : option bool;
  set_parameters : option (list (String.string * JS.object));
  set_pricing : option JS.object;
  set_modelLoaded : option bool;
  set_isDirty : option bool;
  set_error : option JS.value
}.

Definition assign {A} (update : option A) (current : A) : A :=
  match update with Some v => v | None => current end.

(** [{ ...state, ...updates }] *)
Definition merge (s : State) (updates : Updates) : State :=
  mkState (assign (set_loading updates) (loading s))
          (assign (set_initialized updates) (initialized s))
          (assign (set_parameters updates) (parameters s))
          (assign (set_pricing updates) (pricing s))
          (assign (set_modelLoaded updates) (modelLoaded s))
          (assign (set_isDirty updates) (isDirty s))
          (assign (set_error updates) (error s)).

(** [updateState(updates)] *)
Definition updateState (updates : Updates) : M Instance unit :=
  modify (fun this =>
            let s := merge (state this) updates in
            mkInstance s (currentModel this) (notified this ++ [s])).

(** [{ parameters, isDirty: true }] *)
Definition edited (parameters : list (String.string * JS.object)) : Updates :=
  mkUpdates None None (Some parameters) None None (Some true) None.

(** [param.value !== undefined ? param.value : param.defaultValue] *)
Definition current (param : JS.object) : JS.value :=
  if JS.defined (JS.prop param "value") then JS.prop param "value"
  else JS.prop param "defaultValue".

(** [getParameterValues()] *)
Definition getParameterValues (this : Instance) : JS.object :=
  map (fun entry => (fst entry, current (snd entry))) (parameters (state this)).

(** [updateParameter(name, value)].  The test [!this.state.parameters[name]]
    passes for an own parameter and also for a name that the object
    inherits, for which a parameter with nothing but the value is then
    created.  The result is [None] where the call assigns to [__proto__]:
    that replaces the prototype of the new parameters object, and objects
    with a prototype of their own are outside this model. *)
Definition updateParameter (name : String.string) (value : JS.value) (this : Instance)
  : option (completion Instance bool) :=
  let replace param :=
    let parameters := parameters (state this) in
    let parameters := JS.put name (JS.put "value" value param) parameters in
    (updateState (edited parameters);; ret true) this in
  match JS.own (parameters (state this)) name with
  | Some param => Some (replace param)
  | None =>
      if JS.inherited name
      then if String.eqb name "__proto__" then None else Some (replace [])
      else Some (Normal false this)
  end.

(** [resetParameters()]: the parameter objects, which the copy shares with
    [this.state], are reset in place. *)
Definition resetParameters : M Instance unit :=
  this <- get;;
  let parameters :=
    map (fun entry =>
           (fst entry, JS.put "value" (JS.prop (snd entry) "defaultValue") (snd entry)))
        (parameters (state this)) in
  updateState (edited parameters).

(** What [getCurrentConfig()] returns. *)
Record Config : Type := mkConfig {
  config_parameters : list (String.string * JS.object);
  modelUrl : option String.string;
  config_pricing : JS.object
}.

(** [getCurrentConfig()] *)
Definition getCurrentConfig (this : Instance) : Config :=
  let saved (entry : String.string * JS.object) :=
    let key := fst entry in
    let param := snd entry in
    let o :=
      [ ("name", JS.Str key);
        ("value", current param);
        ("label", JS.prop param "label");
        ("type", JS.prop param "type");
        ("valueType", JS.prop param "valueType");
        ("defaultValue", JS.prop param "defaultValue") ] in
    let o :=
      if JS.truthy (JS.prop param "rangeConfig")
      then JS.put "rangeConfig" (JS.prop param "rangeConfig") o else o in
    let o :=
      if JS.truthy (JS.prop param "dropdownOptions")
      then JS.put "dropdownOptions" (JS.prop param "dropdownOptions") o else o in
    (key, o) in
  mkConfig (map saved (parameters (state this)))
           (if currentModel this then Some "generated" else None)
           (pricing (state this)).

(** The parameter objects of the state written to in place: the state
    object itself and what the callback has seen stay as they are. *)
Definition with_parameters (parameters : list (String.string * JS.object))
           (this : Instance) : Instance :=
  let s := state this in
  mkInstance (mkState (loading s) (initialized s) parameters (pricing s)
                      (modelLoaded s) (isDirty s) (error s))
             (currentModel this) (notified this).

(** The property [parameters] of a saved configuration, as a value to hand
    to [loadConfiguration]. *)
Definition saved_parameters (config : Config) : JS.object :=
  map (fun entry => (fst entry, JS.Obj (snd entry))) (config_parameters config).

(** The parameters [now] have the names of the parameters [before], in the
    same order, and under each name the same default. *)
Definition same_defaults (before now : list (String.string * JS.object)) : Prop :=
  Forall2 (fun e0 e1 =>
             fst e0 = fst e1
             /\ JS.prop (snd e1) "defaultValue" = JS.prop (snd e0) "defaultValue")
          before now.

(** [savedParam.value !== undefined ? savedParam.value : savedParam.defaultValue]
    for a value [savedParam] that is neither [null] nor [undefined]: an
    object is read for its own properties, anything else has neither
    property. *)
Definition saved_value (savedParam : JS.value) : JS.value :=
  match savedParam with
  | JS.Obj o => current o
  | _ => JS.Undefined
  end.

(** The loop of [loadConfiguration] over [Object.entries(parameters)].  The
    parameter objects are those of [this.state], so each assignment shows in
    the state at once, whether or not the loop runs to its end.  A saved
    entry that is [null] or [undefined] under the name of a parameter
    throws.  The result is [None] where a saved key is no parameter but a
    name that every object inherits: the assignment is then to a built-in
    object, which is outside this model. *)
Fixpoint loadConfiguration_entries (entries : list (String.string * JS.value))
         (this : Instance) : option (completion Instance unit) :=
  match entries with
  | [] => Some (Normal tt this)
  | (key, savedParam) :: rest =>
      match JS.own (parameters (state this)) key with
      | Some param =>
          match savedParam with
          | JS.Undefined | JS.Null => Some (Throw this)
          | _ =>
              let updated :=
                JS.put key (JS.put "value" (saved_value savedParam) param)
                       (parameters (state this)) in
              loadConfiguration_entries rest (with_parameters updated this)
          end
      | None => if JS.inherited key then None else loadConfiguration_entries rest this
      end
  end.

(** [loadConfiguration(parameters)], for an argument that is [null] or
    [undefined] ([None]) or a plain object. *)
Definition loadConfiguration (parameters : option JS.object) (this : Instance)
  : option (completion Instance bool) :=
  match parameters with
  | None => Some (Normal false this)
  | Some saved =>
      match loadConfiguration_entries saved this with
      | Some (Normal _ this') =>
          Some ((updateState (edited (MasterState.parameters (state this')));;
                 ret true) this')
      | Some (Throw this') => Some (Throw this')
      | None => None
      end
  end.

End MasterState.
(** ** Facts about numbers *)

Lemma Reqb_true (x y : R) : x = y -> Reqb x y = true.
Proof. intros H. unfold Reqb. destruct (Req_dec_T x y); [reflexivity | contradiction]. Qed.

Lemma Reqb_false (x y : R) : x <> y -> Reqb x y = false.
Proof. intros H. unfold Reqb. destruct (Req_dec_T x y); [contradiction | reflexivity]. Qed.

Lemma Rltb_true (x y : R) : x < y -> Rltb x y = true.
Proof. intros H. unfold Rltb. destruct (Rlt_dec x y); [reflexivity | contradiction]. Qed.

Lemma Rltb_false (x y : R) : ~ x < y -> Rltb x y = false.
Proof. intros H. unfold Rltb. destruct (Rlt_dec x y); [contradiction | reflexivity]. Qed.

Lemma div_Fin (x y : R) : y <> 0 -> (Fin x / Fin y)%js = Fin (x / y).
Proof. intros H. simpl. rewrite (Reqb_false _ _ H). reflexivity. Qed.

Lemma Math_tan_Fin (x : R) : cos x <> 0 -> Math_tan (Fin x) = Fin (tan x).
Proof. intros H. unfold Math_tan. rewrite (div_Fin _ _ H). reflexivity. Qed.

Lemma Fin_inj (x y : R) : Fin x = Fin y -> x = y.
Proof. intros H. injection H as H. exact H. Qed.

Lemma of_N_zero : of_N 0 = Fin 0.
Proof. reflexivity. Qed.

Lemma of_N_pos (n : N) : n <> 0%N -> 0 < IZR (Z.of_N n).
Proof. intros H. apply IZR_lt. lia. Qed.

(** The aspect ratio of a canvas of width zero is zero or [NaN]. *)
Lemma aspect_width_zero (h : N) :
  let a := (of_N 0 / of_N h)%js in isNaN a || strict_eq a (Fin 0) = true.
Proof.
  unfold of_N. simpl.
  destruct (Req_dec_T (IZR (Z.of_N h)) 0) as [E | E].
  - rewrite (Reqb_true _ _ E), (Reqb_true 0 0 eq_refl). reflexivity.
  - rewrite (Reqb_false _ _ E). simpl. apply Reqb_true. unfold Rdiv. ring.
Qed.

(** The aspect ratio of a canvas of height zero and width not zero is
    [+Infinity]. *)
Lemma aspect_height_zero (w : N) : w <> 0%N -> (of_N w / of_N 0)%js = PInf.
Proof.
  intros H. pose proof (of_N_pos w H) as P. unfold of_N. simpl.
  rewrite (Reqb_true 0 0 eq_refl), Reqb_false by lra.
  rewrite Rltb_true by exact P. reflexivity.
Qed.

(** The aspect ratio of a canvas with both sides not zero is their quotient,
    a positive finite number. *)
Lemma aspect_nonzero (w h : N) :
  w <> 0%N -> h <> 0%N ->
  (of_N w / of_N h)%js = Fin (IZR (Z.of_N w) / IZR (Z.of_N h))
  /\ 0 < IZR (Z.of_N w) / IZR (Z.of_N h).
Proof.
  intros Hw Hh. pose proof (of_N_pos w Hw). pose proof (of_N_pos h Hh).
  split.
  - unfold of_N. apply div_Fin. lra.
  - apply Rdiv_lt_0_compat; assumption.
Qed.

Lemma PI_180 : (Math_PI / Fin 180)%js = Fin (PI / 180).
Proof. unfold Math_PI. apply div_Fin. lra. Qed.

(** The radians of the code, [fov * (Math.PI / 180)], are the radians of the
    specification, [fov * π / 180]. *)
Lemma fovRad_assoc (f : number) :
  (f * (Math_PI / Fin 180))%js = (f * Math_PI / Fin 180)%js.
Proof.
  pose proof PI_RGT_0 as P.
  rewrite PI_180. unfold Math_PI.
  destruct f as [ | | | r]; simpl.
  - reflexivity.
  - rewrite !Reqb_false by lra. rewrite !Rltb_true by lra. simpl.
    rewrite Rltb_false by lra. reflexivity.
  - rewrite !Reqb_false by lra. rewrite !Rltb_true by lra. simpl.
    rewrite Rltb_false by lra. reflexivity.
  - rewrite Reqb_false by lra. f_equal. field.
Qed.

Lemma Vector3_eta (v : Vector3.t) :
  Vector3.mk (Vector3.x v) (Vector3.y v) (Vector3.z v) = v.
Proof. destruct v; reflexivity. Qed.

(** From here on the operations on numbers are unfolded on request only. *)
Arguments add : simpl never.
Arguments sub : simpl never.
Arguments mul : simpl never.
Arguments div : simpl never.
Arguments neg : simpl never.
Arguments gt : simpl never.
Arguments lt : simpl never.
Arguments strict_eq : simpl never.
Arguments isNaN : simpl never.
Arguments Math_abs : simpl never.
Arguments Math_max : simpl never.
Arguments Math_min : simpl never.
Arguments Math_max3 : simpl never.
Arguments Math_tan : simpl never.
Arguments of_N : simpl never.

(** Unfolding the monad of completions. *)
Ltac run :=
  unfold bind, get, ret, deref, modify, final, returns in *; cbn in *.

(** ** Facts about boxes *)

Lemma setFromPoints_fold (pts : list Vector3.t) (a1 a2 a3 b1 b2 b3 : number) :
  fold_left Box3.expandByPoint pts
            (Box3.mk (Vector3.mk a1 a2 a3) (Vector3.mk b1 b2 b3))
  = Box3.mk
      (Vector3.mk (fold_left Math_min (map Vector3.x pts) a1)
                  (fold_left Math_min (map Vector3.y pts) a2)
                  (fold_left Math_min (map Vector3.z pts) a3))
      (Vector3.mk (fold_left Math_max (map Vector3.x pts) b1)
                  (fold_left Math_max (map Vector3.y pts) b2)
                  (fold_left Math_max (map Vector3.z pts) b3)).
Proof.
  revert a1 a2 a3 b1 b2 b3.
  induction pts as [ | p pts IH]; intros; [reflexivity | ].
  cbn [fold_left map]. unfold Box3.expandByPoint at 2.
  unfold Vector3.min, Vector3.max. cbn [Box3.min Box3.max Vector3.x Vector3.y Vector3.z].
  apply IH.
Qed.

(** [setFromPoints] works coordinate by coordinate. *)
Lemma setFromPoints_coords (pts : list Vector3.t) :
  Box3.setFromPoints pts
  = Box3.mk
      (Vector3.mk (minimum (map Vector3.x pts)) (minimum (map Vector3.y pts))
                  (minimum (map Vector3.z pts)))
      (Vector3.mk (maximum (map Vector3.x pts)) (maximum (map Vector3.y pts))
                  (maximum (map Vector3.z pts))).
Proof. apply setFromPoints_fold. Qed.

Lemma fold_min_Fin (l : list number) :
  Forall finite l ->
  forall a, exists v,
    fold_left Math_min l (Fin a) = Fin v
    /\ v <= a
    /\ (forall r, In (Fin r) l -> v <= r)
    /\ (v = a \/ In (Fin v) l).
Proof.
  induction 1 as [ | b l Hb Hl IH]; intros a.
  - exists a. cbn. repeat split; [lra | intros r [] | now left].
  - destruct b as [ | | | b]; try contradiction.
    cbn [fold_left]. unfold Math_min at 2.
    destruct (IH (Rmin a b)) as (v & E & Hle & Hlow & Hin).
    exists v. split; [exact E | ].
    pose proof (Rmin_l a b). pose proof (Rmin_r a b).
    split; [lra | ]. split.
    + intros r [Hr | Hr]; [apply Fin_inj in Hr; lra | now apply Hlow].
    + destruct Hin as [Hin | Hin]; [ | right; now right].
      unfold Rmin in Hin. destruct (Rle_dec a b); [now left | ].
      right; left. now subst v.
Qed.

Lemma fold_max_Fin (l : list number) :
  Forall finite l ->
  forall a, exists v,
    fold_left Math_max l (Fin a) = Fin v
    /\ a <= v
    /\ (forall r, In (Fin r) l -> r <= v)
    /\ (v = a \/ In (Fin v) l).
Proof.
  induction 1 as [ | b l Hb Hl IH]; intros a.
  - exists a. cbn. repeat split; [lra | intros r [] | now left].
  - destruct b as [ | | | b]; try contradiction.
    cbn [fold_left]. unfold Math_max at 2.
    destruct (IH (Rmax a b)) as (v & E & Hle & Hlow & Hin).
    exists v. split; [exact E | ].
    pose proof (Rmax_l a b). pose proof (Rmax_r a b).
    split; [lra | ]. split.
    + intros r [Hr | Hr]; [apply Fin_inj in Hr; lra | now apply Hlow].
    + destruct Hin as [Hin | Hin]; [ | right; now right].
      unfold Rmax in Hin. destruct (Rle_dec a b); [ | now left].
      right; left. now subst v.
Qed.

(** The least coordinate of a non-empty list of finite numbers is the finite
    number of the list that is below all others. *)
Lemma minimum_unique (l : list number) (m : R) :
  Forall finite l -> In (Fin m) l -> (forall r, In (Fin r) l -> m <= r) ->
  minimum l = Fin m.
Proof.
  intros Hf Hin Hlow. unfold minimum.
  destruct Hf as [ | b l Hb Hl]; [destruct Hin | ].
  destruct b as [ | | | b]; try contradiction.
  cbn [fold_left]. unfold Math_min at 2.
  destruct (fold_min_Fin l Hl b) as (v & E & Hle & Hlow' & Hv).
  rewrite E. f_equal. apply Rle_antisym.
  - destruct Hin as [Hin | Hin]; [apply Fin_inj in Hin; lra | now apply Hlow'].
  - apply Hlow. destruct Hv as [Hv | Hv]; [left; now subst v | now right].
Qed.

Lemma maximum_unique (l : list number) (m : R) :
  Forall finite l -> In (Fin m) l -> (forall r, In (Fin r) l -> r <= m) ->
  maximum l = Fin m.
Proof.
  intros Hf Hin Hup. unfold maximum.
  destruct Hf as [ | b l Hb Hl]; [destruct Hin | ].
  destruct b as [ | | | b]; try contradiction.
  cbn [fold_left]. unfold Math_max at 2.
  destruct (fold_max_Fin l Hl b) as (v & E & Hle & Hup' & Hv).
  rewrite E. f_equal. apply Rle_antisym.
  - apply Hup. destruct Hv as [Hv | Hv]; [left; now subst v | now right].
  - destruct Hin as [Hin | Hin]; [apply Fin_inj in Hin; lra | now apply Hup'].
Qed.

(** Existence: such a least and greatest number are there. *)
Lemma minimum_exists (l : list number) :
  Forall finite l -> l <> [] ->
  exists m, In (Fin m) l /\ (forall r, In (Fin r) l -> m <= r).
Proof.
  intros Hf Hne. destruct Hf as [ | b l Hb Hl]; [contradiction | ].
  destruct b as [ | | | b]; try contradiction.
  destruct (fold_min_Fin l Hl b) as (v & E & Hle & Hlow & Hv).
  exists v. split.
  - destruct Hv as [Hv | Hv]; [left; now subst v | now right].
  - intros r [Hr | Hr]; [apply Fin_inj in Hr; lra | now apply Hlow].
Qed.

Lemma maximum_exists (l : list number) :
  Forall finite l -> l <> [] ->
  exists m, In (Fin m) l /\ (forall r, In (Fin r) l -> r <= m).
Proof.
  intros Hf Hne. destruct Hf as [ | b l Hb Hl]; [contradiction | ].
  destruct b as [ | | | b]; try contradiction.
  destruct (fold_max_Fin l Hl b) as (v & E & Hle & Hup & Hv).
  exists v. split.
  - destruct Hv as [Hv | Hv]; [left; now subst v | now right].
  - intros r [Hr | Hr]; [apply Fin_inj in Hr; lra | now apply Hup].
Qed.

Lemma minimum_least (l : list number) (m : R) :
  Forall finite l -> least l m -> minimum l = Fin m.
Proof. intros Hf [Hin Hlow]. now apply minimum_unique. Qed.

Lemma maximum_greatest (l : list number) (m : R) :
  Forall finite l -> greatest l m -> maximum l = Fin m.
Proof. intros Hf [Hin Hup]. now apply maximum_unique. Qed.

Lemma least_le_greatest (l : list number) (m n : R) :
  least l m -> greatest l n -> m <= n.
Proof. intros [Hin _] [_ Hup]. now apply Hup. Qed.

Lemma Forall_finite_x (pts : list Vector3.t) :
  Forall Vector3.finite pts -> Forall finite (map Vector3.x pts).
Proof. intros H. apply Forall_map. eapply Forall_impl; [ | exact H]. now intros p (Hx & _). Qed.

Lemma Forall_finite_y (pts : list Vector3.t) :
  Forall Vector3.finite pts -> Forall finite (map Vector3.y pts).
Proof. intros H. apply Forall_map. eapply Forall_impl; [ | exact H]. now intros p (_ & Hy & _). Qed.

Lemma Forall_finite_z (pts : list Vector3.t) :
  Forall Vector3.finite pts -> Forall finite (map Vector3.z pts).
Proof. intros H. apply Forall_map. eapply Forall_impl; [ | exact H]. now intros p (_ & _ & Hz). Qed.

(** The box of a list of finite points, from the extremes of its
    coordinates. *)
Lemma setFromPoints_bounds (pts : list Vector3.t) (lx ly lz hx hy hz : R) :
  Forall Vector3.finite pts ->
  least (map Vector3.x pts) lx -> least (map Vector3.y pts) ly ->
  least (map Vector3.z pts) lz ->
  greatest (map Vector3.x pts) hx -> greatest (map Vector3.y pts) hy ->
  greatest (map Vector3.z pts) hz ->
  Box3.setFromPoints pts = bounds (lx, ly, lz) (hx, hy, hz).
Proof.
  intros Hf Lx Ly Lz Gx Gy Gz. rewrite setFromPoints_coords. unfold bounds.
  rewrite (minimum_least _ _ (Forall_finite_x _ Hf) Lx),
          (minimum_least _ _ (Forall_finite_y _ Hf) Ly),
          (minimum_least _ _ (Forall_finite_z _ Hf) Lz),
          (maximum_greatest _ _ (Forall_finite_x _ Hf) Gx),
          (maximum_greatest _ _ (Forall_finite_y _ Hf) Gy),
          (maximum_greatest _ _ (Forall_finite_z _ Hf) Gz).
  reflexivity.
Qed.

(** A non-empty list of finite points has such extremes. *)
Lemma extremes_exist (pts : list Vector3.t) :
  Forall Vector3.finite pts -> pts <> [] ->
  exists lx ly lz hx hy hz,
    least (map Vector3.x pts) lx /\ least (map Vector3.y pts) ly
    /\ least (map Vector3.z pts) lz
    /\ greatest (map Vector3.x pts) hx /\ greatest (map Vector3.y pts) hy
    /\ greatest (map Vector3.z pts) hz.
Proof.
  intros Hf Hne.
  assert (N : forall f : Vector3.t -> number, map f pts <> [])
    by (intros f E; apply map_eq_nil in E; contradiction).
  destruct (minimum_exists _ (Forall_finite_x _ Hf) (N _)) as (lx & Lx).
  destruct (minimum_exists _ (Forall_finite_y _ Hf) (N _)) as (ly & Ly).
  destruct (minimum_exists _ (Forall_finite_z _ Hf) (N _)) as (lz & Lz).
  destruct (maximum_exists _ (Forall_finite_x _ Hf) (N _)) as (hx & Gx).
  destruct (maximum_exists _ (Forall_finite_y _ Hf) (N _)) as (hy & Gy).
  destruct (maximum_exists _ (Forall_finite_z _ Hf) (N _)) as (hz & Gz).
  exists lx, ly, lz, hx, hy, hz. repeat split; apply Lx || apply Ly || apply Lz
    || apply Gx || apply Gy || apply Gz.
Qed.

Lemma isEmpty_bounds (lx ly lz hx hy hz : R) :
  lx <= hx -> ly <= hy -> lz <= hz ->
  Box3.isEmpty (bounds (lx, ly, lz) (hx, hy, hz)) = false.
Proof.
  intros. unfold Box3.isEmpty, bounds, lt, gt. cbn.
  rewrite !Rltb_false by lra. reflexivity.
Qed.

Lemma getSize_bounds (lx ly lz hx hy hz : R) :
  lx <= hx -> ly <= hy -> lz <= hz ->
  Box3.getSize (bounds (lx, ly, lz) (hx, hy, hz))
  = Vector3.mk (Fin (hx - lx)) (Fin (hy - ly)) (Fin (hz - lz)).
Proof.
  intros. unfold Box3.getSize. rewrite isEmpty_bounds by assumption.
  reflexivity.
Qed.

Lemma getCenter_bounds (lx ly lz hx hy hz : R) :
  lx <= hx -> ly <= hy -> lz <= hz ->
  Box3.getCenter (bounds (lx, ly, lz) (hx, hy, hz))
  = Vector3.mk (Fin ((lx + hx) * 0.5)) (Fin ((ly + hy) * 0.5)) (Fin ((lz + hz) * 0.5)).
Proof.
  intros. unfold Box3.getCenter. rewrite isEmpty_bounds by assumption.
  reflexivity.
Qed.

Lemma Math_max3_Fin (a b c : R) :
  Math_max3 (Fin a) (Fin b) (Fin c) = Fin (Rmax (Rmax a b) c).
Proof. reflexivity. Qed.

Lemma union_makeEmpty_bounds (lo hi : R3.t) :
  Box3.union Box3.makeEmpty (bounds lo hi) = bounds lo hi.
Proof. destruct lo as [[lx ly] lz], hi as [[hx hy] hz]. reflexivity. Qed.

(** Moving every number of a list by [t] moves its extremes by [t]. *)
Lemma least_translate (l : list number) (m t : R) :
  Forall finite l -> least l m ->
  least (map (fun a => (a + Fin t)%js) l) (m + t).
Proof.
  intros Hf [Hin Hlow]. split.
  - apply in_map_iff. exists (Fin m). split; [reflexivity | exact Hin].
  - intros r Hr. apply in_map_iff in Hr. destruct Hr as (a & E & Ha).
    rewrite Forall_forall in Hf. specialize (Hf a Ha).
    destruct a as [ | | | a]; try contradiction.
    apply Fin_inj in E. specialize (Hlow a Ha). lra.
Qed.

Lemma greatest_translate (l : list number) (m t : R) :
  Forall finite l -> greatest l m ->
  greatest (map (fun a => (a + Fin t)%js) l) (m + t).
Proof.
  intros Hf [Hin Hup]. split.
  - apply in_map_iff. exists (Fin m). split; [reflexivity | exact Hin].
  - intros r Hr. apply in_map_iff in Hr. destruct Hr as (a & E & Ha).
    rewrite Forall_forall in Hf. specialize (Hf a Ha).
    destruct a as [ | | | a]; try contradiction.
    apply Fin_inj in E. specialize (Hup a Ha). lra.
Qed.

Lemma finite_translate (pts : list Vector3.t) (tx ty tz : R) :
  Forall Vector3.finite pts ->
  Forall Vector3.finite
    (map (fun p => Vector3.addVectors p (Vector3.mk (Fin tx) (Fin ty) (Fin tz))) pts).
Proof.
  intros Hf. apply Forall_map. eapply Forall_impl; [ | exact Hf].
  intros [[ | | | a] [ | | | b] [ | | | c]] (Hx & Hy & Hz); try contradiction.
  repeat split.
Qed.

(** The box of a translated list of finite points is the translated box. *)
Lemma setFromPoints_translate (pts : list Vector3.t) (lx ly lz hx hy hz tx ty tz : R) :
  Forall Vector3.finite pts ->
  least (map Vector3.x pts) lx -> least (map Vector3.y pts) ly ->
  least (map Vector3.z pts) lz ->
  greatest (map Vector3.x pts) hx -> greatest (map Vector3.y pts) hy ->
  greatest (map Vector3.z pts) hz ->
  Box3.setFromPoints
    (map (fun p => Vector3.addVectors p (Vector3.mk (Fin tx) (Fin ty) (Fin tz))) pts)
  = bounds (lx + tx, ly + ty, lz + tz) (hx + tx, hy + ty, hz + tz).
Proof.
  intros Hf Lx Ly Lz Gx Gy Gz.
  apply setFromPoints_bounds; [now apply finite_translate | .. ];
    rewrite map_map; cbn [Vector3.addVectors Vector3.x Vector3.y Vector3.z];
    rewrite <- (map_map _ (fun a => (a + Fin _)%js)).
  - apply least_translate; [now apply Forall_finite_x | exact Lx].
  - apply least_translate; [now apply Forall_finite_y | exact Ly].
  - apply least_translate; [now apply Forall_finite_z | exact Lz].
  - apply greatest_translate; [now apply Forall_finite_x | exact Gx].
  - apply greatest_translate; [now apply Forall_finite_y | exact Gy].
  - apply greatest_translate; [now apply Forall_finite_z | exact Gz].
Qed.

(** The extremes of an explicit list of finite numbers. *)
Ltac explicit_extreme :=
  split;
  [ cbn; tauto
  | let r := fresh "r" in
    let H := fresh "H" in
    intros r H; cbn in H;
    repeat (destruct H as [H | H]; [apply Fin_inj in H; subst r; nra | ]);
    destruct H ].

(** A box with finite corners, scaled from the origin by a factor that is not
    negative. *)
Lemma applyMatrix4_scale (lx ly lz hx hy hz s : R) :
  lx <= hx -> ly <= hy -> lz <= hz -> 0 <= s ->
  Box3.applyMatrix4 (bounds (lx, ly, lz) (hx, hy, hz))
                    (fun p => Vector3.multiply p (Vector3.setScalar (Fin s)))
  = bounds (lx * s, ly * s, lz * s) (hx * s, hy * s, hz * s).
Proof.
  intros Hx Hy Hz Hs. unfold Box3.applyMatrix4.
  rewrite isEmpty_bounds by assumption.
  apply setFromPoints_bounds.
  - repeat constructor.
  - explicit_extreme.
  - explicit_extreme.
  - explicit_extreme.
  - explicit_extreme.
  - explicit_extreme.
  - explicit_extreme.
Qed.

Lemma Rmax_scale (a b s : R) : 0 <= s -> Rmax (a * s) (b * s) = Rmax a b * s.
Proof.
  intros Hs. unfold Rmax.
  destruct (Rle_dec (a * s) (b * s)), (Rle_dec a b); try reflexivity; nra.
Qed.

(** A list of points with a box of positive size is not empty. *)
Lemma positive_size_nonempty (pts : list Vector3.t) :
  let size := Box3.getSize (Box3.setFromPoints pts) in
  gt (Math_max3 (Vector3.x size) (Vector3.y size) (Vector3.z size)) (Fin 0) = true ->
  pts <> [].
Proof.
  intros size H E. subst pts. unfold size in H.
  change (Box3.getSize (Box3.setFromPoints [])) with Vector3.zero in H. cbn in H.
  unfold Math_max3, Math_max, gt in H. rewrite Rltb_false in H; [discriminate | ].
  unfold Rmax. repeat destruct (Rle_dec _ _); lra.
Qed.

(** The largest of three numbers is above each. *)
Lemma Rmax3_bounds (a b c : R) :
  a <= Rmax (Rmax a b) c /\ b <= Rmax (Rmax a b) c /\ c <= Rmax (Rmax a b) c.
Proof.
  pose proof (Rmax_l (Rmax a b) c). pose proof (Rmax_r (Rmax a b) c).
  pose proof (Rmax_l a b). pose proof (Rmax_r a b). lra.
Qed.

(** From here on the operations on boxes are unfolded on request only. *)
Arguments Box3.setFromPoints : simpl never.
Arguments Box3.getCenter : simpl never.
Arguments Box3.getSize : simpl never.
Arguments Box3.isEmpty : simpl never.
Arguments Box3.applyMatrix4 : simpl never.
Arguments Box3.union : simpl never.
Arguments bounds : simpl never.

(** ** Facts about the orbit controls *)

Lemma Math_sqrt_Fin (x : R) : 0 <= x -> Math_sqrt (Fin x) = Fin (sqrt x).
Proof. intros H. unfold Math_sqrt. rewrite Rltb_false by lra. reflexivity. Qed.

(** A square is [NaN], [Infinity] or a finite number that is not negative. *)
Lemma square_cases (a : number) :
  (a * a)%js = NaN \/ (a * a)%js = PInf \/ exists s, (a * a)%js = Fin s /\ 0 <= s.
Proof.
  destruct a as [ | | | x].
  - now left.
  - right; now left.
  - right; now left.
  - right; right. exists (x * x). split; [reflexivity | nra].
Qed.

(** The length of a vector is [NaN], [Infinity] or a finite number that is
    not negative. *)
Lemma length_cases (v : Vector3.t) :
  Vector3.length v = NaN \/ Vector3.length v = PInf
  \/ exists r, Vector3.length v = Fin r /\ 0 <= r.
Proof.
  unfold Vector3.length.
  destruct (square_cases (Vector3.x v)) as [E1 | [E1 | (s1 & E1 & P1)]];
    destruct (square_cases (Vector3.y v)) as [E2 | [E2 | (s2 & E2 & P2)]];
    destruct (square_cases (Vector3.z v)) as [E3 | [E3 | (s3 & E3 & P3)]];
    rewrite E1, E2, E3;
    try (left; reflexivity); try (right; left; reflexivity).
  right; right. exists (sqrt (s1 + s2 + s3)). split.
  - change (Fin s1 + Fin s2 + Fin s3)%js with (Fin (s1 + s2 + s3)).
    apply Math_sqrt_Fin. lra.
  - apply sqrt_pos.
Qed.

(** With the limits a new [OrbitControls] has, a camera whose distance to
    the target is not [NaN] stays where it is. *)
Lemma orbit_default_length (o : OrbitControls) (c : PerspectiveCamera) :
  minDistance o = Fin 0 -> maxDistance o = PInf ->
  Vector3.length (Vector3.subVectors (position c) (target o)) <> NaN ->
  position (orbit o c) = position c.
Proof.
  intros Hmin Hmax HN. unfold orbit. cbn [position]. rewrite Hmin, Hmax.
  destruct (length_cases (Vector3.subVectors (position c) (target o)))
    as [E | [E | (r & E & P)]]; [contradiction | | ]; rewrite E.
  - reflexivity.
  - unfold Math_min, Math_max, strict_eq.
    rewrite Reqb_true; [reflexivity | ]. apply Rmax_right. exact P.
Qed.

(** Seven tenths of a number, by cases. *)
Lemma mul_07_cases (d : number) :
  (d = NaN /\ (d * Fin 0.7)%js = NaN)
  \/ (d = PInf /\ (d * Fin 0.7)%js = PInf)
  \/ (d = NInf /\ (d * Fin 0.7)%js = NInf)
  \/ exists r, d = Fin r /\ (d * Fin 0.7)%js = Fin (r * 0.7).
Proof.
  destruct d as [ | | | r].
  - left. split; reflexivity.
  - right; left. split; [reflexivity | ]. unfold mul.
    rewrite Reqb_false, Rltb_true by lra. reflexivity.
  - right; right; left. split; [reflexivity | ]. unfold mul.
    rewrite Reqb_false, Rltb_true by lra. reflexivity.
  - right; right; right. exists r. split; reflexivity.
Qed.

(** The camera of the master fit, at [(d, 0.7 d, d)], is where
    [controls.update()] leaves it, when the target is finite and the limits
    are those of a new [OrbitControls]. *)
Lemma orbit_default_diagonal (o : OrbitControls) (c : PerspectiveCamera) (d : number) :
  minDistance o = Fin 0 -> maxDistance o = PInf ->
  Vector3.finite (target o) ->
  position c = Vector3.mk d (d * Fin 0.7)%js d ->
  position (orbit o c) = position c.
Proof.
  intros Hmin Hmax Hfin Hp.
  destruct (target o) as [[ | | | tx] [ | | | ty] [ | | | tz]] eqn:Ht;
    try (exfalso; unfold Vector3.finite in Hfin; cbn in Hfin; tauto).
  destruct (mul_07_cases d) as [[Ed E7] | [[Ed E7] | [[Ed E7] | (r & Ed & E7)]]].
  - unfold orbit. cbn [position]. rewrite Hmin, Hmax, Hp, Ht, E7, Ed. reflexivity.
  - apply orbit_default_length; try assumption.
    rewrite Hp, Ht, E7, Ed. discriminate.
  - apply orbit_default_length; try assumption.
    rewrite Hp, Ht, E7, Ed. discriminate.
  - apply orbit_default_length; try assumption.
    rewrite Hp, Ht, E7, Ed. unfold Vector3.length, Vector3.subVectors.
    cbn [Vector3.x Vector3.y Vector3.z].
    change (Math_sqrt (Fin ((r + - tx) * (r + - tx) + (r * 0.7 + - ty) * (r * 0.7 + - ty)
                            + (r + - tz) * (r + - tz))) <> NaN).
    rewrite Math_sqrt_Fin; [discriminate | ].
    generalize (r + - tx), (r * 0.7 + - ty), (r + - tz). intros u v w. nra.
Qed.

(** A camera on the line through the target along [z], at a distance
    within the limits, is where [controls.update()] leaves it. *)
Lemma orbit_within_axis (o : OrbitControls) (c : PerspectiveCamera)
      (cx cy cz D lo hi : R) :
  minDistance o = Fin lo -> maxDistance o = Fin hi ->
  target o = Vector3.mk (Fin cx) (Fin cy) (Fin cz) ->
  position c = Vector3.mk (Fin cx) (Fin cy) (Fin (cz + D)) ->
  0 <= D -> lo <= D <= hi ->
  position (orbit o c) = position c.
Proof.
  intros Hmin Hmax Ht Hp HD [Hlo Hhi].
  assert (L : Vector3.length (Vector3.subVectors (position c) (target o)) = Fin D).
  { rewrite Hp, Ht.
    change (Math_sqrt (Fin ((cx + - cx) * (cx + - cx) + (cy + - cy) * (cy + - cy)
                            + (cz + D + - cz) * (cz + D + - cz))) = Fin D).
    replace ((cx + - cx) * (cx + - cx) + (cy + - cy) * (cy + - cy)
             + (cz + D + - cz) * (cz + D + - cz)) with (D * D) by ring.
    rewrite Math_sqrt_Fin by nra. rewrite sqrt_square by exact HD. reflexivity. }
  unfold orbit. cbn [position]. rewrite L, Hmin, Hmax.
  unfold Math_min, Math_max, strict_eq.
  rewrite Reqb_true; [reflexivity | ].
  rewrite Rmin_right by exact Hhi. apply Rmax_right. exact Hlo.
Qed.

(** A camera on the axis through the target, nearer than [minDistance], is
    moved out along that axis to [minDistance]. *)
Lemma orbit_below_axis (o : OrbitControls) (c : PerspectiveCamera)
      (cx cy cz D lo hi : R) :
  minDistance o = Fin lo -> maxDistance o = Fin hi ->
  target o = Vector3.mk (Fin cx) (Fin cy) (Fin cz) ->
  position c = Vector3.mk (Fin cx) (Fin cy) (Fin (cz + D)) ->
  0 < D -> D < lo <= hi ->
  position (orbit o c) = Vector3.mk (Fin cx) (Fin cy) (Fin (cz + lo)).
Proof.
  intros Hmin Hmax Ht Hp HD [Hlo Hhi].
  assert (L : Vector3.length (Vector3.subVectors (position c) (target o)) = Fin D).
  { rewrite Hp, Ht.
    change (Math_sqrt (Fin ((cx + - cx) * (cx + - cx) + (cy + - cy) * (cy + - cy)
                            + (cz + D + - cz) * (cz + D + - cz))) = Fin D).
    replace ((cx + - cx) * (cx + - cx) + (cy + - cy) * (cy + - cy)
             + (cz + D + - cz) * (cz + D + - cz)) with (D * D) by ring.
    rewrite Math_sqrt_Fin by nra. rewrite sqrt_square by lra. reflexivity. }
  assert (C : Rmax lo (Rmin hi D) = lo).
  { rewrite Rmin_right by lra. apply Rmax_left. lra. }
  unfold orbit. cbn [position]. rewrite L, Hmin, Hmax.
  unfold Math_min, Math_max, strict_eq. rewrite C.
  rewrite !Reqb_false by lra.
  rewrite div_Fin by lra. rewrite Hp, Ht.
  unfold Vector3.addVectors, Vector3.multiplyScalar, Vector3.subVectors.
  cbn [Vector3.x Vector3.y Vector3.z].
  unfold sub, neg, add, mul.
  f_equal; apply (f_equal Fin); field; lra.
Qed.

Arguments orbit : simpl never.

(** *** The master library's fit *)

(** The four early returns of the first guard. *)
Lemma Master_fit_guard (model : option Master.Object3D) (this : Master.Viewer) :
  falsy model || falsy (Master.camera this) || falsy (Master.controls this)
  || falsy (Master.renderer this) = true ->
  Master._fitCameraToModel model this = Normal tt this.
Proof.
  intros G. unfold Master._fitCameraToModel. run. rewrite G. reflexivity.
Qed.

(** The early return on the aspect ratio. *)
Lemma Master_fit_aspect_guard (model : option Master.Object3D) (this : Master.Viewer) :
  let a := (of_N (clientWidth (Master.canvas this))
            / of_N (clientHeight (Master.canvas this)))%js in
  isNaN a || strict_eq a (Fin 0) = true ->
  Master._fitCameraToModel model this = Normal tt this.
Proof.
  intros a G. unfold Master._fitCameraToModel.
  destruct this as [cv [cam | ] [rnd | ] [ctl | ] cur], model as [m | ];
    try reflexivity.
  unfold Master.this_camera, Master.domElement, Master.this_renderer. run.
  fold a. rewrite G. reflexivity.
Qed.

(** The state the master fit leaves once it is past its guards: the camera
    is placed and aimed, the orbit target set, and the controls updated. *)
Lemma Master_fit_proceeds (model : Master.Object3D) (this : Master.Viewer)
      (cam : PerspectiveCamera) (ctl : OrbitControls) (rnd : WebGLRenderer) :
  Master.camera this = Some cam ->
  Master.controls this = Some ctl ->
  Master.renderer this = Some rnd ->
  let a := (of_N (clientWidth (Master.canvas this))
            / of_N (clientHeight (Master.canvas this)))%js in
  isNaN a || strict_eq a (Fin 0) = false ->
  let box := Master.setFromObject model in
  let size := Box3.getSize box in
  let center := Box3.getCenter box in
  let d := spec_distance
             (Math_max3 (Vector3.x size) (Vector3.y size) (Vector3.z size))
             a (fov cam) in
  Master._fitCameraToModel (Some model) this
  = Normal tt
      (Master.mkViewer (Master.canvas this)
         (Some (orbit (target_set center ctl)
                      (lookAt center (position_set d (d * Fin 0.7)%js d cam))))
         (Some rnd)
         (Some (update (target_set center ctl)))
         (Master.currentModel this)).
Proof.
  intros Hc Ho Hr a G box size center d.
  destruct this as [cv c r o cur]. simpl in *. subst c o r.
  unfold Master._fitCameraToModel, Master.on_camera, Master.on_controls,
    Master.controls_update, Master.this_camera, Master.this_controls,
    Master.domElement, Master.this_renderer. run.
  fold a. rewrite G. cbn.
  unfold Master.set_camera, Master.set_controls. cbn.
  fold box. rewrite (Vector3_eta (Box3.getCenter box)).
  unfold d, spec_distance. rewrite <- fovRad_assoc. reflexivity.
Qed.

(** *** The fit of [configurator.js] *)

Lemma Configurator_fit_guard (this : Configurator.Viewer) :
  Configurator.model this = None ->
  Configurator.fitCameraToModel this = Normal tt this.
Proof.
  intros G. unfold Configurator.fitCameraToModel. run. rewrite G. reflexivity.
Qed.

(** The state the fit of [configurator.js] leaves when the viewer is set up
    and a model is loaded. *)
Lemma Configurator_fit_proceeds (this : Configurator.Viewer) (m : Configurator.Mesh)
      (cam : PerspectiveCamera) (ctl : OrbitControls) :
  Configurator.model this = Some m ->
  Configurator.camera this = Some cam ->
  Configurator.controls this = Some ctl ->
  let box := Configurator.setFromObject m in
  let size := Box3.getSize box in
  let center := Box3.getCenter box in
  let d := Configurator_distance
             (Math_max3 (Vector3.x size) (Vector3.y size) (Vector3.z size))
             (fov cam) in
  Configurator.fitCameraToModel this
  = Normal tt
      (Configurator.mkViewer (Configurator.canvas this)
         (Some (orbit (target_set center ctl)
                      (lookAt center
                              (position_set (Vector3.x center) (Vector3.y center)
                                            (Vector3.z center + d)%js cam))))
         (Configurator.renderer this)
         (Some (update (target_set center ctl)))
         (Some m)).
Proof.
  intros Hm Hc Ho box size center d.
  destruct this as [cv c r o mo]. simpl in *. subst c o mo.
  unfold Configurator.fitCameraToModel, Configurator.on_camera,
    Configurator.on_controls, Configurator.controls_update,
    Configurator.this_camera, Configurator.this_controls,
    Configurator.this_model. run.
  reflexivity.
Qed.

(** Where the viewport is wider than high, or square, the distance of
    [configurator.js] is the distance of the specification. *)
Lemma Configurator_distance_spec (maxDim a f : number) :
  gt a (Fin 1) = true \/ a = Fin 1 ->
  Configurator_distance maxDim f = spec_distance maxDim a f.
Proof.
  intros H. unfold Configurator_distance, spec_distance.
  rewrite <- fovRad_assoc. destruct H as [H | H].
  - rewrite H. reflexivity.
  - subst a. unfold gt. rewrite Rltb_false by lra.
    replace (Fin 2 * Fin 1)%js with (Fin 2) by (unfold mul; f_equal; lra).
    reflexivity.
Qed.

(** *** Cubes *)

Lemma getSize_cube (cx cy cz h : R) :
  0 <= h ->
  Box3.getSize (cube cx cy cz h)
  = Vector3.mk (Fin (2 * h)) (Fin (2 * h)) (Fin (2 * h)).
Proof.
  intros Hh. change (cube cx cy cz h)
    with (bounds (cx - h, cy - h, cz - h) (cx + h, cy + h, cz + h)).
  rewrite getSize_bounds by lra. f_equal; f_equal; lra.
Qed.

Lemma getCenter_cube (cx cy cz h : R) :
  0 <= h ->
  Box3.getCenter (cube cx cy cz h) = Vector3.mk (Fin cx) (Fin cy) (Fin cz).
Proof.
  intros Hh. change (cube cx cy cz h)
    with (bounds (cx - h, cy - h, cz - h) (cx + h, cy + h, cz + h)).
  rewrite getCenter_bounds by lra. f_equal; f_equal; lra.
Qed.

(** Whatever the distance, the master fit moves a camera off the position
    [initThreeJS] gave it: [(d, 0.7 d, d)] is never [(200, 150, 200)]. *)
Lemma Master_fit_position_fresh (d : number) :
  Vector3.mk d (d * Fin 0.7)%js d <> Vector3.mk (Fin 200) (Fin 150) (Fin 200).
Proof.
  intros E. injection E as E1 E2 E3. subst d. apply Fin_inj in E2. lra.
Qed.

(** The guard of [handleResize]. *)
Lemma Master_handleResize_guard (this : Master.Viewer) :
  clientWidth (Master.canvas this) = 0%N \/ clientHeight (Master.canvas this) = 0%N ->
  Master.handleResize this = Normal tt this.
Proof.
  intros H. unfold Master.handleResize. run.
  destruct H as [H | H]; rewrite H; [ | rewrite orb_true_r]; reflexivity.
Qed.

(** [fitCameraToModel] of [configurator.js] does not read the canvas. *)
Lemma Configurator_fit_ignores_canvas (canvas : Canvas) (this : Configurator.Viewer) :
  final (Configurator.fitCameraToModel (Configurator_resized canvas this))
  = Configurator_resized canvas (final (Configurator.fitCameraToModel this)).
Proof.
  unfold Configurator.fitCameraToModel, Configurator.on_camera,
    Configurator.on_controls, Configurator.this_camera,
    Configurator.this_controls, Configurator.this_model.
  destruct this as [cv [cam | ] r [ctl | ] [m | ]]; reflexivity.
Qed.

(** The guard on the aspect ratio fires exactly when the width is zero. *)
Lemma aspect_guard_passes (w h : N) :
  w <> 0%N ->
  let a := (of_N w / of_N h)%js in isNaN a || strict_eq a (Fin 0) = false.
Proof.
  intros Hw a. unfold a. destruct (N.eq_dec h 0) as [Hh | Hh].
  - subst h. rewrite aspect_height_zero by exact Hw. reflexivity.
  - destruct (aspect_nonzero w h Hw Hh) as [E P]. rewrite E.
    unfold isNaN, strict_eq. rewrite Reqb_false by lra. reflexivity.
Qed.

(** The master fit returns normally, whatever it is given. *)
Lemma Master_fit_total (model : option Master.Object3D) (this : Master.Viewer) :
  exists this', Master._fitCameraToModel model this = Normal tt this'.
Proof.
  destruct (falsy model || falsy (Master.camera this) || falsy (Master.controls this)
            || falsy (Master.renderer this)) eqn:G.
  - exists this. now apply Master_fit_guard.
  - destruct model as [m | ]; [ | discriminate].
    destruct (Master.camera this) as [cam | ] eqn:Hc; [ | discriminate].
    destruct (Master.controls this) as [ctl | ] eqn:Ho; [ | discriminate].
    destruct (Master.renderer this) as [rnd | ] eqn:Hr; [ | discriminate].
    destruct (isNaN (of_N (clientWidth (Master.canvas this))
                     / of_N (clientHeight (Master.canvas this)))%js
              || strict_eq (of_N (clientWidth (Master.canvas this))
                            / of_N (clientHeight (Master.canvas this)))%js (Fin 0))
      eqn:A.
    + exists this. now apply Master_fit_aspect_guard.
    + eexists. now apply (Master_fit_proceeds m this cam ctl rnd).
Qed.

(** The world box of a mesh made of finite vertices. *)
Lemma setFromObject_mesh (pts : list Vector3.t) (lx ly lz hx hy hz s : R) :
  Forall Vector3.finite pts ->
  least (map Vector3.x pts) lx -> least (map Vector3.y pts) ly ->
  least (map Vector3.z pts) lz ->
  greatest (map Vector3.x pts) hx -> greatest (map Vector3.y pts) hy ->
  greatest (map Vector3.z pts) hz ->
  0 <= s ->
  Configurator.setFromObject (Configurator_mesh pts (Fin s))
  = bounds (lx * s, ly * s, lz * s) (hx * s, hy * s, hz * s).
Proof.
  intros Hf Lx Ly Lz Gx Gy Gz Hs.
  pose proof (least_le_greatest _ _ _ Lx Gx) as Hx.
  pose proof (least_le_greatest _ _ _ Ly Gy) as Hy.
  pose proof (least_le_greatest _ _ _ Lz Gz) as Hz.
  unfold Configurator.setFromObject, Configurator_mesh,
    Configurator.computeBoundingBox, Configurator.matrixWorld. cbn.
  rewrite (setFromPoints_bounds pts lx ly lz hx hy hz) by assumption.
  rewrite applyMatrix4_scale by assumption.
  apply union_makeEmpty_bounds.
Qed.

(** *** Angles *)

Lemma half_fov_range (f : R) :
  0 < f < 180 -> 0 < f * (PI / 180) / 2 < PI / 2.
Proof. intros [H0 H1]. pose proof PI_RGT_0. split; nra. Qed.

Lemma half_fov_cos (f : R) : 0 < f < 180 -> cos (f * (PI / 180) / 2) <> 0.
Proof.
  intros H. destruct (half_fov_range f H) as [H0 H1].
  apply Rgt_not_eq, cos_gt_0; lra.
Qed.

Lemma half_fov_tan (f : R) : 0 < f < 180 -> 0 < tan (f * (PI / 180) / 2).
Proof.
  intros H. destruct (half_fov_range f H) as [H0 H1]. now apply tan_gt_0.
Qed.

(** [Math.tan] of half a field of view between 0 and 180 degrees. *)
Lemma Math_tan_half_fov (f : R) :
  0 < f < 180 ->
  Math_tan (Fin f * (Math_PI / Fin 180) / Fin 2)%js = Fin (tan (f * (PI / 180) / 2)).
Proof.
  intros H. rewrite PI_180.
  change (Fin f * Fin (PI / 180))%js with (Fin (f * (PI / 180))).
  rewrite div_Fin by lra. apply Math_tan_Fin. now apply half_fov_cos.
Qed.

(** The distance of [configurator.js] for a finite largest dimension and a
    field of view between 0 and 180 degrees. *)
Lemma Configurator_distance_Fin (maxDim f : R) :
  0 <= maxDim -> 0 < f < 180 ->
  Configurator_distance (Fin maxDim) (Fin f)
  = Fin (maxDim / 2 / tan (f * (PI / 180) / 2) * 1.5).
Proof.
  intros HM Hf. pose proof (half_fov_tan f Hf) as HT.
  unfold Configurator_distance. rewrite Math_tan_half_fov by exact Hf.
  rewrite div_Fin by lra. rewrite div_Fin by lra.
  unfold Math_abs, mul. f_equal. f_equal. apply Rabs_right.
  apply Rle_ge. apply Rmult_le_pos; [lra | ]. apply Rlt_le, Rinv_0_lt_compat, HT.
Qed.

(** The distance of the specification, likewise, for a finite aspect. *)
Lemma spec_distance_Fin (maxDim a f : R) :
  0 <= maxDim -> 0 < a -> 0 < f < 180 ->
  spec_distance (Fin maxDim) (Fin a) (Fin f)
  = Fin (maxDim / (if Rlt_dec 1 a then 2 else 2 * a)
         / tan (f * (PI / 180) / 2) * 1.5).
Proof.
  intros HM Ha Hf. pose proof (half_fov_tan f Hf) as HT.
  unfold spec_distance. rewrite <- fovRad_assoc.
  rewrite Math_tan_half_fov by exact Hf.
  unfold gt, Rltb.
  assert (P : forall q, 0 < q -> (Math_abs (Fin maxDim / Fin q / Fin (tan (f * (PI / 180) / 2)))
                                  * Fin 1.5)%js
                                 = Fin (maxDim / q / tan (f * (PI / 180) / 2) * 1.5)).
  { intros q Hq. rewrite div_Fin by lra. rewrite div_Fin by lra.
    unfold Math_abs, mul. f_equal. f_equal. apply Rabs_right.
    apply Rle_ge. apply Rmult_le_pos.
    - apply Rmult_le_pos; [lra | ]. apply Rlt_le, Rinv_0_lt_compat, Hq.
    - apply Rlt_le, Rinv_0_lt_compat, HT. }
  destruct (Rlt_dec 1 a).
  - apply P. lra.
  - change (Fin 2 * Fin a)%js with (Fin (2 * a)). apply P. lra.
Qed.

(** Where the master fit aims the camera and puts the orbit target. *)
Lemma Master_fit_aim (model : Master.Object3D) (this : Master.Viewer)
      (cam : PerspectiveCamera) (ctl : OrbitControls) (rnd : WebGLRenderer) :
  Master.camera this = Some cam ->
  Master.controls this = Some ctl ->
  Master.renderer this = Some rnd ->
  clientWidth (Master.canvas this) <> 0%N ->
  let this' := final (Master._fitCameraToModel (Some model) this) in
  let center := Box3.getCenter (Master.setFromObject model) in
  option_map lookingAt (Master.camera this') = Some center
  /\ option_map target (Master.controls this') = Some center.
Proof.
  intros Hc Ho Hr Hw this' center. unfold this'.
  rewrite (Master_fit_proceeds model this cam ctl rnd Hc Ho Hr)
    by (apply aspect_guard_passes; exact Hw).
  split; reflexivity.
Qed.

(** Where the master fit leaves the camera, when the orbit controls have
    the limits of a new [OrbitControls] and the centre of the box is
    finite. *)
Lemma Master_fit_position (model : Master.Object3D) (this : Master.Viewer)
      (cam : PerspectiveCamera) (ctl : OrbitControls) (rnd : WebGLRenderer) :
  Master.camera this = Some cam ->
  Master.controls this = Some ctl ->
  Master.renderer this = Some rnd ->
  clientWidth (Master.canvas this) <> 0%N ->
  minDistance ctl = Fin 0 ->
  maxDistance ctl = PInf ->
  Vector3.finite (Box3.getCenter (Master.setFromObject model)) ->
  let a := (of_N (clientWidth (Master.canvas this))
            / of_N (clientHeight (Master.canvas this)))%js in
  let size := Box3.getSize (Master.setFromObject model) in
  let d := spec_distance
             (Math_max3 (Vector3.x size) (Vector3.y size) (Vector3.z size))
             a (fov cam) in
  option_map position (Master.camera (final (Master._fitCameraToModel (Some model) this)))
  = Some (Vector3.mk d (d * Fin 0.7)%js d).
Proof.
  intros Hc Ho Hr Hw Hmin Hmax Hfin a size d.
  rewrite (Master_fit_proceeds model this cam ctl rnd Hc Ho Hr)
    by (apply aspect_guard_passes; exact Hw).
  cbn [final Master.camera option_map]. f_equal.
  rewrite (orbit_default_diagonal _ _ d); try assumption; reflexivity.
Qed.

(** The whole pose. *)
Lemma Master_fit_pose (model : Master.Object3D) (this : Master.Viewer)
      (cam : PerspectiveCamera) (ctl : OrbitControls) (rnd : WebGLRenderer) :
  Master.camera this = Some cam ->
  Master.controls this = Some ctl ->
  Master.renderer this = Some rnd ->
  clientWidth (Master.canvas this) <> 0%N ->
  minDistance ctl = Fin 0 ->
  maxDistance ctl = PInf ->
  Vector3.finite (Box3.getCenter (Master.setFromObject model)) ->
  let a := (of_N (clientWidth (Master.canvas this))
            / of_N (clientHeight (Master.canvas this)))%js in
  let box := Master.setFromObject model in
  let size := Box3.getSize box in
  let d := spec_distance
             (Math_max3 (Vector3.x size) (Vector3.y size) (Vector3.z size))
             a (fov cam) in
  Master.pose (final (Master._fitCameraToModel (Some model) this))
  = (Some (Vector3.mk d (d * Fin 0.7)%js d),
     Some (Box3.getCenter box), Some (Box3.getCenter box)).
Proof.
  intros Hc Ho Hr Hw Hmin Hmax Hfin a box size d.
  unfold Master.pose, pose_of.
  rewrite (Master_fit_position model this cam ctl rnd Hc Ho Hr Hw Hmin Hmax Hfin).
  destruct (Master_fit_aim model this cam ctl rnd Hc Ho Hr Hw) as [A1 A2].
  rewrite A1, A2. reflexivity.
Qed.

(** Where the fit of [configurator.js] aims the camera and puts the orbit
    target. *)
Lemma Configurator_fit_aim (this : Configurator.Viewer) (m : Configurator.Mesh)
      (cam : PerspectiveCamera) (ctl : OrbitControls) :
  Configurator.model this = Some m ->
  Configurator.camera this = Some cam ->
  Configurator.controls this = Some ctl ->
  let this' := final (Configurator.fitCameraToModel this) in
  let center := Box3.getCenter (Configurator.setFromObject m) in
  option_map lookingAt (Configurator.camera this') = Some center
  /\ option_map target (Configurator.controls this') = Some center.
Proof.
  intros Hm Hc Ho this' center. unfold this'.
  rewrite (Configurator_fit_proceeds this m cam ctl Hm Hc Ho).
  split; reflexivity.
Qed.

(** Where the fit of [configurator.js] leaves the camera, when the box is
    finite, the field of view is between 0 and 180 degrees, and the distance
    it computes is within the limits of the orbit controls. *)
Lemma Configurator_fit_position (this : Configurator.Viewer) (m : Configurator.Mesh)
      (cam : PerspectiveCamera) (ctl : OrbitControls)
      (lx ly lz hx hy hz f lo hi : R) :
  Configurator.model this = Some m ->
  Configurator.camera this = Some cam ->
  Configurator.controls this = Some ctl ->
  Configurator.setFromObject m = bounds (lx, ly, lz) (hx, hy, hz) ->
  lx <= hx -> ly <= hy -> lz <= hz ->
  fov cam = Fin f ->
  0 < f < 180 ->
  minDistance ctl = Fin lo ->
  maxDistance ctl = Fin hi ->
  let D := Rmax (Rmax (hx - lx) (hy - ly)) (hz - lz) / 2
           / tan (f * (PI / 180) / 2) * 1.5 in
  lo <= D <= hi ->
  option_map position (Configurator.camera (final (Configurator.fitCameraToModel this)))
  = Some (Vector3.mk (Fin ((lx + hx) * 0.5)) (Fin ((ly + hy) * 0.5))
                     (Fin ((lz + hz) * 0.5 + D))).
Proof.
  intros Hm Hc Ho HB Hx Hy Hz Hf Hrange Hmin Hmax D HD.
  rewrite (Configurator_fit_proceeds this m cam ctl Hm Hc Ho).
  cbn [final Configurator.camera option_map]. f_equal.
  rewrite HB, getSize_bounds, getCenter_bounds by assumption.
  cbn [Vector3.x Vector3.y Vector3.z]. rewrite Math_max3_Fin, Hf.
  destruct (Rmax3_bounds (hx - lx) (hy - ly) (hz - lz)) as (Mx & My & Mz).
  rewrite Configurator_distance_Fin by lra. fold D.
  pose proof (half_fov_tan f Hrange) as T0.
  assert (HD0 : 0 <= D).
  { unfold D. apply Rmult_le_pos; [ | lra].
    apply Rmult_le_pos; [lra | ]. apply Rlt_le, Rinv_0_lt_compat, T0. }
  rewrite (orbit_within_axis _ _ ((lx + hx) * 0.5) ((ly + hy) * 0.5) ((lz + hz) * 0.5)
                             D lo hi);
    try assumption; reflexivity.
Qed.

(** The tangent of 22.5 degrees, to four places. *)
Lemma tan_PI8_bounds : 0.4142 < tan (PI / 8) < 0.4143.
Proof.
  pose proof PI_RGT_0 as P.
  assert (C8 : cos (PI / 8) <> 0) by (apply Rgt_not_eq, cos_gt_0; lra).
  assert (C4 : cos (2 * (PI / 8)) <> 0) by (apply Rgt_not_eq, cos_gt_0; lra).
  assert (T0 : 0 < tan (PI / 8)) by (apply tan_gt_0; lra).
  assert (T1 : tan (PI / 8) < 1).
  { rewrite <- tan_PI4. apply tan_increasing; lra. }
  assert (N : 1 - tan (PI / 8) * tan (PI / 8) <> 0) by nra.
  pose proof (tan_2a (PI / 8) C8 C4 N) as D.
  replace (2 * (PI / 8)) with (PI / 4) in D by field.
  rewrite tan_PI4 in D.
  set (t := tan (PI / 8)) in *.
  assert (Q : 1 - t * t = 2 * t).
  { apply (f_equal (fun v => v * (1 - t * t))) in D.
    field_simplify in D; [lra | exact N]. }
  split; nra.
Qed.

(** The distance of the scenario: a largest side of 10 seen under 45
    degrees. *)
Lemma scenario_distance :
  Rabs (10 / 2 / tan (22.5 * PI / 180) * 1.5 - 18.1) < 0.01.
Proof.
  replace (22.5 * PI / 180) with (PI / 8) by lra.
  destruct tan_PI8_bounds as [L U].
  set (t := tan (PI / 8)) in *.
  assert (E : 10 / 2 / t * 1.5 = 7.5 / t) by lra.
  rewrite E.
  assert (L' : 18.1 < 7.5 / t).
  { apply (Rmult_lt_reg_r t); [lra | ]. unfold Rdiv. rewrite Rmult_assoc, Rinv_l by lra. lra. }
  assert (U' : 7.5 / t < 18.11).
  { apply (Rmult_lt_reg_r t); [lra | ]. unfold Rdiv. rewrite Rmult_assoc, Rinv_l by lra. lra. }
  apply Rabs_def1; lra.
Qed.

(** The centre of a cube is finite. *)
Lemma cube_center_finite (cx cy cz h : R) :
  0 <= h -> Vector3.finite (Box3.getCenter (cube cx cy cz h)).
Proof. intros Hh. rewrite getCenter_cube by exact Hh. repeat split. Qed.

(** The tangent of 25 degrees, half the field of view of the camera
    [setupViewer] creates. *)
Lemma tan_25_bounds : 0.4142 < tan (50 * (PI / 180) / 2) < 1.
Proof.
  pose proof PI_RGT_0 as P. destruct tan_PI8_bounds as [L _]. split.
  - eapply Rlt_trans; [exact L | ]. apply tan_increasing; lra.
  - rewrite <- tan_PI4. apply tan_increasing; lra.
Qed.

(** The world box of the cube of side 100, and the distance the fit of
    [configurator.js] computes for it under 50 degrees: within the limits
    [setupViewer] gives the orbit controls. *)
Lemma cube100_box :
  Configurator.setFromObject cube100
  = bounds (-50 * 1, -50 * 1, -50 * 1) (50 * 1, 50 * 1, 50 * 1).
Proof.
  unfold cube100. apply setFromObject_mesh;
    [repeat constructor | explicit_extreme .. | lra].
Qed.

Lemma cube100_maxDim :
  Rmax (Rmax (50 * 1 - -50 * 1) (50 * 1 - -50 * 1)) (50 * 1 - -50 * 1) = 100.
Proof. unfold Rmax. repeat destruct (Rle_dec _ _); lra. Qed.

Lemma cube100_distance :
  50 <= 100 / 2 / tan (50 * (PI / 180) / 2) * 1.5 <= 500.
Proof.
  destruct tan_25_bounds as [L U].
  set (T := tan (50 * (PI / 180) / 2)) in *.
  assert (E : 100 / 2 / T * 1.5 = 75 / T) by lra. rewrite E.
  split.
  - apply (Rmult_le_reg_r T); [lra | ].
    unfold Rdiv. rewrite Rmult_assoc, Rinv_l by lra. lra.
  - apply (Rmult_le_reg_r T); [lra | ].
    unfold Rdiv. rewrite Rmult_assoc, Rinv_l by lra. lra.
Qed.

(** The fit of [configurator.js] on the cube of side 100, with the camera
    and the orbit limits of [setupViewer]: the camera ends on the [z] axis at
    the computed distance. *)
Lemma cube100_fit_position (this : Configurator.Viewer)
      (cam : PerspectiveCamera) (ctl : OrbitControls) :
  Configurator.model this = Some cube100 ->
  Configurator.camera this = Some cam ->
  Configurator.controls this = Some ctl ->
  fov cam = Fin 50 ->
  minDistance ctl = Fin 50 ->
  maxDistance ctl = Fin 500 ->
  option_map position (Configurator.camera (final (Configurator.fitCameraToModel this)))
  = Some (Vector3.mk (Fin 0) (Fin 0)
                     (Fin (100 / 2 / tan (50 * (PI / 180) / 2) * 1.5))).
Proof.
  intros Hm Hc Ho Hf Hmin Hmax.
  pose proof (Configurator_fit_position this cube100 cam ctl
                (-50 * 1) (-50 * 1) (-50 * 1) (50 * 1) (50 * 1) (50 * 1) 50 50 500
                Hm Hc Ho cube100_box ltac:(lra) ltac:(lra) ltac:(lra) Hf ltac:(lra)
                Hmin Hmax) as P.
  cbv zeta in P. rewrite cube100_maxDim in P.
  rewrite (P cube100_distance).
  repeat first [ apply (f_equal Fin); lra | progress f_equal ].
Qed.

(** Where the distance the fit of [configurator.js] computes is below
    [minDistance], [controls.update()] moves the camera out along [z] to
    [minDistance]. *)
Lemma Configurator_fit_position_min (this : Configurator.Viewer) (m : Configurator.Mesh)
      (cam : PerspectiveCamera) (ctl : OrbitControls)
      (lx ly lz hx hy hz f lo hi : R) :
  Configurator.model this = Some m ->
  Configurator.camera this = Some cam ->
  Configurator.controls this = Some ctl ->
  Configurator.setFromObject m = bounds (lx, ly, lz) (hx, hy, hz) ->
  lx <= hx -> ly <= hy -> lz <= hz ->
  lx < hx \/ ly < hy \/ lz < hz ->
  fov cam = Fin f ->
  0 < f < 180 ->
  minDistance ctl = Fin lo ->
  maxDistance ctl = Fin hi ->
  Rmax (Rmax (hx - lx) (hy - ly)) (hz - lz) / 2 / tan (f * (PI / 180) / 2) * 1.5 < lo ->
  lo <= hi ->
  option_map position (Configurator.camera (final (Configurator.fitCameraToModel this)))
  = Some (Vector3.mk (Fin ((lx + hx) * 0.5)) (Fin ((ly + hy) * 0.5))
                     (Fin ((lz + hz) * 0.5 + lo))).
Proof.
  intros Hm Hc Ho HB Hx Hy Hz Hnd Hf Hrange Hmin Hmax HD Hlh.
  rewrite (Configurator_fit_proceeds this m cam ctl Hm Hc Ho).
  cbn [final Configurator.camera option_map]. f_equal.
  rewrite HB, getSize_bounds, getCenter_bounds by assumption.
  cbn [Vector3.x Vector3.y Vector3.z]. rewrite Math_max3_Fin, Hf.
  destruct (Rmax3_bounds (hx - lx) (hy - ly) (hz - lz)) as (Mx & My & Mz).
  rewrite Configurator_distance_Fin by lra.
  pose proof (half_fov_tan f Hrange) as T0.
  set (D := Rmax (Rmax (hx - lx) (hy - ly)) (hz - lz) / 2
            / tan (f * (PI / 180) / 2) * 1.5) in *.
  assert (HD0 : 0 < D).
  { unfold D. apply Rmult_lt_0_compat; [ | lra].
    apply Rmult_lt_0_compat; [lra | ]. apply Rinv_0_lt_compat, T0. }
  apply (orbit_below_axis _ _ ((lx + hx) * 0.5) ((ly + hy) * 0.5) ((lz + hz) * 0.5)
                          D lo hi);
    try assumption; try reflexivity. split; assumption.
Qed.

(** *** The STL loading path of [configurator.js] *)

(** The state that centring and scaling leaves, for a geometry of finite
    vertices whose box is not a single point. *)
Lemma centerAndScale_runs (geometry : Configurator.BufferGeometry)
      (this : Configurator.Viewer) (lx ly lz hx hy hz : R) :
  let pts := Configurator.attributes_position geometry in
  Forall Vector3.finite pts ->
  least (map Vector3.x pts) lx -> least (map Vector3.y pts) ly ->
  least (map Vector3.z pts) lz ->
  greatest (map Vector3.x pts) hx -> greatest (map Vector3.y pts) hy ->
  greatest (map Vector3.z pts) hz ->
  let cx := (lx + hx) * 0.5 in
  let cy := (ly + hy) * 0.5 in
  let cz := (lz + hz) * 0.5 in
  let maxDim := Rmax (Rmax (hx - lx) (hy - ly)) (hz - lz) in
  maxDim <> 0 ->
  Configurator.centerAndScale geometry this
  = Normal tt
      (Configurator.set_model
         (Configurator.mkMesh
            (Configurator.mkGeometry
               (map (fun p => Vector3.addVectors
                                p (Vector3.mk (Fin (- cx)) (Fin (- cy)) (Fin (- cz))))
                    pts)
               (Some (bounds (lx + - cx, ly + - cy, lz + - cz)
                             (hx + - cx, hy + - cy, hz + - cz))))
            (Vector3.setScalar (Fin (100 / maxDim))))
         this).
Proof.
  intros pts Hf Lx Ly Lz Gx Gy Gz cx cy cz maxDim HM.
  pose proof (least_le_greatest _ _ _ Lx Gx) as Hx.
  pose proof (least_le_greatest _ _ _ Ly Gy) as Hy.
  pose proof (least_le_greatest _ _ _ Lz Gz) as Hz.
  pose proof (setFromPoints_bounds pts lx ly lz hx hy hz Hf Lx Ly Lz Gx Gy Gz) as E0.
  pose proof (setFromPoints_translate pts lx ly lz hx hy hz (- cx) (- cy) (- cz)
                Hf Lx Ly Lz Gx Gy Gz) as E1.
  unfold Configurator.centerAndScale, Configurator.on_geometry,
    Configurator.on_model, Configurator.geometry_boundingBox,
    Configurator.this_model. run.
  unfold Configurator.set_model, Configurator.scale_setScalar,
    Configurator.set_geometry, Configurator.translate,
    Configurator.computeBoundingBox. cbn.
  fold pts. rewrite E0. rewrite getCenter_bounds by assumption. cbn.
  fold cx cy cz.
  change (- Fin cx)%js with (Fin (- cx)).
  change (- Fin cy)%js with (Fin (- cy)).
  change (- Fin cz)%js with (Fin (- cz)).
  rewrite E1. rewrite getSize_bounds by lra. cbn.
  rewrite Math_max3_Fin.
  replace (Rmax (Rmax (hx + - cx - (lx + - cx)) (hy + - cy - (ly + - cy)))
                (hz + - cz - (lz + - cz)))
    with maxDim
    by (unfold maxDim; f_equal; [f_equal | ]; ring).
  rewrite div_Fin by exact HM.
  reflexivity.
Qed.

(** The world box of a scaled mesh whose geometry has a finite box. *)
Lemma setFromObject_scaled (pts : list Vector3.t) (lx ly lz hx hy hz s : R) :
  lx <= hx -> ly <= hy -> lz <= hz -> 0 <= s ->
  Configurator.setFromObject
    (Configurator.mkMesh
       (Configurator.mkGeometry pts (Some (bounds (lx, ly, lz) (hx, hy, hz))))
       (Vector3.setScalar (Fin s)))
  = bounds (lx * s, ly * s, lz * s) (hx * s, hy * s, hz * s).
Proof.
  intros Hx Hy Hz Hs. unfold Configurator.setFromObject. cbn.
  unfold Configurator.matrixWorld. cbn.
  rewrite applyMatrix4_scale by assumption.
  apply union_makeEmpty_bounds.
Qed.

(** [fitCameraToModel] leaves the model as it is. *)
Lemma Configurator_fit_keeps_model (this : Configurator.Viewer) :
  Configurator.model (final (Configurator.fitCameraToModel this))
  = Configurator.model this.
Proof.
  unfold Configurator.fitCameraToModel, Configurator.on_camera,
    Configurator.on_controls, Configurator.this_camera,
    Configurator.this_controls, Configurator.this_model.
  destruct this as [cv [cam | ] r [ctl | ] [m | ]]; reflexivity.
Qed.

(** *** The view frustum after a fit *)

(** A camera on the line through the target along [z], at distance [D] from
    it: the frustum in coordinates. *)
Lemma frustum_axis (cx cy cz D T a px py pz : R) :
  0 < D ->
  frustum (cx, cy, cz + D) (cx, cy, cz) T a (px, py, pz)
  <-> (pz < cz + D
       /\ Rabs (py - cy) <= T * (cz + D - pz)
       /\ Rabs (px - cx) <= a * T * (cz + D - pz)).
Proof.
  intros HD. unfold frustum.
  set (zb := R3.sub (cx, cy, cz + D) (cx, cy, cz)).
  set (xb := R3.cross R3.up zb).
  set (yb := R3.cross zb xb).
  set (w := R3.sub (px, py, pz) (cx, cy, cz + D)).
  assert (Nz : R3.norm zb = D).
  { unfold R3.norm. replace (R3.dot zb zb) with (D * D) by (cbn; ring).
    apply sqrt_square. lra. }
  assert (Nx : R3.norm xb = D).
  { unfold R3.norm. replace (R3.dot xb xb) with (D * D) by (cbn; ring).
    apply sqrt_square. lra. }
  assert (Ny : R3.norm yb = D * D).
  { unfold R3.norm. replace (R3.dot yb yb) with ((D * D) * (D * D)) by (cbn; ring).
    apply sqrt_square. nra. }
  assert (Dz : - R3.dot w zb = (cz + D - pz) * D) by (cbn; ring).
  assert (Dy : R3.dot w yb = (py - cy) * (D * D)) by (cbn; ring).
  assert (Dx : R3.dot w xb = (px - cx) * D) by (cbn; ring).
  rewrite Nz, Nx, Ny, Dz, Dy, Dx.
  rewrite !Rabs_mult, !(Rabs_right D) by lra.
  assert (D3 : 0 < D * D * D) by (apply Rmult_lt_0_compat; nra).
  assert (D2 : 0 < D * D) by nra.
  split.
  - intros (_ & H1 & H2 & H3). repeat split.
    + nra.
    + apply (Rmult_le_reg_r (D * D * D)); [exact D3 | ]. lra.
    + apply (Rmult_le_reg_r (D * D)); [exact D2 | ]. lra.
  - intros (H1 & H2 & H3). repeat split.
    + exact HD.
    + nra.
    + apply (Rmult_le_compat_r (D * D * D)) in H2; lra.
    + apply (Rmult_le_compat_r (D * D)) in H3; lra.
Qed.

(** The same for a camera of the viewer. *)
Lemma in_frustum_axis (c : PerspectiveCamera) (f a cx cy cz D px py pz : R) :
  projection c = (Fin f, Fin a) ->
  position c = Vector3.mk (Fin cx) (Fin cy) (Fin (cz + D)) ->
  lookingAt c = Vector3.mk (Fin cx) (Fin cy) (Fin cz) ->
  0 < D ->
  in_frustum c (Vector3.mk (Fin px) (Fin py) (Fin pz))
  <-> (pz < cz + D
       /\ Rabs (py - cy) <= tan (f * (PI / 180) / 2) * (cz + D - pz)
       /\ Rabs (px - cx) <= a * tan (f * (PI / 180) / 2) * (cz + D - pz)).
Proof.
  intros Hp He Ht HD. unfold in_frustum. rewrite Hp, He, Ht. cbn.
  now apply frustum_axis.
Qed.


(** At three quarters of [M / T] from the centre, a point within [M / 2] of
    it in depth is seen with a half-height of [M / 2] at least, if the
    tangent [T] is one half at most. *)
Lemma depth_bound (T D M dz : R) :
  0 < T -> T <= 1 / 2 -> D * T = 3 / 4 * M -> - (M / 2) <= dz -> dz <= M / 2 ->
  M / 2 <= T * (D - dz).
Proof. intros. nra. Qed.

(** The fit of [configurator.js] frames the box if the field of view is
    narrow enough, the viewport is not higher than wide, and the distance is
    within the limits of the orbit controls. *)
Lemma Configurator_fit_in_view
      (this : Configurator.Viewer) (m : Configurator.Mesh)
      (cam : PerspectiveCamera) (ctl : OrbitControls)
      (lx ly lz hx hy hz f a lo hi : R) :
  Configurator.model this = Some m ->
  Configurator.camera this = Some cam ->
  Configurator.controls this = Some ctl ->
  Configurator.setFromObject m = bounds (lx, ly, lz) (hx, hy, hz) ->
  lx <= hx -> ly <= hy -> lz <= hz ->
  lx < hx \/ ly < hy \/ lz < hz ->
  fov cam = Fin f ->
  projection cam = (Fin f, Fin a) ->
  0 < f < 180 ->
  tan (f * (PI / 180) / 2) <= 1 / 2 ->
  1 <= a ->
  minDistance ctl = Fin lo ->
  maxDistance ctl = Fin hi ->
  lo <= Rmax (Rmax (hx - lx) (hy - ly)) (hz - lz) / 2
        / tan (f * (PI / 180) / 2) * 1.5 <= hi ->
  box_in_view (Configurator.camera (final (Configurator.fitCameraToModel this)))
              (Configurator.setFromObject m).
Proof.
  intros Hm Hc Ho HB Hx Hy Hz Hnd Hf Hp Hrange HT Ha Hmin Hmax Hlim.
  pose proof (Configurator_fit_position this m cam ctl lx ly lz hx hy hz f lo hi
                Hm Hc Ho HB Hx Hy Hz Hf Hrange Hmin Hmax Hlim) as Pos.
  destruct (Configurator_fit_aim this m cam ctl Hm Hc Ho) as [Aim _].
  assert (Proj : option_map projection
                   (Configurator.camera (final (Configurator.fitCameraToModel this)))
                 = Some (Fin f, Fin a)).
  { rewrite (Configurator_fit_proceeds this m cam ctl Hm Hc Ho).
    cbn [final Configurator.camera option_map]. f_equal. exact Hp. }
  destruct (Configurator.camera (final (Configurator.fitCameraToModel this)))
    as [c' | ]; [ | discriminate].
  cbn [option_map] in Pos, Aim, Proj.
  injection Pos as Pos. injection Aim as Aim. injection Proj as Proj.
  rewrite HB in Aim |- *. rewrite getCenter_bounds in Aim by assumption.
  set (M := Rmax (Rmax (hx - lx) (hy - ly)) (hz - lz)) in *.
  destruct (Rmax3_bounds (hx - lx) (hy - ly) (hz - lz)) as (Mx & My & Mz).
  fold M in Mx, My, Mz.
  assert (HM : 0 < M) by lra.
  pose proof (half_fov_tan f Hrange) as T0.
  set (T := tan (f * (PI / 180) / 2)) in *.
  set (D := M / 2 / T * 1.5) in *.
  assert (DT : D * T = 3 / 4 * M)
    by (unfold D; replace 1.5 with (3 / 2) by lra; field; lra).
  assert (HD : 0 < D) by nra.
  assert (HD' : 1.5 * M <= D) by nra.
  unfold box_in_view, bounds, Box3.corners.
  cbn [Box3.min Box3.max Vector3.x Vector3.y Vector3.z].
  repeat apply Forall_cons; [ .. | apply Forall_nil ].
  all: eapply in_frustum_axis; [exact Proj | exact Pos | exact Aim | exact HD | ].
  all: fold T.
  all: match goal with
       | DT' : ?d * ?t = 3 / 4 * ?m |- ?pz < ?cz + ?d /\ _ =>
           assert (E : m / 2 <= t * (cz + d - pz))
             by (replace (cz + d - pz) with (d - (pz - cz)) by ring;
                 apply (depth_bound t d m); [lra | lra | exact DT' | lra | lra]);
           assert (E' : t * (cz + d - pz) <= a * t * (cz + d - pz)) by nra
       end.
  all: split; [lra | split; apply Rabs_le; split; lra].
Qed.

(** A product is bounded by the product of the bounds. *)
Lemma prod_bound (x c h C : R) :
  Rabs x <= h -> Rabs c <= C -> x * c <= h * C.
Proof.
  intros Hx Hc.
  apply Rle_trans with (Rabs (x * c)); [apply Rle_abs | ].
  rewrite Rabs_mult. apply Rmult_le_compat; try apply Rabs_pos; assumption.
Qed.

Lemma dot_self_nonneg (v : R3.t) : 0 <= R3.dot v v.
Proof. destruct v as [[a b] c]. cbn. nra. Qed.

(** A camera at [(k, 0.7 k, k)] aimed at the origin, as the master fit
    places it: sufficient conditions, in coordinates, for a point to be in
    the frustum. *)
Lemma frustum_diagonal (k T a px py pz : R) :
  0 < k ->
  let s := px + 7 / 10 * py + pz in
  let r1 := sqrt (249 / 100) in
  let r2 := sqrt 2 in
  s < 249 / 100 * k ->
  Rabs (2 * py - 7 / 10 * px - 7 / 10 * pz) <= T * (249 / 100 * k - s) * r2 ->
  Rabs (px - pz) * r1 <= a * T * (249 / 100 * k - s) * r2 ->
  frustum (k, k * 0.7, k) (0, 0, 0) T a (px, py, pz).
Proof.
  intros Hk s r1 r2 Hd Hv Hh. unfold frustum.
  replace 0.7 with (7 / 10) by lra.
  set (zb := R3.sub (k, k * (7 / 10), k) (0, 0, 0)).
  set (xb := R3.cross R3.up zb).
  set (yb := R3.cross zb xb).
  set (w := R3.sub (px, py, pz) (k, k * (7 / 10), k)).
  assert (R1 : r1 * r1 = 249 / 100) by (apply sqrt_sqrt; lra).
  assert (R2 : r2 * r2 = 2) by (apply sqrt_sqrt; lra).
  assert (P1 : 0 < r1) by (apply sqrt_lt_R0; lra).
  assert (P2 : 0 < r2) by (apply sqrt_lt_R0; lra).
  clearbody r1 r2.
  assert (K2 : 0 < k * k) by nra.
  assert (Nz : R3.norm zb = r1 * k).
  { unfold R3.norm. apply sqrt_lem_1; [apply dot_self_nonneg | nra | ].
    cbn. transitivity (r1 * r1 * (k * k)); [ring | rewrite R1; field]. }
  assert (Nx : R3.norm xb = r2 * k).
  { unfold R3.norm. apply sqrt_lem_1; [apply dot_self_nonneg | nra | ].
    cbn. transitivity (r2 * r2 * (k * k)); [ring | rewrite R2; ring]. }
  assert (Ny : R3.norm yb = r1 * r2 * (k * k)).
  { unfold R3.norm. apply sqrt_lem_1;
      [apply dot_self_nonneg | apply Rmult_le_pos; [apply Rmult_le_pos; lra | lra] | ].
    cbn.
    transitivity ((r1 * r1) * (r2 * r2) * (k * k * (k * k))); [ring | rewrite R1, R2; field]. }
  assert (Dz : - R3.dot w zb = (249 / 100 * k - s) * k) by (cbn; unfold s; field).
  assert (Dy : R3.dot w yb = (2 * py - 7 / 10 * px - 7 / 10 * pz) * (k * k))
    by (cbn; field).
  assert (Dx : R3.dot w xb = (px - pz) * k) by (cbn; ring).
  rewrite Nz, Nx, Ny, Dz, Dy, Dx.
  rewrite !Rabs_mult, !(Rabs_right k) by lra.
  repeat split.
  - nra.
  - nra.
  - assert (K3 : 0 <= r1 * (k * k * k))
      by (apply Rmult_le_pos; [lra | apply Rmult_le_pos; lra]).
    apply (Rmult_le_compat_r _ _ _ K3) in Hv. lra.
  - apply (Rmult_le_compat_r (k * k)) in Hh; [ | lra]. lra.
Qed.

Lemma Rabs_bounds (x b : R) : Rabs x <= b -> - b <= x <= b.
Proof.
  intros H. pose proof (Rle_abs x). pose proof (Rle_abs (- x)) as N.
  rewrite Rabs_Ropp in N. lra.
Qed.

(** A linear form on a cube. *)
Lemma lin3 (px py pz h c1 c2 c3 : R) :
  Rabs px <= h -> Rabs py <= h -> Rabs pz <= h ->
  px * c1 + py * c2 + pz * c3 <= h * (Rabs c1 + Rabs c2 + Rabs c3).
Proof.
  intros Hx Hy Hz.
  pose proof (prod_bound px c1 h (Rabs c1) Hx (Rle_refl _)).
  pose proof (prod_bound py c2 h (Rabs c2) Hy (Rle_refl _)).
  pose proof (prod_bound pz c3 h (Rabs c3) Hz (Rle_refl _)).
  lra.
Qed.

Lemma sqrt2_bounds : 1.414 <= sqrt 2 <= 1.415.
Proof.
  assert (R2 : sqrt 2 * sqrt 2 = 2) by (apply sqrt_sqrt; lra).
  assert (P2 : 0 < sqrt 2) by (apply sqrt_lt_R0; lra).
  split; nra.
Qed.

Lemma sqrt249_bound : 0 < sqrt (249 / 100) <= 1.578.
Proof.
  assert (R1 : sqrt (249 / 100) * sqrt (249 / 100) = 249 / 100) by (apply sqrt_sqrt; lra).
  assert (P1 : 0 < sqrt (249 / 100)) by (apply sqrt_lt_R0; lra).
  split; nra.
Qed.

(** Seen from the camera of the master fit, every point of the cube of side
    [M] around the origin is in the frustum, whatever the aspect ratio, if
    the tangent of half the field of view is 1 at most. *)
Lemma diagonal_point_in_view (M T a k px py pz : R) :
  0 < M -> 0 < T -> T <= 1 -> 0 < a ->
  k = M / (if Rlt_dec 1 a then 2 else 2 * a) / T * 1.5 ->
  Rabs px <= M / 2 -> Rabs py <= M / 2 -> Rabs pz <= M / 2 ->
  frustum (k, k * 0.7, k) (0, 0, 0) T a (px, py, pz).
Proof.
  intros HM HT0 HT1 Ha Hk Hx Hy Hz.
  set (h := M / 2) in *.
  assert (Hh : 0 < h) by (unfold h; lra).
  set (K := T * k).
  assert (HK : 3 / 2 * h <= K /\ (1 < a -> K = 3 / 2 * h) /\ (a <= 1 -> a * K = 3 / 2 * h)).
  { unfold K. rewrite Hk. replace 1.5 with (3 / 2) by lra. unfold h.
    destruct (Rlt_dec 1 a) as [L | L].
    - assert (E : T * (M / 2 / T * (3 / 2)) = 3 / 2 * (M / 2)) by (field; lra).
      rewrite E. repeat split; lra.
    - assert (E : a * (T * (M / (2 * a) / T * (3 / 2))) = 3 / 2 * (M / 2)) by (field; lra).
      repeat split; try lra.
      apply Rmult_le_reg_l with a; [exact Ha | ]. rewrite E. nra. }
  destruct HK as (K1 & K2 & K3).
  assert (Hk0 : 0 < k).
  { destruct (Rlt_dec 0 k) as [P | P]; [exact P | exfalso].
    assert (T * k <= 0) by nra. unfold K in K1. lra. }
  assert (Hkk : K <= k) by (unfold K; nra).
  apply frustum_diagonal; [exact Hk0 | .. ].
  - apply Rabs_bounds in Hx, Hy, Hz. lra.
  - destruct sqrt2_bounds as [S1 S2]. set (r2 := sqrt 2) in *.
    set (U := r2 * T).
    assert (U0 : 0 < U) by (unfold U; nra).
    assert (U1 : U <= r2) by (unfold U; nra).
    replace (T * (249 / 100 * k - (px + 7 / 10 * py + pz)) * r2)
      with (249 / 100 * (r2 * K) - U * (px + 7 / 10 * py + pz))
      by (unfold K, U; ring).
    assert (F0 : 0 <= U * h) by nra.
    assert (F1 : U * h <= r2 * h) by nra.
    assert (F2 : 3 / 2 * (r2 * h) <= r2 * K) by nra.
    assert (F3 : 1.414 * h <= r2 * h) by nra.
    assert (L1 : U * (px + 7 / 10 * py + pz) - (2 * py - 7 / 10 * px - 7 / 10 * pz)
                 <= h * (Rabs (U + 7 / 10) + Rabs (7 / 10 * U - 2) + Rabs (U + 7 / 10))).
    { replace (U * (px + 7 / 10 * py + pz) - (2 * py - 7 / 10 * px - 7 / 10 * pz))
        with (px * (U + 7 / 10) + py * (7 / 10 * U - 2) + pz * (U + 7 / 10)) by ring.
      now apply lin3. }
    assert (L2 : U * (px + 7 / 10 * py + pz) + (2 * py - 7 / 10 * px - 7 / 10 * pz)
                 <= h * (Rabs (U - 7 / 10) + Rabs (7 / 10 * U + 2) + Rabs (U - 7 / 10))).
    { replace (U * (px + 7 / 10 * py + pz) + (2 * py - 7 / 10 * px - 7 / 10 * pz))
        with (px * (U - 7 / 10) + py * (7 / 10 * U + 2) + pz * (U - 7 / 10)) by ring.
      now apply lin3. }
    rewrite (Rabs_right (U + 7 / 10)) in L1 by lra.
    rewrite (Rabs_left (7 / 10 * U - 2)) in L1 by lra.
    rewrite (Rabs_right (7 / 10 * U + 2)) in L2 by lra.
    apply Rabs_le. split.
    + lra.
    + unfold Rabs in L2. destruct (Rcase_abs (U - 7 / 10)); lra.
  - destruct sqrt2_bounds as [S1 S2]. set (r2 := sqrt 2) in *.
    destruct sqrt249_bound as [S3 S4]. set (r1 := sqrt (249 / 100)) in *.
    set (W := a * (r2 * T)).
    assert (W0 : 0 < W) by (unfold W; apply Rmult_lt_0_compat; nra).
    replace (a * T * (249 / 100 * k - (px + 7 / 10 * py + pz)) * r2)
      with (249 / 100 * (r2 * (a * K)) - W * (px + 7 / 10 * py + pz))
      by (unfold K, W; ring).
    assert (F3 : 1.414 * h <= r2 * h) by nra.
    assert (F4 : r2 * h <= 1.415 * h) by nra.
    assert (F5 : r1 * h <= 1.578 * h) by nra.
    assert (F6 : 0 < r1 * h) by nra.
    assert (G : 3 / 2 * (W * h) <= r2 * (a * K) /\ 3 / 2 * (r2 * h) <= r2 * (a * K)).
    { assert (TH : T * h <= h) by nra.
      assert (RTH : r2 * (T * h) <= r2 * h) by (apply Rmult_le_compat_l; lra).
      assert (RTH0 : 0 <= r2 * (T * h)) by (apply Rmult_le_pos; nra).
      replace (W * h) with (a * (r2 * (T * h))) by (unfold W; ring).
      destruct (Rlt_dec 1 a) as [L | L].
      - rewrite (K2 L).
        replace (r2 * (a * (3 / 2 * h))) with (3 / 2 * (a * (r2 * h))) by ring.
        assert (a * (r2 * (T * h)) <= a * (r2 * h)) by (apply Rmult_le_compat_l; lra).
        assert (1 * (r2 * h) <= a * (r2 * h)) by (apply Rmult_le_compat_r; nra).
        split; lra.
      - assert (L' : a <= 1) by lra. rewrite (K3 L').
        replace (r2 * (3 / 2 * h)) with (3 / 2 * (r2 * h)) by ring.
        assert (a * (r2 * (T * h)) <= 1 * (r2 * (T * h)))
          by (apply Rmult_le_compat_r; lra).
        split; lra. }
    destruct G as [G1 G2].
    assert (L1 : W * (px + 7 / 10 * py + pz) - (px - pz) * r1
                 <= h * (Rabs (W - r1) + Rabs (7 / 10 * W) + Rabs (W + r1))).
    { replace (W * (px + 7 / 10 * py + pz) - (px - pz) * r1)
        with (px * (W - r1) + py * (7 / 10 * W) + pz * (W + r1)) by ring.
      now apply lin3. }
    assert (L2 : W * (px + 7 / 10 * py + pz) + (px - pz) * r1
                 <= h * (Rabs (W + r1) + Rabs (7 / 10 * W) + Rabs (W - r1))).
    { replace (W * (px + 7 / 10 * py + pz) + (px - pz) * r1)
        with (px * (W + r1) + py * (7 / 10 * W) + pz * (W - r1)) by ring.
      now apply lin3. }
    rewrite (Rabs_right (W + r1)) in L1, L2 by lra.
    rewrite (Rabs_right (7 / 10 * W)) in L1, L2 by lra.
    assert (WH : 0 <= W * h) by nra.
    assert (L4 : h * Rabs (W - r1) = r1 * h - W * h \/ h * Rabs (W - r1) = W * h - r1 * h).
    { unfold Rabs. destruct (Rcase_abs (W - r1)); [left | right]; ring. }
    replace (Rabs (px - pz) * r1) with (Rabs ((px - pz) * r1))
      by (rewrite Rabs_mult, (Rabs_right r1) by lra; reflexivity).
    apply Rabs_le. split; destruct L4; lra.
Qed.

Lemma half_fov_tan_le_1 (f : R) : 0 < f <= 90 -> tan (f * (PI / 180) / 2) <= 1.
Proof.
  intros [H0 H1]. pose proof PI_RGT_0 as P.
  destruct (Req_dec f 90) as [E | E].
  - subst f. replace (90 * (PI / 180) / 2) with (PI / 4) by field.
    rewrite tan_PI4. lra.
  - rewrite <- tan_PI4. apply Rlt_le, tan_increasing; nra.
Qed.

Lemma in_frustum_diagonal (c : PerspectiveCamera) (f a k px py pz : R) :
  projection c = (Fin f, Fin a) ->
  position c = Vector3.mk (Fin k) (Fin (k * 0.7)) (Fin k) ->
  lookingAt c = Vector3.mk (Fin 0) (Fin 0) (Fin 0) ->
  frustum (k, k * 0.7, k) (0, 0, 0) (tan (f * (PI / 180) / 2)) a (px, py, pz) ->
  in_frustum c (Vector3.mk (Fin px) (Fin py) (Fin pz)).
Proof.
  intros Hp He Ht H. unfold in_frustum. rewrite Hp, He, Ht. exact H.
Qed.

(** The master fit frames a box centred at the origin if the field of view
    is 90 degrees at most, the projection is that of the viewport, and the
    orbit controls have the limits of a new [OrbitControls]. *)
Lemma Master_fit_in_view
      (model : Master.Object3D) (this : Master.Viewer)
      (cam : PerspectiveCamera) (ctl : OrbitControls) (rnd : WebGLRenderer)
      (hx hy hz f : R) :
  Master.camera this = Some cam ->
  Master.controls this = Some ctl ->
  Master.renderer this = Some rnd ->
  clientWidth (Master.canvas this) <> 0%N ->
  clientHeight (Master.canvas this) <> 0%N ->
  minDistance ctl = Fin 0 ->
  maxDistance ctl = PInf ->
  Master.setFromObject model = bounds (- hx, - hy, - hz) (hx, hy, hz) ->
  0 <= hx -> 0 <= hy -> 0 <= hz ->
  0 < hx \/ 0 < hy \/ 0 < hz ->
  fov cam = Fin f ->
  projection cam
  = (Fin f, (of_N (clientWidth (Master.canvas this))
             / of_N (clientHeight (Master.canvas this)))%js) ->
  0 < f <= 90 ->
  box_in_view (Master.camera (final (Master._fitCameraToModel (Some model) this)))
              (Master.setFromObject model).
Proof.
  intros Hc Ho Hr Hw Hh Hmin Hmax HB Hx Hy Hz Hnd Hf Hp Hrange.
  assert (C0 : Box3.getCenter (Master.setFromObject model)
               = Vector3.mk (Fin 0) (Fin 0) (Fin 0)).
  { rewrite HB, getCenter_bounds by lra. f_equal; f_equal; lra. }
  assert (Hfin : Vector3.finite (Box3.getCenter (Master.setFromObject model)))
    by (rewrite C0; repeat split).
  pose proof (Master_fit_position model this cam ctl rnd Hc Ho Hr Hw Hmin Hmax Hfin)
    as Pos.
  destruct (Master_fit_aim model this cam ctl rnd Hc Ho Hr Hw) as [Aim _].
  assert (Proj : option_map projection
                   (Master.camera (final (Master._fitCameraToModel (Some model) this)))
                 = Some (projection cam)).
  { rewrite (Master_fit_proceeds model this cam ctl rnd Hc Ho Hr)
      by (apply aspect_guard_passes; exact Hw).
    reflexivity. }
  destruct (Master.camera (final (Master._fitCameraToModel (Some model) this)))
    as [c' | ]; [ | discriminate].
  cbv zeta in Pos. cbn [option_map] in Pos, Aim, Proj.
  injection Pos as Pos. injection Aim as Aim. injection Proj as Proj.
  rewrite C0 in Aim. rewrite Hp in Proj.
  destruct (aspect_nonzero _ _ Hw Hh) as [A Apos].
  rewrite A in Pos, Proj.
  set (a := IZR (Z.of_N (clientWidth (Master.canvas this)))
            / IZR (Z.of_N (clientHeight (Master.canvas this)))) in *.
  rewrite HB in Pos |- *. rewrite getSize_bounds in Pos by lra.
  cbn [Vector3.x Vector3.y Vector3.z] in Pos. rewrite Math_max3_Fin, Hf in Pos.
  set (M := Rmax (Rmax (hx - - hx) (hy - - hy)) (hz - - hz)) in *.
  destruct (Rmax3_bounds (hx - - hx) (hy - - hy) (hz - - hz)) as (Mx & My & Mz).
  fold M in Mx, My, Mz.
  assert (HM : 0 < M) by lra.
  assert (Hf' : 0 < f < 180) by lra.
  rewrite spec_distance_Fin in Pos by lra.
  pose proof (half_fov_tan f Hf') as T0.
  pose proof (half_fov_tan_le_1 f Hrange) as T1.
  set (T := tan (f * (PI / 180) / 2)) in *.
  set (k := M / (if Rlt_dec 1 a then 2 else 2 * a) / T * 1.5) in *.
  unfold box_in_view, bounds, Box3.corners.
  cbn [Box3.min Box3.max Vector3.x Vector3.y Vector3.z].
  repeat apply Forall_cons; [ .. | apply Forall_nil ].
  all: eapply in_frustum_diagonal; [exact Proj | exact Pos | exact Aim | ].
  all: fold T; apply (diagonal_point_in_view M); try assumption; try reflexivity.
  all: apply Rabs_le; lra.
Qed.

(** *** The angle of the camera of [configurator.js] *)


Lemma sqrt3_bounds : 1.732 < sqrt 3 < 1.7321.
Proof.
  assert (H : sqrt 3 * sqrt 3 = 3) by (apply sqrt_sqrt; lra).
  pose proof (sqrt_pos 3) as P.
  split; nra.
Qed.

Lemma triple_angle (x : R) :
  sin (3 * x) = 3 * sin x * (cos x * cos x) - sin x * sin x * sin x
  /\ cos (3 * x) = cos x * cos x * cos x - 3 * (sin x * sin x) * cos x.
Proof.
  replace (3 * x) with (2 * x + x) by ring.
  rewrite sin_plus, cos_plus, sin_2a, cos_2a. split; ring.
Qed.

Lemma tan_25_tight : 0.466 < tan (50 * (PI / 180) / 2) < 0.4665.
Proof.
  pose proof PI_RGT_0 as P.
  set (x := 50 * (PI / 180) / 2).
  assert (Hx : 3 * x = PI / 4 + PI / 6) by (unfold x; lra).
  destruct (triple_angle x) as [S3 C3].
  rewrite Hx in S3, C3. rewrite sin_plus in S3. rewrite cos_plus in C3.
  rewrite sin_PI4, cos_PI4, sin_PI6, cos_PI6 in S3, C3.
  assert (Hc : 0 < cos x) by (apply cos_gt_0; unfold x; lra).
  assert (Ht : sin x = tan x * cos x) by (unfold tan; field; lra).
  set (t := tan x) in *. set (c := cos x) in *. rewrite Ht in S3, C3.
  destruct sqrt3_bounds as [R1 R2]. set (r := sqrt 3) in *.
  assert (Hr : r * r = 3) by (apply sqrt_sqrt; lra).
  assert (H2 : 0 < sqrt 2) by (apply sqrt_lt_R0; lra).
  (* times 2 sqrt 2 *)
  assert (S3' : r + 1 = 2 * sqrt 2 * (3 * (t * c) * (c * c) - t * c * (t * c) * (t * c))).
  { rewrite <- S3. field. lra. }
  assert (C3' : r - 1 = 2 * sqrt 2 * (c * c * c - 3 * (t * c * (t * c)) * c)).
  { rewrite <- C3. field. lra. }
  set (k := 2 * sqrt 2 * (c * c * c)) in *.
  assert (Hk : 0 < k) by (unfold k; repeat apply Rmult_lt_0_compat; lra).
  assert (S4 : r + 1 = k * (3 * t - t * t * t)) by (rewrite S3'; unfold k; ring).
  assert (C4 : r - 1 = k * (1 - 3 * (t * t))) by (rewrite C3'; unfold k; ring).
  assert (G : (3 * t - t * t * t) * (r - 1) = (1 - 3 * (t * t)) * (r + 1)).
  { rewrite S4, C4. ring. }
  assert (T0 : 0 < t) by (unfold t; apply tan_gt_0; unfold x; lra).
  assert (T1 : t < 1).
  { unfold t. rewrite <- tan_PI4. apply tan_increasing; unfold x; lra. }
  clearbody t r k c. clear S3 C3 S3' C3' S4 C4 Ht Hc Hx.
  split.
  - destruct (Rlt_dec 0.466 t) as [L | L]; [exact L | exfalso].
    assert (P1 : 0 <= (0.466 - t) * ((r - 1) * (3 - (0.466 * 0.466 + 0.466 * t + t * t))))
      by (apply Rmult_le_pos; [lra | apply Rmult_le_pos; [lra | nra]]).
    assert (P2 : 0 <= (0.466 - t) * ((r + 1) * (0.466 + t)))
      by (apply Rmult_le_pos; [lra | apply Rmult_le_pos; lra]).
    assert (Hu : (3 * 0.466 - 0.466 * 0.466 * 0.466) * (r - 1)
                 - (1 - 3 * (0.466 * 0.466)) * (r + 1) < 0) by lra.
    lra.
  - destruct (Rlt_dec t 0.4665) as [L | L]; [exact L | exfalso].
    assert (P1 : 0 <= (t - 0.4665) * ((r - 1) * (3 - (0.4665 * 0.4665 + 0.4665 * t + t * t))))
      by (apply Rmult_le_pos; [lra | apply Rmult_le_pos; [lra | nra]]).
    assert (P2 : 0 <= (t - 0.4665) * ((r + 1) * (0.4665 + t)))
      by (apply Rmult_le_pos; [lra | apply Rmult_le_pos; lra]).
    assert (Hu : 0 < (3 * 0.4665 - 0.4665 * 0.4665 * 0.4665) * (r - 1)
                     - (1 - 3 * (0.4665 * 0.4665)) * (r + 1)) by lra.
    lra.
Qed.

(** The distance at which [fitCameraToModel] of [configurator.js] puts its
    camera of 50 degrees from a model of largest dimension 100. *)
Lemma distance_100_bounds :
  160.7 < 100 / 2 / tan (50 * (PI / 180) / 2) * 1.5 < 161.
Proof.
  destruct tan_25_tight as [L U].
  set (T := tan (50 * (PI / 180) / 2)) in *.
  assert (E : 100 / 2 / T * 1.5 = 75 / T) by lra. rewrite E.
  split.
  - apply (Rmult_lt_reg_r T); [lra | ].
    unfold Rdiv. rewrite Rmult_assoc, Rinv_l by lra. lra.
  - apply (Rmult_lt_reg_r T); [lra | ].
    unfold Rdiv. rewrite Rmult_assoc, Rinv_l by lra. lra.
Qed.


(** * The claims *)

(** C10. In the STL loading path of [configurator.js], for a geometry of
    finite vertices whose bounding box has a positive largest dimension
    [maxDim], the callback has, before it fits the camera, made the new mesh
    the model, translated the geometry so that the centre of its bounding box
    is the origin, and scaled the mesh uniformly by [100 / maxDim]; the
    largest dimension of the model's world-space bounding box is then
    exactly 100 (and the fit that follows leaves the model as it is). *)
Theorem loadSTLModel_centres_and_scales
        (geometry : Configurator.BufferGeometry) (this : Configurator.Viewer) :
  Forall Vector3.finite (Configurator.attributes_position geometry) ->
  let size := Box3.getSize (Box3.setFromPoints (Configurator.attributes_position geometry)) in
  let maxDim := Math_max3 (Vector3.x size) (Vector3.y size) (Vector3.z size) in
  gt maxDim (Fin 0) = true ->
  exists (this' : Configurator.Viewer) (m : Configurator.Mesh) (box : Box3.t),
    Configurator.centerAndScale geometry this = Normal tt this'
    /\ Configurator.loadSTLModel_onLoad geometry this
       = Configurator.fitCameraToModel this'
    /\ Configurator.model this' = Some m
    /\ Configurator.model (final (Configurator.loadSTLModel_onLoad geometry this)) = Some m
    /\ Configurator.boundingBox (Configurator.geometry m) = Some box
    /\ box = Box3.setFromPoints (Configurator.attributes_position (Configurator.geometry m))
    /\ Box3.getCenter box = Vector3.zero
    /\ Configurator.scale m = Vector3.setScalar (Fin 100 / maxDim)%js
    /\ (let world := Box3.getSize (Configurator.setFromObject m) in
        Math_max3 (Vector3.x world) (Vector3.y world) (Vector3.z world) = Fin 100).
Proof.
  intros Hf size maxDim Hpos.
  pose proof (positive_size_nonempty _ Hpos) as Hne.
  destruct (extremes_exist _ Hf Hne)
    as (lx & ly & lz & hx & hy & hz & Lx & Ly & Lz & Gx & Gy & Gz).
  pose proof (least_le_greatest _ _ _ Lx Gx) as Hx.
  pose proof (least_le_greatest _ _ _ Ly Gy) as Hy.
  pose proof (least_le_greatest _ _ _ Lz Gz) as Hz.
  set (M := Rmax (Rmax (hx - lx) (hy - ly)) (hz - lz)).
  assert (EM : maxDim = Fin M).
  { unfold maxDim, size.
    rewrite (setFromPoints_bounds _ lx ly lz hx hy hz) by assumption.
    rewrite getSize_bounds by assumption. apply Math_max3_Fin. }
  assert (HM : 0 < M).
  { rewrite EM in Hpos. unfold gt, Rltb in Hpos.
    destruct (Rlt_dec 0 M); [assumption | discriminate]. }
  pose proof (centerAndScale_runs geometry this lx ly lz hx hy hz
                Hf Lx Ly Lz Gx Gy Gz (Rgt_not_eq _ _ HM)) as Run.
  cbv zeta in Run. fold M in Run.
  set (cx := (lx + hx) * 0.5) in *.
  set (cy := (ly + hy) * 0.5) in *.
  set (cz := (lz + hz) * 0.5) in *.
  eexists. eexists. eexists.
  split; [exact Run | ].
  split; [unfold Configurator.loadSTLModel_onLoad, bind; rewrite Run; reflexivity | ].
  split; [reflexivity | ].
  split.
  { unfold Configurator.loadSTLModel_onLoad, bind. rewrite Run.
    rewrite Configurator_fit_keeps_model. reflexivity. }
  split; [reflexivity | ].
  split.
  { cbn. symmetry.
    apply (setFromPoints_translate _ lx ly lz hx hy hz (- cx) (- cy) (- cz));
      assumption. }
  split.
  { rewrite getCenter_bounds by lra. unfold Vector3.zero.
    f_equal; f_equal; unfold cx, cy, cz; lra. }
  split.
  { cbn. rewrite EM, div_Fin by lra. reflexivity. }
  cbn.
  assert (Hs : 0 <= 100 / M) by (apply Rlt_le, Rdiv_lt_0_compat; lra).
  rewrite setFromObject_scaled by lra.
  rewrite getSize_bounds by nra. cbn. rewrite Math_max3_Fin. f_equal.
  replace ((hx + - cx) * (100 / M) - (lx + - cx) * (100 / M))
    with ((hx - lx) * (100 / M)) by ring.
  replace ((hy + - cy) * (100 / M) - (ly + - cy) * (100 / M))
    with ((hy - ly) * (100 / M)) by ring.
  replace ((hz + - cz) * (100 / M) - (lz + - cz) * (100 / M))
    with ((hz - lz) * (100 / M)) by ring.
  rewrite !Rmax_scale by exact Hs. fold M. field. lra.
Qed.

(** The geometry and the viewer at which the claim above is applied: a
    segment from the origin to [(20, 10, 4)], loaded into a viewer set up on
    a canvas of 800 by 600. *)
Lemma loadSTLModel_centres_and_scales_witness :
  exists m : Configurator.Mesh,
    Configurator.model
      (final (Configurator.loadSTLModel_onLoad
                (Configurator.mkGeometry
                   [Vector3.zero; Vector3.mk (Fin 20) (Fin 10) (Fin 4)] None)
                (Configurator_setupViewer (mkCanvas 800 600))))
    = Some m
    /\ (let world := Box3.getSize (Configurator.setFromObject m) in
        Math_max3 (Vector3.x world) (Vector3.y world) (Vector3.z world) = Fin 100).
Proof.
  assert (Hf : Forall Vector3.finite [Vector3.zero; Vector3.mk (Fin 20) (Fin 10) (Fin 4)])
    by (repeat constructor).
  destruct (loadSTLModel_centres_and_scales
              (Configurator.mkGeometry
                 [Vector3.zero; Vector3.mk (Fin 20) (Fin 10) (Fin 4)] None)
              (Configurator_setupViewer (mkCanvas 800 600)) Hf)
    as (this' & m & box & _ & _ & _ & Hm & _ & _ & _ & _ & Hw).
  - cbn [Configurator.attributes_position].
    rewrite (setFromPoints_bounds _ 0 0 0 20 10 4) by (exact Hf || explicit_extreme).
    rewrite getSize_bounds by lra. cbn. rewrite Math_max3_Fin.
    unfold gt. apply Rltb_true.
    unfold Rmax. repeat destruct (Rle_dec _ _); lra.
  - exists m. split; [exact Hm | exact Hw].
Defined.

(** C5. If the model is absent when the fit is invoked, the call returns
    with the state as it was: camera position, orientation and orbit target
    are unchanged.  In the master library the model is the argument; in
    [configurator.js] it is [this.model]. *)
Theorem fit_absent_model (mthis : Master.Viewer) (cthis : Configurator.Viewer) :
  Configurator.model cthis = None ->
  Master._fitCameraToModel None mthis = Normal tt mthis
  /\ Configurator.fitCameraToModel cthis = Normal tt cthis.
Proof.
  intros H. split.
  - apply Master_fit_guard. reflexivity.
  - apply Configurator_fit_guard. exact H.
Qed.

Lemma fit_absent_model_witness :
  Master._fitCameraToModel None (Master_initThreeJS (mkCanvas 800 600))
  = Normal tt (Master_initThreeJS (mkCanvas 800 600))
  /\ Configurator.fitCameraToModel (Configurator_setupViewer (mkCanvas 800 600))
     = Normal tt (Configurator_setupViewer (mkCanvas 800 600)).
Proof.
  apply (fit_absent_model (Master_initThreeJS (mkCanvas 800 600))
                          (Configurator_setupViewer (mkCanvas 800 600))).
  reflexivity.
Defined.

(** C4, as stated, fails on the code: [fitCameraToModel] of
    [configurator.js] has no guard on the viewport.  With the model loaded
    (the cube of side 100 around the origin) and the canvas laid out with
    width 0 and height 0, the fit moves the camera off the position
    [setupViewer] gave it. *)
Lemma fit_without_viewport_guard :
  let this := Configurator_resized (mkCanvas 0 0)
                (Configurator.set_model cube100
                   (Configurator_setupViewer (mkCanvas 800 600))) in
  clientWidth (Configurator.canvas this) = 0%N
  /\ clientHeight (Configurator.canvas this) = 0%N
  /\ option_map position
                 (Configurator.camera (final (Configurator.fitCameraToModel this)))
     <> option_map position (Configurator.camera this).
Proof.
  intros this. split; [reflexivity | ]. split; [reflexivity | ].
  rewrite (cube100_fit_position this _ _ eq_refl eq_refl eq_refl eq_refl eq_refl eq_refl).
  cbn. intros E. injection E as E.
  destruct distance_100_bounds as [L U]. lra.
Qed.

(** C4, amended.  In the master library, [_fitCameraToModel] returns with
    the state unchanged whenever the viewport width is 0 (the aspect ratio is
    then 0 or [NaN]), and [handleResize] returns before it fits whenever the
    width or the height is 0.  [fitCameraToModel] of [configurator.js] has
    no guard on the viewport: it never reads it, so laying the canvas out
    anew and fitting commute. *)
Theorem fit_zero_viewport
        (model : option Master.Object3D) (this resizing : Master.Viewer)
        (canvas : Canvas) (cthis : Configurator.Viewer) :
  clientWidth (Master.canvas this) = 0%N ->
  clientWidth (Master.canvas resizing) = 0%N
  \/ clientHeight (Master.canvas resizing) = 0%N ->
  Master._fitCameraToModel model this = Normal tt this
  /\ Master.handleResize resizing = Normal tt resizing
  /\ final (Configurator.fitCameraToModel (Configurator_resized canvas cthis))
     = Configurator_resized canvas (final (Configurator.fitCameraToModel cthis)).
Proof.
  intros Hw Hr. split; [ | split].
  - apply Master_fit_aspect_guard. rewrite Hw. apply aspect_width_zero.
  - apply Master_handleResize_guard. exact Hr.
  - apply Configurator_fit_ignores_canvas.
Qed.

Lemma fit_zero_viewport_witness :
  let model := Master.mkObject3D (cube 0 0 0 5) in
  let loaded := Master_with_model model (Master_initThreeJS (mkCanvas 800 600)) in
  Master._fitCameraToModel (Some model) (Master_resized (mkCanvas 0 600) loaded)
  = Normal tt (Master_resized (mkCanvas 0 600) loaded)
  /\ Master.handleResize (Master_resized (mkCanvas 800 0) loaded)
     = Normal tt (Master_resized (mkCanvas 800 0) loaded).
Proof.
  intros model loaded.
  destruct (fit_zero_viewport
              (Some model) (Master_resized (mkCanvas 0 600) loaded)
              (Master_resized (mkCanvas 800 0) loaded) (mkCanvas 400 600)
              (Configurator_setupViewer (mkCanvas 800 600)))
    as (F & R & _).
  - reflexivity.
  - right. reflexivity.
  - split; [exact F | exact R].
Defined.

(** C9, as stated, fails on the code: an object of size zero is not
    absorbed as a no-op.  For a model that is a single point at the origin,
    in a viewer of 800 by 600, the master fit moves the camera off the
    position [initThreeJS] gave it. *)
Lemma fit_zero_size_moves_camera :
  let model := Master.mkObject3D (cube 0 0 0 0) in
  let this := Master_with_model model (Master_initThreeJS (mkCanvas 800 600)) in
  Box3.getSize (Master.setFromObject model) = Vector3.zero
  /\ option_map position
                 (Master.camera (final (Master._fitCameraToModel (Some model) this)))
     <> option_map position (Master.camera this).
Proof.
  intros model this. split.
  - unfold model, Master.setFromObject. cbn [Master.worldBox].
    rewrite getSize_cube by lra. unfold Vector3.zero. f_equal; f_equal; lra.
  - rewrite (Master_fit_position model this _ _ _ eq_refl eq_refl eq_refl);
      [ | cbn; lia | reflexivity | reflexivity | apply cube_center_finite; lra ].
    intros E. injection E as E1 E2 E3.
    apply (Master_fit_position_fresh _ (f_equal3 Vector3.mk E1 E2 E3)).
Qed.

(** C9, amended.  The fit never throws: the master one for any model and
    any state of the viewer, the one of [configurator.js] once [setupViewer]
    has created camera and controls.  Every invocation either leaves the
    whole state as it was, or places and aims the camera, sets the orbit
    target and updates the controls, and changes nothing else.  An absent
    model is a no-op in both; in the master library so are an absent camera,
    absent controls, an absent renderer and a viewport of width zero (an
    aspect ratio of 0 or [NaN]).  An object of size zero is not absorbed: it
    is fitted like any other, that is, whenever the model is there (and, in
    the master library, camera, controls and renderer are there and neither
    the width nor the height of the viewport is zero), whatever its size. *)
Theorem fit_never_throws
        (model : option Master.Object3D) (this : Master.Viewer)
        (cthis : Configurator.Viewer) (cam : PerspectiveCamera) (ctl : OrbitControls) :
  Configurator.camera cthis = Some cam ->
  Configurator.controls cthis = Some ctl ->
  let fitted (m : Master.Object3D) (mcam : PerspectiveCamera)
             (mctl : OrbitControls) (mrnd : WebGLRenderer) : Master.Viewer :=
    let a := (of_N (clientWidth (Master.canvas this))
              / of_N (clientHeight (Master.canvas this)))%js in
    let box := Master.setFromObject m in
    let size := Box3.getSize box in
    let center := Box3.getCenter box in
    let d := spec_distance
               (Math_max3 (Vector3.x size) (Vector3.y size) (Vector3.z size))
               a (fov mcam) in
    Master.mkViewer (Master.canvas this)
      (Some (orbit (target_set center mctl)
                   (lookAt center (position_set d (d * Fin 0.7)%js d mcam))))
      (Some mrnd)
      (Some (update (target_set center mctl)))
      (Master.currentModel this) in
  let cfitted (m : Configurator.Mesh) : Configurator.Viewer :=
    let box := Configurator.setFromObject m in
    let size := Box3.getSize box in
    let center := Box3.getCenter box in
    let d := Configurator_distance
               (Math_max3 (Vector3.x size) (Vector3.y size) (Vector3.z size))
               (fov cam) in
    Configurator.mkViewer (Configurator.canvas cthis)
      (Some (orbit (target_set center ctl)
                   (lookAt center
                           (position_set (Vector3.x center) (Vector3.y center)
                                         (Vector3.z center + d)%js cam))))
      (Configurator.renderer cthis)
      (Some (update (target_set center ctl)))
      (Some m) in
  (exists this',
      Master._fitCameraToModel model this = Normal tt this'
      /\ (model = None \/ Master.camera this = None \/ Master.controls this = None
          \/ Master.renderer this = None \/ clientWidth (Master.canvas this) = 0%N ->
          this' = this)
      /\ (forall m mcam mctl mrnd,
             model = Some m -> Master.camera this = Some mcam ->
             Master.controls this = Some mctl -> Master.renderer this = Some mrnd ->
             clientWidth (Master.canvas this) <> 0%N ->
             clientHeight (Master.canvas this) <> 0%N ->
             this' = fitted m mcam mctl mrnd)
      /\ (this' = this
          \/ exists m mcam mctl mrnd,
               model = Some m /\ Master.camera this = Some mcam
               /\ Master.controls this = Some mctl /\ Master.renderer this = Some mrnd
               /\ this' = fitted m mcam mctl mrnd))
  /\ (exists cthis',
         Configurator.fitCameraToModel cthis = Normal tt cthis'
         /\ (Configurator.model cthis = None -> cthis' = cthis)
         /\ (forall m, Configurator.model cthis = Some m -> cthis' = cfitted m)
         /\ (cthis' = cthis
             \/ exists m, Configurator.model cthis = Some m /\ cthis' = cfitted m)).
Proof.
  intros Hc Ho fitted cfitted. split.
  - destruct (falsy model || falsy (Master.camera this) || falsy (Master.controls this)
              || falsy (Master.renderer this)) eqn:G.
    { exists this. split; [now apply Master_fit_guard | ].
      split; [reflexivity | ]. split; [ | now left].
      intros m mcam mctl mrnd Em Ec Eo Er _ _.
      rewrite Em, Ec, Eo, Er in G. discriminate. }
    destruct model as [m | ]; [ | discriminate].
    destruct (Master.camera this) as [mcam | ] eqn:Hmc; [ | discriminate].
    destruct (Master.controls this) as [mctl | ] eqn:Hmo; [ | discriminate].
    destruct (Master.renderer this) as [mrnd | ] eqn:Hmr; [ | discriminate].
    destruct (isNaN (of_N (clientWidth (Master.canvas this))
                     / of_N (clientHeight (Master.canvas this)))%js
              || strict_eq (of_N (clientWidth (Master.canvas this))
                            / of_N (clientHeight (Master.canvas this)))%js (Fin 0))
      eqn:A.
    { exists this. split; [now apply Master_fit_aspect_guard | ].
      split; [reflexivity | ]. split; [ | now left].
      intros m' mcam' mctl' mrnd' _ _ _ _ Hw _.
      rewrite (aspect_guard_passes _ (clientHeight (Master.canvas this)) Hw) in A.
      discriminate. }
    exists (fitted m mcam mctl mrnd).
    split; [exact (Master_fit_proceeds m this mcam mctl mrnd Hmc Hmo Hmr A) | ].
    split; [ | split].
    + intros [H | [H | [H | [H | H]]]]; try discriminate.
      rewrite H, aspect_width_zero in A. discriminate.
    + intros m' mcam' mctl' mrnd' Em Ec Eo Er _ _.
      injection Em as Em. injection Ec as Ec. injection Eo as Eo. injection Er as Er.
      subst. reflexivity.
    + right. exists m, mcam, mctl, mrnd. repeat split.
  - destruct (Configurator.model cthis) as [m | ] eqn:Hm.
    + exists (cfitted m).
      split; [exact (Configurator_fit_proceeds cthis m cam ctl Hm Hc Ho) | ].
      split; [discriminate | ]. split.
      * intros m' Em. injection Em as Em. subst m'. reflexivity.
      * right. exists m. split; reflexivity.
    + exists cthis. split; [now apply Configurator_fit_guard | ].
      split; [reflexivity | ]. split; [discriminate | now left].
Qed.

Lemma fit_never_throws_witness :
  returns (Master._fitCameraToModel
             (Some (Master.mkObject3D (cube 0 0 0 5)))
             (Master_initThreeJS (mkCanvas 800 600)))
  /\ returns (Configurator.fitCameraToModel (Configurator_setupViewer (mkCanvas 800 600))).
Proof.
  destruct (fit_never_throws
              (Some (Master.mkObject3D (cube 0 0 0 5)))
              (Master_initThreeJS (mkCanvas 800 600))
              (Configurator_setupViewer (mkCanvas 800 600)) _ _ eq_refl eq_refl)
    as ((this' & E & _) & (cthis' & E' & _)).
  rewrite E, E'. split; exact I.
Defined.

(** C7. After a fit on a present model, the camera is aimed at the centre
    of the model's world-space bounding box, and the orbit target is that
    same point.  The fit is one that is past the guards which make the call
    a no-op: in the master library camera, controls and renderer are there
    and the viewport width is not zero; in [configurator.js] camera and
    controls are there. *)
Theorem fit_aims_at_center
        (model : Master.Object3D) (this : Master.Viewer)
        (cam : PerspectiveCamera) (ctl : OrbitControls) (rnd : WebGLRenderer)
        (cthis : Configurator.Viewer) (m : Configurator.Mesh)
        (ccam : PerspectiveCamera) (cctl : OrbitControls) :
  Master.camera this = Some cam ->
  Master.controls this = Some ctl ->
  Master.renderer this = Some rnd ->
  clientWidth (Master.canvas this) <> 0%N ->
  Configurator.model cthis = Some m ->
  Configurator.camera cthis = Some ccam ->
  Configurator.controls cthis = Some cctl ->
  (let this' := final (Master._fitCameraToModel (Some model) this) in
   let center := Box3.getCenter (Master.setFromObject model) in
   option_map lookingAt (Master.camera this') = Some center
   /\ option_map target (Master.controls this') = Some center)
  /\ (let cthis' := final (Configurator.fitCameraToModel cthis) in
      let center := Box3.getCenter (Configurator.setFromObject m) in
      option_map lookingAt (Configurator.camera cthis') = Some center
      /\ option_map target (Configurator.controls cthis') = Some center).
Proof.
  intros Hc Ho Hr Hw Hm Hcc Hco. split.
  - apply (Master_fit_aim model this cam ctl rnd Hc Ho Hr Hw).
  - apply (Configurator_fit_aim cthis m ccam cctl Hm Hcc Hco).
Qed.

Lemma fit_aims_at_center_witness :
  let this' :=
    final (Master._fitCameraToModel
             (Some (Master.mkObject3D (cube 10 20 30 5)))
             (Master_initThreeJS (mkCanvas 800 600))) in
  option_map lookingAt (Master.camera this')
  = Some (Box3.getCenter (cube 10 20 30 5))
  /\ option_map target (Master.controls this')
     = Some (Box3.getCenter (cube 10 20 30 5)).
Proof.
  refine (proj1 (fit_aims_at_center
                   (Master.mkObject3D (cube 10 20 30 5))
                   (Master_initThreeJS (mkCanvas 800 600)) _ _ _
                   (Configurator.set_model cube100
                      (Configurator_setupViewer (mkCanvas 800 600)))
                   _ _ _
                   eq_refl eq_refl eq_refl _ eq_refl eq_refl eq_refl)).
  cbn. lia.
Defined.

(** C1, as stated, fails on the code: [fitCameraToModel] of
    [configurator.js] divides by 2 whatever the viewport.  On a canvas of 400
    by 600, with the camera and the orbit limits [setupViewer] creates
    (50 degrees, distances from 50 to 500) and a model whose world box is the
    cube of side 100 around the origin, the camera is put at a distance from
    the centre that is not the one of the specification's formula. *)
Lemma fit_portrait_distance_differs :
  let this := Configurator.set_model cube100 (Configurator_setupViewer (mkCanvas 400 600)) in
  let size := Box3.getSize (Configurator.setFromObject cube100) in
  let center := Box3.getCenter (Configurator.setFromObject cube100) in
  let d := spec_distance
             (Math_max3 (Vector3.x size) (Vector3.y size) (Vector3.z size))
             (of_N 400 / of_N 600)%js (Fin 50) in
  option_map position (Configurator.camera (final (Configurator.fitCameraToModel this)))
  <> Some (Vector3.mk (Vector3.x center) (Vector3.y center) (Vector3.z center + d)%js).
Proof.
  intros this size center d.
  rewrite (cube100_fit_position this _ _ eq_refl eq_refl eq_refl eq_refl eq_refl eq_refl).
  unfold d, center, size.
  rewrite cube100_box, getSize_bounds, getCenter_bounds by lra.
  cbn [Vector3.x Vector3.y Vector3.z].
  rewrite Math_max3_Fin, cube100_maxDim.
  destruct (aspect_nonzero 400 600) as [A Apos]; [lia | lia | ]. rewrite A.
  rewrite spec_distance_Fin by (exact Apos || lra).
  pose proof (half_fov_tan 50 ltac:(lra)) as HT.
  set (T := tan (50 * (PI / 180) / 2)) in *.
  destruct (Rlt_dec 1 (IZR (Z.of_N 400) / IZR (Z.of_N 600))) as [L | L].
  { exfalso. cbn in L. lra. }
  intros E. injection E as E. cbn in E.
  assert (Q : 100 / 2 / T * 1.5 = 100 / (2 * (400 / 600)) / T * 1.5) by lra.
  apply (f_equal (fun v => v * T)) in Q. field_simplify in Q; lra.
Qed.

(** C1, amended.  With [maxDim] the largest side of the model's world box,
    [f] the camera's field of view in degrees and [a = width / height] the
    aspect ratio of the viewport:
    - [_fitCameraToModel] of the master library, once past its guards
      (camera, controls and renderer there, viewport width not zero),
      computes [d = |maxDim / (a > 1 ? 2 : 2 a) / tan((f π / 180) / 2)| * 1.5]
      and, the orbit controls having the distance limits [initThreeJS] leaves
      them (0 and [Infinity]) and the centre of the box being finite, leaves
      the camera at [(d, 0.7 d, d)];
    - [fitCameraToModel] of [configurator.js] computes
      [D = |maxDim / 2 / tan(...)| * 1.5] whatever the viewport, which is the
      distance above where [a > 1] or [a = 1], and leaves the camera at the
      centre of the box moved along [z] by [D], provided [D] is within the
      distance limits of the orbit controls. *)
Theorem fit_distance
        (model : Master.Object3D) (this : Master.Viewer)
        (cam : PerspectiveCamera) (ctl : OrbitControls) (rnd : WebGLRenderer)
        (cthis : Configurator.Viewer) (m : Configurator.Mesh)
        (ccam : PerspectiveCamera) (cctl : OrbitControls)
        (lx ly lz hx hy hz f lo hi : R) :
  Master.camera this = Some cam ->
  Master.controls this = Some ctl ->
  Master.renderer this = Some rnd ->
  clientWidth (Master.canvas this) <> 0%N ->
  minDistance ctl = Fin 0 ->
  maxDistance ctl = PInf ->
  Vector3.finite (Box3.getCenter (Master.setFromObject model)) ->
  Configurator.model cthis = Some m ->
  Configurator.camera cthis = Some ccam ->
  Configurator.controls cthis = Some cctl ->
  Configurator.setFromObject m = bounds (lx, ly, lz) (hx, hy, hz) ->
  lx <= hx -> ly <= hy -> lz <= hz ->
  fov ccam = Fin f ->
  0 < f < 180 ->
  minDistance cctl = Fin lo ->
  maxDistance cctl = Fin hi ->
  lo <= Rmax (Rmax (hx - lx) (hy - ly)) (hz - lz) / 2
        / tan (f * (PI / 180) / 2) * 1.5 <= hi ->
  (let a := (of_N (clientWidth (Master.canvas this))
             / of_N (clientHeight (Master.canvas this)))%js in
   let size := Box3.getSize (Master.setFromObject model) in
   let maxDim := Math_max3 (Vector3.x size) (Vector3.y size) (Vector3.z size) in
   let d := spec_distance maxDim a (fov cam) in
   option_map position
              (Master.camera (final (Master._fitCameraToModel (Some model) this)))
   = Some (Vector3.mk d (d * Fin 0.7)%js d))
  /\ (let a := (of_N (clientWidth (Configurator.canvas cthis))
                / of_N (clientHeight (Configurator.canvas cthis)))%js in
      let size := Box3.getSize (Configurator.setFromObject m) in
      let center := Box3.getCenter (Configurator.setFromObject m) in
      let maxDim := Math_max3 (Vector3.x size) (Vector3.y size) (Vector3.z size) in
      let d := Configurator_distance maxDim (fov ccam) in
      d = Fin (Rmax (Rmax (hx - lx) (hy - ly)) (hz - lz) / 2
               / tan (f * (PI / 180) / 2) * 1.5)
      /\ option_map position
                    (Configurator.camera (final (Configurator.fitCameraToModel cthis)))
         = Some (Vector3.mk (Vector3.x center) (Vector3.y center)
                            (Vector3.z center + d)%js)
      /\ (gt a (Fin 1) = true \/ a = Fin 1 ->
          d = spec_distance maxDim a (fov ccam))).
Proof.
  intros Hc Ho Hr Hw Hmin Hmax Hfin Hm Hcc Hco HB Hx Hy Hz Hf Hrange Hlo Hhi Hlim.
  split; [ | split; [ | split]].
  - apply (Master_fit_position model this cam ctl rnd Hc Ho Hr Hw Hmin Hmax Hfin).
  - rewrite HB, getSize_bounds by assumption.
    cbn [Vector3.x Vector3.y Vector3.z]. rewrite Math_max3_Fin, Hf.
    destruct (Rmax3_bounds (hx - lx) (hy - ly) (hz - lz)) as (Mx & My & Mz).
    apply Configurator_distance_Fin; lra.
  - rewrite (Configurator_fit_position cthis m ccam cctl lx ly lz hx hy hz f lo hi
               Hm Hcc Hco HB Hx Hy Hz Hf Hrange Hlo Hhi Hlim).
    rewrite HB, getSize_bounds, getCenter_bounds by assumption.
    cbn [Vector3.x Vector3.y Vector3.z]. rewrite Math_max3_Fin, Hf.
    destruct (Rmax3_bounds (hx - lx) (hy - ly) (hz - lz)) as (Mx & My & Mz).
    rewrite Configurator_distance_Fin by lra. reflexivity.
  - apply Configurator_distance_spec.
Qed.

Lemma fit_distance_witness :
  let model := Master.mkObject3D (cube 0 0 0 5) in
  let this := Master_initThreeJS (mkCanvas 400 600) in
  let size := Box3.getSize (cube 0 0 0 5) in
  let d := spec_distance
             (Math_max3 (Vector3.x size) (Vector3.y size) (Vector3.z size))
             (of_N 400 / of_N 600)%js (Fin 45) in
  option_map position
             (Master.camera (final (Master._fitCameraToModel (Some model) this)))
  = Some (Vector3.mk d (d * Fin 0.7)%js d).
Proof.
  refine (proj1 (fit_distance
                   (Master.mkObject3D (cube 0 0 0 5))
                   (Master_initThreeJS (mkCanvas 400 600)) _ _ _
                   (Configurator.set_model cube100
                      (Configurator_setupViewer (mkCanvas 800 600)))
                   cube100 _ _
                   (-50 * 1) (-50 * 1) (-50 * 1) (50 * 1) (50 * 1) (50 * 1) 50 50 500
                   eq_refl eq_refl eq_refl _ eq_refl eq_refl _
                   eq_refl eq_refl eq_refl cube100_box _ _ _ eq_refl _
                   eq_refl eq_refl _)).
  - cbn. lia.
  - apply cube_center_finite. lra.
  - lra.
  - lra.
  - lra.
  - lra.
  - rewrite cube100_maxDim. exact cube100_distance.
Defined.

(** C6. Fitting twice in succession, with the model, the camera's field
    of view and the viewport unchanged, leaves the same camera position, aim
    and orbit target as fitting once.  This holds for every input, the valid
    ones (model present, positive field of view, viewport not empty) among
    them. *)
Theorem fit_idempotent
        (model : option Master.Object3D) (this : Master.Viewer)
        (cthis : Configurator.Viewer) :
  Master.pose (final (bind (Master._fitCameraToModel model)
                           (fun _ => Master._fitCameraToModel model) this))
  = Master.pose (final (Master._fitCameraToModel model this))
  /\ Configurator.pose (final (bind Configurator.fitCameraToModel
                                    (fun _ => Configurator.fitCameraToModel) cthis))
     = Configurator.pose (final (Configurator.fitCameraToModel cthis)).
Proof.
  split.
  - unfold bind.
    destruct (falsy model || falsy (Master.camera this) || falsy (Master.controls this)
              || falsy (Master.renderer this)) eqn:G.
    { rewrite !(Master_fit_guard _ _ G). reflexivity. }
    destruct model as [m | ]; [ | discriminate].
    destruct (Master.camera this) as [cam | ] eqn:Hc; [ | discriminate].
    destruct (Master.controls this) as [ctl | ] eqn:Ho; [ | discriminate].
    destruct (Master.renderer this) as [rnd | ] eqn:Hr; [ | discriminate].
    destruct (N.eq_dec (clientWidth (Master.canvas this)) 0) as [Hw | Hw].
    { assert (A : Master._fitCameraToModel (Some m) this = Normal tt this)
        by (apply Master_fit_aspect_guard; rewrite Hw; apply aspect_width_zero).
      rewrite !A. reflexivity. }
    pose proof (aspect_guard_passes _ (clientHeight (Master.canvas this)) Hw) as A.
    rewrite (Master_fit_proceeds m this cam ctl rnd Hc Ho Hr A). cbv beta iota.
    match goal with
    | |- context [Master._fitCameraToModel (Some m) ?s] =>
        rewrite (Master_fit_proceeds m s _ _ _ eq_refl eq_refl eq_refl A)
    end.
    reflexivity.
  - unfold bind.
    destruct cthis as [cv [cam | ] r [ctl | ] [m | ]]; reflexivity.
Qed.

(** C3, as stated, fails on the code: [onWindowResize] of
    [configurator.js] updates the projection and the renderer and stops
    there.  With a model loaded and the camera orbited to [(150, 0, 0)], a
    resize leaves the pose as it is, which is not the pose that fitting after
    the resize would give. *)
Lemma onWindowResize_does_not_fit :
  let a := (of_N 800 / of_N 600)%js in
  let this :=
    Configurator.mkViewer
      (mkCanvas 400 600)
      (Some (mkCamera (Fin 50) a (Vector3.mk (Fin 150) (Fin 0) (Fin 0))
                      Vector3.zero (Fin 50, a)))
      (Some (mkRenderer (of_N 800, of_N 600)))
      (Some (mkControls Vector3.zero (Fin 50) (Fin 500) 2))
      (Some cube100) in
  Configurator.pose (final (Configurator.onWindowResize this))
  = Configurator.pose this
  /\ Configurator.pose
       (final (bind Configurator.onWindowResize
                    (fun _ => Configurator.fitCameraToModel) this))
     <> Configurator.pose this.
Proof.
  intros a this. split; [reflexivity | ].
  change (bind Configurator.onWindowResize
               (fun _ => Configurator.fitCameraToModel) this)
    with (Configurator.fitCameraToModel
            (final (Configurator.onWindowResize this))).
  intros E. apply (f_equal (fun q => fst (fst q))) in E.
  cbv beta delta [fst Configurator.pose pose_of] in E. cbv beta iota in E.
  rewrite (cube100_fit_position (final (Configurator.onWindowResize this)) _ _
             eq_refl eq_refl eq_refl eq_refl eq_refl eq_refl) in E.
  cbn in E. injection E as E. lra.
Qed.

(** C3, amended.  [handleResize] of the master library, when neither the
    width nor the height of the canvas is zero, sets the camera's aspect
    ratio to their quotient, updates the projection and the renderer's size,
    and then invokes the fit on the current model (a no-op if there is
    none).  [onWindowResize] of [configurator.js] sets the aspect ratio,
    updates the projection and the renderer's size, and leaves the pose as
    it is: it does not invoke the fit. *)
Theorem resize_handlers
        (this : Master.Viewer) (cam : PerspectiveCamera) (rnd : WebGLRenderer)
        (cthis : Configurator.Viewer) (ccam : PerspectiveCamera)
        (crnd : WebGLRenderer) :
  Master.camera this = Some cam ->
  Master.renderer this = Some rnd ->
  clientWidth (Master.canvas this) <> 0%N ->
  clientHeight (Master.canvas this) <> 0%N ->
  Configurator.camera cthis = Some ccam ->
  Configurator.renderer cthis = Some crnd ->
  (let w := of_N (clientWidth (Master.canvas this)) in
   let h := of_N (clientHeight (Master.canvas this)) in
   Master.handleResize this
   = Master._fitCameraToModel
       (Master.currentModel this)
       (Master.mkViewer (Master.canvas this)
          (Some (updateProjectionMatrix (set_aspect (w / h)%js cam)))
          (Some (setSize w h rnd))
          (Master.controls this) (Master.currentModel this)))
  /\ (let w := of_N (clientWidth (Configurator.canvas cthis)) in
      let h := of_N (clientHeight (Configurator.canvas cthis)) in
      Configurator.onWindowResize cthis
      = Normal tt
          (Configurator.mkViewer (Configurator.canvas cthis)
             (Some (updateProjectionMatrix (set_aspect (w / h)%js ccam)))
             (Some (setSize w h crnd))
             (Configurator.controls cthis) (Configurator.model cthis))
      /\ Configurator.pose (final (Configurator.onWindowResize cthis))
         = Configurator.pose cthis).
Proof.
  intros Hc Hr Hw Hh Hcc Hcr.
  assert (R : Configurator.onWindowResize cthis
              = Normal tt
                  (Configurator.mkViewer (Configurator.canvas cthis)
                     (Some (updateProjectionMatrix
                              (set_aspect
                                 (of_N (clientWidth (Configurator.canvas cthis))
                                  / of_N (clientHeight (Configurator.canvas cthis)))%js
                                 ccam)))
                     (Some (setSize (of_N (clientWidth (Configurator.canvas cthis)))
                                    (of_N (clientHeight (Configurator.canvas cthis)))
                                    crnd))
                     (Configurator.controls cthis) (Configurator.model cthis))).
  { destruct cthis as [cv c r o mo]. cbn in Hcc, Hcr. subst c r. reflexivity. }
  split; [ | split].
  - destruct this as [cv c r o cur]. cbn in Hc, Hr, Hw, Hh. subst c r.
    unfold Master.handleResize. unfold bind at 1. unfold get at 1.
    cbn [Master.canvas].
    apply N.eqb_neq in Hw, Hh. rewrite Hw, Hh. reflexivity.
  - exact R.
  - rewrite R. destruct cthis as [cv c r o mo]. cbn in Hcc. subst c. reflexivity.
Qed.

Lemma resize_handlers_witness :
  let this := Master_resized (mkCanvas 400 600)
                (Master_with_model (Master.mkObject3D (cube 0 0 0 5))
                                   (Master_initThreeJS (mkCanvas 800 600))) in
  let cthis := Configurator_resized (mkCanvas 400 600)
                 (Configurator_setupViewer (mkCanvas 800 600)) in
  (exists this',
      Master.handleResize this
      = Master._fitCameraToModel (Some (Master.mkObject3D (cube 0 0 0 5))) this'
      /\ option_map aspect (Master.camera this') = Some (of_N 400 / of_N 600)%js)
  /\ Configurator.pose (final (Configurator.onWindowResize cthis))
     = Configurator.pose cthis.
Proof.
  intros this cthis.
  destruct (resize_handlers this _ _ cthis _ _ eq_refl eq_refl
              ltac:(cbn; lia) ltac:(cbn; lia) eq_refl eq_refl)
    as (H & _ & P).
  split; [ | exact P].
  eexists. split; [exact H | reflexivity].
Defined.

(** C8. The scenario of the specification: a model whose world box has size
    [(10, 10, 10)] and centre [(0, 0, 0)], a camera of 45 degrees, a viewport
    of 800 by 600.  The distance is [D = (10 / 2) / tan(22.5°) * 1.5], which
    is 18.1 to within a hundredth.
    - In the master library, on the viewer [initThreeJS] sets up on a canvas
      of 800 by 600, the fit leaves the camera at [(D, 0.7 D, D)], aimed at
      [(0, 0, 0)], with the orbit target there.
    - In [configurator.js] the fit reads neither the viewport nor anything
      of the camera but its field of view and its place: for every state in
      which the camera has 45 degrees ([setupViewer] itself creates it with
      50) and the model has that box, it puts the camera at [(0, 0, D)],
      aims it and the orbit target at [(0, 0, 0)], and runs
      [controls.update()].  The camera stays at [(0, 0, D)] where the
      distance limits of the controls admit [D]; under the limits
      [setupViewer] sets (50 to 500), the update moves it out to
      [(0, 0, 50)]. *)
Theorem fit_scenario
        (cthis : Configurator.Viewer) (m : Configurator.Mesh)
        (ccam : PerspectiveCamera) (cctl : OrbitControls) :
  Configurator.model cthis = Some m ->
  Configurator.camera cthis = Some ccam ->
  Configurator.controls cthis = Some cctl ->
  Configurator.setFromObject m = bounds (-5, -5, -5) (5, 5, 5) ->
  fov ccam = Fin 45 ->
  let D := 10 / 2 / tan (22.5 * PI / 180) * 1.5 in
  let this := Master_with_model (Master.mkObject3D (cube 0 0 0 5))
                                (Master_initThreeJS (mkCanvas 800 600)) in
  let cthis' := final (Configurator.fitCameraToModel cthis) in
  Rabs (D - 18.1) < 0.01
  /\ Master.pose (final (Master._fitCameraToModel (Master.currentModel this) this))
     = (Some (Vector3.mk (Fin D) (Fin (D * 0.7)) (Fin D)),
        Some Vector3.zero, Some Vector3.zero)
  /\ Configurator.fitCameraToModel cthis
     = Normal tt
         (Configurator.mkViewer (Configurator.canvas cthis)
            (Some (orbit (target_set Vector3.zero cctl)
                         (lookAt Vector3.zero
                                 (position_set (Fin 0) (Fin 0) (Fin D) ccam))))
            (Configurator.renderer cthis)
            (Some (update (target_set Vector3.zero cctl)))
            (Some m))
  /\ option_map lookingAt (Configurator.camera cthis') = Some Vector3.zero
  /\ option_map target (Configurator.controls cthis') = Some Vector3.zero
  /\ (forall lo hi : R,
         minDistance cctl = Fin lo -> maxDistance cctl = Fin hi -> lo <= D <= hi ->
         option_map position (Configurator.camera cthis')
         = Some (Vector3.mk (Fin 0) (Fin 0) (Fin D)))
  /\ (minDistance cctl = Fin 50 -> maxDistance cctl = Fin 500 ->
      option_map position (Configurator.camera cthis')
      = Some (Vector3.mk (Fin 0) (Fin 0) (Fin 50))).
Proof.
  intros Hm Hcc Hco B Hf D this cthis'.
  assert (HR : Rmax (Rmax (2 * 5) (2 * 5)) (2 * 5) = 10)
    by (unfold Rmax; repeat destruct (Rle_dec _ _); lra).
  assert (HR' : Rmax (Rmax (5 - -5) (5 - -5)) (5 - -5) = 10)
    by (unfold Rmax; repeat destruct (Rle_dec _ _); lra).
  assert (HA : 45 * (PI / 180) / 2 = 22.5 * PI / 180) by lra.
  assert (HD : Configurator_distance
                 (let size := Box3.getSize (Configurator.setFromObject m) in
                  Math_max3 (Vector3.x size) (Vector3.y size) (Vector3.z size))
                 (fov ccam)
               = Fin D).
  { cbv zeta. rewrite B, getSize_bounds by lra.
    cbn [Vector3.x Vector3.y Vector3.z]. rewrite Math_max3_Fin, HR', Hf.
    rewrite Configurator_distance_Fin by lra. rewrite HA. reflexivity. }
  cbv zeta in HD.
  assert (HC : Box3.getCenter (Configurator.setFromObject m) = Vector3.zero).
  { rewrite B, getCenter_bounds by lra. unfold Vector3.zero.
    repeat first [ apply (f_equal Fin); lra | progress f_equal ]. }
  destruct (Configurator_fit_aim cthis m _ _ Hm Hcc Hco) as [Aim Tgt].
  fold cthis' in Aim, Tgt. cbv zeta in Aim, Tgt. rewrite HC in Aim, Tgt.
  split; [exact scenario_distance | ].
  split; [ | split; [ | split; [exact Aim | split; [exact Tgt | split]]]].
  - change (Master.currentModel this) with (Some (Master.mkObject3D (cube 0 0 0 5))).
    rewrite (Master_fit_pose _ this _ _ _ eq_refl eq_refl eq_refl);
      [ | cbn; lia | reflexivity | reflexivity | apply cube_center_finite; lra ].
    unfold Master.setFromObject. cbn [Master.worldBox].
    rewrite getSize_cube, getCenter_cube by lra.
    cbn [Vector3.x Vector3.y Vector3.z fov]. rewrite Math_max3_Fin, HR.
    change (Master.canvas this) with (mkCanvas 800 600).
    cbn [clientWidth clientHeight].
    destruct (aspect_nonzero 800 600) as [A Apos]; [lia | lia | ]. rewrite A.
    rewrite spec_distance_Fin by (exact Apos || lra).
    destruct (Rlt_dec 1 (IZR (Z.of_N 800) / IZR (Z.of_N 600))) as [L | L];
      [ | exfalso; apply L; cbn; lra].
    rewrite HA. reflexivity.
  - rewrite (Configurator_fit_proceeds cthis m ccam cctl Hm Hcc Hco). cbv zeta.
    rewrite HD, HC. cbn [Vector3.zero Vector3.x Vector3.y Vector3.z].
    change (Fin 0 + Fin D)%js with (Fin (0 + D)). rewrite Rplus_0_l. reflexivity.
  - intros lo hi Hlo Hhi Hlim.
    pose proof (Configurator_fit_position cthis m ccam cctl (-5) (-5) (-5) 5 5 5 45 lo hi
                  Hm Hcc Hco B ltac:(lra) ltac:(lra) ltac:(lra) Hf ltac:(lra) Hlo Hhi)
      as Pos.
    cbv zeta in Pos. rewrite HR', HA in Pos. fold cthis' in Pos.
    rewrite (Pos Hlim). unfold D.
    repeat first [ apply (f_equal Fin); lra | progress f_equal ].
  - intros Hlo Hhi.
    pose proof (Configurator_fit_position_min
                  cthis m ccam cctl (-5) (-5) (-5) 5 5 5 45 50 500
                  Hm Hcc Hco B ltac:(lra) ltac:(lra) ltac:(lra)
                  ltac:(left; lra) Hf ltac:(lra) Hlo Hhi) as Pos.
    rewrite HR', HA in Pos.
    assert (Lt : 10 / 2 / tan (22.5 * PI / 180) * 1.5 < 50).
    { pose proof scenario_distance as S. apply Rabs_def2 in S. lra. }
    specialize (Pos Lt ltac:(lra)).
    fold cthis' in Pos. rewrite Pos.
    repeat first [ apply (f_equal Fin); lra | progress f_equal ].
Qed.

(** The scenario in a viewer of [configurator.js] whose camera has been
    given 45 degrees and whose controls keep the camera between 10 and 500
    from the target: the fit leaves the camera at 18.1 on the [z] axis. *)
Lemma fit_scenario_witness :
  let D := 10 / 2 / tan (22.5 * PI / 180) * 1.5 in
  let a := (of_N 800 / of_N 600)%js in
  let m := Configurator_mesh [Vector3.mk (Fin (-5)) (Fin (-5)) (Fin (-5));
                              Vector3.mk (Fin 5) (Fin 5) (Fin 5)] (Fin 1) in
  let cthis :=
    Configurator.mkViewer
      (mkCanvas 800 600)
      (Some (mkCamera (Fin 45) a (Vector3.mk (Fin 0) (Fin 0) (Fin 150))
                      Vector3.zero (Fin 45, a)))
      (Some (mkRenderer (of_N 800, of_N 600)))
      (Some (mkControls Vector3.zero (Fin 10) (Fin 500) 1))
      (Some m) in
  Rabs (D - 18.1) < 0.01
  /\ Configurator.pose (final (Configurator.fitCameraToModel cthis))
     = (Some (Vector3.mk (Fin 0) (Fin 0) (Fin D)), Some Vector3.zero, Some Vector3.zero).
Proof.
  intros D a m cthis.
  assert (B : Configurator.setFromObject m = bounds (-5, -5, -5) (5, 5, 5)).
  { unfold m.
    rewrite (setFromObject_mesh _ (-5) (-5) (-5) 5 5 5 1);
      [ | repeat constructor | explicit_extreme .. | lra ].
    unfold bounds.
    repeat first [ apply (f_equal Fin); lra | progress f_equal ]. }
  destruct (fit_scenario cthis m _ _ eq_refl eq_refl eq_refl B eq_refl)
    as (Dist & _ & _ & Aim & Tgt & Pos & _).
  split; [exact Dist | ].
  unfold Configurator.pose, pose_of.
  rewrite Aim, Tgt, (Pos 10 500 eq_refl eq_refl).
  - reflexivity.
  - apply Rabs_def2 in Dist. unfold D in *. lra.
Defined.

(** C2, as stated, fails on the code.  In [configurator.js] the distance
    does not take the aspect ratio into account: on a canvas of 400 by 600,
    with the camera and the orbit limits [setupViewer] creates (50 degrees,
    distances from 50 to 500) and a model whose world box is the cube of side
    100 around the origin, the corner [(50, 50, 50)] of the box is outside
    the frustum after the fit (it is too far to the right). *)
Lemma fit_portrait_clips_box :
  let this := Configurator.set_model cube100 (Configurator_setupViewer (mkCanvas 400 600)) in
  ~ box_in_view (Configurator.camera (final (Configurator.fitCameraToModel this)))
                (Configurator.setFromObject cube100).
Proof.
  intros this H.
  pose proof (cube100_fit_position this _ _ eq_refl eq_refl eq_refl
                                   eq_refl eq_refl eq_refl) as Pos.
  destruct (Configurator_fit_aim this cube100 _ _ eq_refl eq_refl eq_refl) as [Aim _].
  destruct (aspect_nonzero 400 600) as [A _]; [lia | lia | ].
  assert (Proj : option_map projection
                   (Configurator.camera (final (Configurator.fitCameraToModel this)))
                 = Some (Fin 50, Fin (IZR (Z.of_N 400) / IZR (Z.of_N 600)))).
  { rewrite (Configurator_fit_proceeds this cube100 _ _ eq_refl eq_refl eq_refl).
    cbn [final Configurator.camera option_map]. f_equal.
    rewrite <- A. reflexivity. }
  destruct (Configurator.camera (final (Configurator.fitCameraToModel this)))
    as [c' | ]; [ | discriminate].
  cbn [option_map] in Pos, Aim, Proj.
  injection Pos as Pos. injection Aim as Aim. injection Proj as Proj.
  rewrite cube100_box in Aim, H. rewrite getCenter_bounds in Aim by lra.
  pose proof (half_fov_tan 50 ltac:(lra)) as T0.
  set (T := tan (50 * (PI / 180) / 2)) in *.
  set (D := 100 / 2 / T * 1.5) in *.
  assert (DT : D * T = 75)
    by (unfold D; replace 1.5 with (3 / 2) by lra; field; lra).
  assert (HD : 0 < D) by nra.
  assert (Pos' : position c' = Vector3.mk (Fin 0) (Fin 0) (Fin (0 + D)))
    by (rewrite Pos; repeat first [ apply (f_equal Fin); lra | progress f_equal ]).
  assert (Aim' : lookingAt c' = Vector3.mk (Fin 0) (Fin 0) (Fin 0))
    by (rewrite Aim; repeat first [ apply (f_equal Fin); lra | progress f_equal ]).
  unfold box_in_view, bounds, Box3.corners in H.
  cbn [Box3.min Box3.max Vector3.x Vector3.y Vector3.z] in H.
  rewrite Forall_forall in H.
  specialize (H (Vector3.mk (Fin (50 * 1)) (Fin (50 * 1)) (Fin (50 * 1)))
                ltac:(do 7 right; left; reflexivity)).
  apply (in_frustum_axis c' 50 _ 0 0 0 D (50 * 1) (50 * 1) (50 * 1)
                         Proj Pos' Aim' HD) in H.
  destruct H as (_ & _ & H). fold T in H. cbn in H.
  assert (R : 50 <= Rabs (50 * 1 - 0)).
  { eapply Rle_trans; [ | apply Rle_abs]. lra. }
  nra.
Qed.

(** C2, amended.  After the fit, every vertex of the model's world-space
    bounding box is in front of the camera and within the upper, lower, left
    and right bounds of its view frustum, provided that
    - in the master library, the fit is past its guards, the orbit controls
      have the distance limits [initThreeJS] leaves them (0 and [Infinity]),
      the box is centred at the origin (as the loading path arranges) and not
      a single point, the field of view is 90 degrees at most, and the
      camera's projection is that of the viewport (as [handleResize]
      arranges);
    - in [configurator.js], camera and controls are there, the box is not a
      single point, the tangent of half the field of view is one half at most
      (a field of view of about 53 degrees at most), the aspect ratio of
      the projection is 1 at least, and the computed distance is within the
      distance limits of the orbit controls. *)
Theorem fit_frames_box
        (model : Master.Object3D) (this : Master.Viewer)
        (cam : PerspectiveCamera) (ctl : OrbitControls) (rnd : WebGLRenderer)
        (hx hy hz f : R)
        (cthis : Configurator.Viewer) (m : Configurator.Mesh)
        (ccam : PerspectiveCamera) (cctl : OrbitControls)
        (lx' ly' lz' hx' hy' hz' f' a' lo hi : R) :
  Master.camera this = Some cam ->
  Master.controls this = Some ctl ->
  Master.renderer this = Some rnd ->
  clientWidth (Master.canvas this) <> 0%N ->
  clientHeight (Master.canvas this) <> 0%N ->
  minDistance ctl = Fin 0 ->
  maxDistance ctl = PInf ->
  Master.setFromObject model = bounds (- hx, - hy, - hz) (hx, hy, hz) ->
  0 <= hx -> 0 <= hy -> 0 <= hz ->
  0 < hx \/ 0 < hy \/ 0 < hz ->
  fov cam = Fin f ->
  projection cam
  = (Fin f, (of_N (clientWidth (Master.canvas this))
             / of_N (clientHeight (Master.canvas this)))%js) ->
  0 < f <= 90 ->
  Configurator.model cthis = Some m ->
  Configurator.camera cthis = Some ccam ->
  Configurator.controls cthis = Some cctl ->
  Configurator.setFromObject m = bounds (lx', ly', lz') (hx', hy', hz') ->
  lx' <= hx' -> ly' <= hy' -> lz' <= hz' ->
  lx' < hx' \/ ly' < hy' \/ lz' < hz' ->
  fov ccam = Fin f' ->
  projection ccam = (Fin f', Fin a') ->
  0 < f' < 180 ->
  tan (f' * (PI / 180) / 2) <= 1 / 2 ->
  1 <= a' ->
  minDistance cctl = Fin lo ->
  maxDistance cctl = Fin hi ->
  lo <= Rmax (Rmax (hx' - lx') (hy' - ly')) (hz' - lz') / 2
        / tan (f' * (PI / 180) / 2) * 1.5 <= hi ->
  box_in_view (Master.camera (final (Master._fitCameraToModel (Some model) this)))
              (Master.setFromObject model)
  /\ box_in_view (Configurator.camera (final (Configurator.fitCameraToModel cthis)))
                 (Configurator.setFromObject m).
Proof.
  intros Hc Ho Hr Hw Hh Hmin Hmax HB Hx Hy Hz Hnd Hf Hp Hrange
         Hm' Hc' Ho' HB' Hx' Hy' Hz' Hnd' Hf' Hp' Hrange' HT' Ha' Hmin' Hmax' Hlim'.
  split.
  - exact (Master_fit_in_view model this cam ctl rnd hx hy hz f
             Hc Ho Hr Hw Hh Hmin Hmax HB Hx Hy Hz Hnd Hf Hp Hrange).
  - exact (Configurator_fit_in_view cthis m ccam cctl lx' ly' lz' hx' hy' hz' f' a' lo hi
             Hm' Hc' Ho' HB' Hx' Hy' Hz' Hnd' Hf' Hp' Hrange' HT' Ha' Hmin' Hmax' Hlim').
Qed.

Lemma fit_frames_box_witness :
  let model := Master.mkObject3D (bounds (- 5, - 5, - 5) (5, 5, 5)) in
  let cthis :=
    Configurator.mkViewer
      (mkCanvas 800 600)
      (Some (mkCamera (Fin 45) (Fin (4 / 3)) (Vector3.mk (Fin 0) (Fin 0) (Fin 150))
                      Vector3.zero (Fin 45, Fin (4 / 3))))
      (Some (mkRenderer (of_N 800, of_N 600)))
      (Some (mkControls Vector3.zero (Fin 50) (Fin 500) 1))
      (Some cube100) in
  box_in_view
    (Master.camera (final (Master._fitCameraToModel
                             (Some model) (Master_initThreeJS (mkCanvas 800 600)))))
    (Master.setFromObject model)
  /\ box_in_view (Configurator.camera (final (Configurator.fitCameraToModel cthis)))
                 (Configurator.setFromObject cube100).
Proof.
  intros model cthis.
  eapply fit_frames_box
    with (hx := 5) (hy := 5) (hz := 5) (f := 45)
         (lx' := -50 * 1) (ly' := -50 * 1) (lz' := -50 * 1)
         (hx' := 50 * 1) (hy' := 50 * 1) (hz' := 50 * 1) (f' := 45) (a' := 4 / 3)
         (lo := 50) (hi := 500);
    [ reflexivity | reflexivity | reflexivity | cbn; lia | cbn; lia
    | reflexivity | reflexivity
    | reflexivity | lra | lra | lra | left; lra | reflexivity | reflexivity | lra
    | reflexivity | reflexivity | reflexivity
    | exact cube100_box
    | lra | lra | lra | left; lra | reflexivity | reflexivity | lra
    | replace (45 * (PI / 180) / 2) with (PI / 8) by lra;
      pose proof tan_PI8_bounds; lra
    | lra | reflexivity | reflexivity
    | rewrite cube100_maxDim;
      replace (45 * (PI / 180) / 2) with (PI / 8) by lra;
      destruct tan_PI8_bounds as [L U];
      assert (E : 100 / 2 / tan (PI / 8) * 1.5 = 75 / tan (PI / 8)) by lra;
      rewrite E; split;
      (apply (Rmult_le_reg_r (tan (PI / 8))); [lra | ];
       unfold Rdiv; rewrite Rmult_assoc, Rinv_l by lra; lra) ].
Defined.

(** * Beyond the claims: loading, resizing and rendering *)

(** ** [loadSTLModel]: what the callback leaves for the fit *)

(** For a geometry of finite vertices and positive size, the callback fits
    the camera to a mesh whose world box is centred at the origin and has
    100 as its largest side. *)
Lemma loadSTLModel_loaded (geometry : Configurator.BufferGeometry)
      (this : Configurator.Viewer) :
  Forall Vector3.finite (Configurator.attributes_position geometry) ->
  let size := Box3.getSize (Box3.setFromPoints (Configurator.attributes_position geometry)) in
  gt (Math_max3 (Vector3.x size) (Vector3.y size) (Vector3.z size)) (Fin 0) = true ->
  exists (m : Configurator.Mesh) (a b c : R),
    Configurator.loadSTLModel_onLoad geometry this
    = Configurator.fitCameraToModel (Configurator.set_model m this)
    /\ Configurator.setFromObject m = bounds (- a, - b, - c) (a, b, c)
    /\ 0 <= a /\ 0 <= b /\ 0 <= c
    /\ Rmax (Rmax (a - - a) (b - - b)) (c - - c) = 100.
Proof.
  intros Hf size Hpos.
  pose proof (positive_size_nonempty _ Hpos) as Hne.
  destruct (extremes_exist _ Hf Hne)
    as (lx & ly & lz & hx & hy & hz & Lx & Ly & Lz & Gx & Gy & Gz).
  pose proof (least_le_greatest _ _ _ Lx Gx) as Hx.
  pose proof (least_le_greatest _ _ _ Ly Gy) as Hy.
  pose proof (least_le_greatest _ _ _ Lz Gz) as Hz.
  set (M := Rmax (Rmax (hx - lx) (hy - ly)) (hz - lz)).
  assert (EM : Math_max3 (Vector3.x size) (Vector3.y size) (Vector3.z size) = Fin M).
  { unfold size.
    rewrite (setFromPoints_bounds _ lx ly lz hx hy hz) by assumption.
    rewrite getSize_bounds by assumption. apply Math_max3_Fin. }
  assert (HM : 0 < M).
  { rewrite EM in Hpos. unfold gt, Rltb in Hpos.
    destruct (Rlt_dec 0 M); [assumption | discriminate]. }
  pose proof (centerAndScale_runs geometry this lx ly lz hx hy hz
                Hf Lx Ly Lz Gx Gy Gz (Rgt_not_eq _ _ HM)) as Run.
  cbv zeta in Run. fold M in Run.
  set (s := 100 / M) in *.
  assert (Hs : 0 < s) by (apply Rdiv_lt_0_compat; lra).
  eexists. exists ((hx - lx) * 0.5 * s), ((hy - ly) * 0.5 * s), ((hz - lz) * 0.5 * s).
  split; [unfold Configurator.loadSTLModel_onLoad, bind; rewrite Run; reflexivity | ].
  split.
  { rewrite setFromObject_scaled by lra. unfold bounds.
    repeat first [ apply (f_equal Fin); nra | progress f_equal ]. }
  split; [nra | ]. split; [nra | ]. split; [nra | ].
  replace ((hx - lx) * 0.5 * s - - ((hx - lx) * 0.5 * s)) with ((hx - lx) * s) by lra.
  replace ((hy - ly) * 0.5 * s - - ((hy - ly) * 0.5 * s)) with ((hy - ly) * s) by lra.
  replace ((hz - lz) * 0.5 * s - - ((hz - lz) * 0.5 * s)) with ((hz - lz) * s) by lra.
  rewrite !Rmax_scale by lra. fold M. unfold s. field. lra.
Qed.

(** [loadSTLModel]: whatever the size and place of the geometry the loader
    hands over (finite vertices, positive largest dimension), the callback
    leaves the camera of [setupViewer] (50 degrees, orbit distances from 50
    to 500) at the same pose: on the [z] axis at [100 / 2 / tan(25°) * 1.5]
    from the origin, which is between 160.7 and 161, aimed at the origin,
    with the orbit target at the origin. *)
Theorem loadSTLModel_camera_pose
        (geometry : Configurator.BufferGeometry) (this : Configurator.Viewer)
        (cam : PerspectiveCamera) (ctl : OrbitControls) :
  Forall Vector3.finite (Configurator.attributes_position geometry) ->
  let size := Box3.getSize (Box3.setFromPoints (Configurator.attributes_position geometry)) in
  gt (Math_max3 (Vector3.x size) (Vector3.y size) (Vector3.z size)) (Fin 0) = true ->
  Configurator.camera this = Some cam ->
  Configurator.controls this = Some ctl ->
  fov cam = Fin 50 ->
  minDistance ctl = Fin 50 ->
  maxDistance ctl = Fin 500 ->
  let D := 100 / 2 / tan (50 * (PI / 180) / 2) * 1.5 in
  Configurator.pose (final (Configurator.loadSTLModel_onLoad geometry this))
  = (Some (Vector3.mk (Fin 0) (Fin 0) (Fin D)), Some Vector3.zero, Some Vector3.zero)
  /\ 160.7 < D < 161.
Proof.
  intros Hf size Hpos Hc Ho Hfov Hmin Hmax D.
  split; [ | exact distance_100_bounds].
  destruct (loadSTLModel_loaded geometry this Hf Hpos)
    as (m & a & b & c & Run & HB & Ha & Hb & Hc' & HM).
  rewrite Run.
  set (this' := Configurator.set_model m this).
  pose proof (Configurator_fit_position this' m cam ctl (- a) (- b) (- c) a b c 50 50 500
                eq_refl Hc Ho HB ltac:(lra) ltac:(lra) ltac:(lra) Hfov ltac:(lra)
                Hmin Hmax) as Pos.
  cbv zeta in Pos. rewrite HM in Pos. specialize (Pos cube100_distance).
  destruct (Configurator_fit_aim this' m cam ctl eq_refl Hc Ho) as [Aim Tgt].
  cbv zeta in Aim, Tgt.
  rewrite HB, getCenter_bounds in Aim, Tgt by lra.
  unfold Configurator.pose, pose_of. rewrite Pos, Aim, Tgt.
  unfold Vector3.zero, D.
  repeat first [ apply (f_equal Fin); lra | progress f_equal ].
Qed.

Lemma loadSTLModel_camera_pose_witness :
  Configurator.pose
    (final (Configurator.loadSTLModel_onLoad
              (Configurator.mkGeometry
                 [Vector3.zero; Vector3.mk (Fin 20) (Fin 10) (Fin 4)] None)
              (Configurator_setupViewer (mkCanvas 800 600))))
  = (Some (Vector3.mk (Fin 0) (Fin 0) (Fin (100 / 2 / tan (50 * (PI / 180) / 2) * 1.5))),
     Some Vector3.zero, Some Vector3.zero).
Proof.
  assert (Hf : Forall Vector3.finite [Vector3.zero; Vector3.mk (Fin 20) (Fin 10) (Fin 4)])
    by (repeat constructor).
  refine (proj1 (loadSTLModel_camera_pose
                   (Configurator.mkGeometry
                      [Vector3.zero; Vector3.mk (Fin 20) (Fin 10) (Fin 4)] None)
                   (Configurator_setupViewer (mkCanvas 800 600)) _ _
                   Hf _ eq_refl eq_refl eq_refl eq_refl eq_refl)).
  cbn [Configurator.attributes_position].
  rewrite (setFromPoints_bounds _ 0 0 0 20 10 4) by (exact Hf || explicit_extreme).
  rewrite getSize_bounds by lra. cbn. rewrite Math_max3_Fin.
  unfold gt. apply Rltb_true.
  unfold Rmax. repeat destruct (Rle_dec _ _); lra.
Defined.



(** ** [handleResize] and the framing *)

(** *** The near and the far plane after the master fit *)

Lemma sqrt249_lower : 1.577 <= sqrt (249 / 100).
Proof.
  assert (R1 : sqrt (249 / 100) * sqrt (249 / 100) = 249 / 100) by (apply sqrt_sqrt; lra).
  assert (P1 : 0 < sqrt (249 / 100)) by (apply sqrt_lt_R0; lra).
  nra.
Qed.

(** A camera at [(k, 0.7 k, k)] aimed at the origin: the depth of a point,
    in coordinates. *)
Lemma between_planes_diagonal (k px py pz : R) :
  0 < k ->
  let s := px + 7 / 10 * py + pz in
  camera_near * sqrt (249 / 100) <= 249 / 100 * k - s <= camera_far * sqrt (249 / 100) ->
  between_planes (k, k * 0.7, k) (0, 0, 0) (px, py, pz).
Proof.
  intros Hk s [Hn Hf]. unfold between_planes.
  replace 0.7 with (7 / 10) by lra.
  set (zb := R3.sub (k, k * (7 / 10), k) (0, 0, 0)).
  set (w := R3.sub (px, py, pz) (k, k * (7 / 10), k)).
  set (r1 := sqrt (249 / 100)) in *.
  assert (R1 : r1 * r1 = 249 / 100) by (apply sqrt_sqrt; lra).
  assert (P1 : 0 < r1) by (apply sqrt_lt_R0; lra).
  assert (Nz : R3.norm zb = r1 * k).
  { unfold R3.norm. apply sqrt_lem_1; [apply dot_self_nonneg | nra | ].
    cbn. transitivity (r1 * r1 * (k * k)); [ring | rewrite R1; field]. }
  assert (Dz : - R3.dot w zb = (249 / 100 * k - s) * k) by (cbn; unfold s; field).
  rewrite Nz, Dz. clearbody r1. split; nra.
Qed.

(** Seen from the camera the master fit places for 45 degrees, every point
    of the cube of side [M] around the origin is between the near and the
    far plane, if [M] is 0.1 at least and 265 and 265 times the aspect ratio
    at most. *)
Lemma diagonal_point_between_planes (M a k px py pz : R) :
  0.1 <= M -> M <= 265 -> M <= 265 * a -> 0 < a ->
  k = M / (if Rlt_dec 1 a then 2 else 2 * a) / tan (PI / 8) * 1.5 ->
  Rabs px <= M / 2 -> Rabs py <= M / 2 -> Rabs pz <= M / 2 ->
  between_planes (k, k * 0.7, k) (0, 0, 0) (px, py, pz).
Proof.
  intros M0 M1 M2 Ha Hk Hx Hy Hz.
  destruct tan_PI8_bounds as [T0 T1]. set (T := tan (PI / 8)) in *.
  set (K := k * T).
  assert (HK : 3 / 4 * M <= K /\ K <= 3 / 4 * 265).
  { unfold K. rewrite Hk. replace 1.5 with (3 / 2) by lra.
    destruct (Rlt_dec 1 a) as [L | L].
    - assert (E : M / 2 / T * (3 / 2) * T = 3 / 4 * M) by (field; lra).
      rewrite E. lra.
    - assert (E : a * (M / (2 * a) / T * (3 / 2) * T) = 3 / 4 * M) by (field; lra).
      set (q := M / (2 * a) / T * (3 / 2) * T) in *.
      assert (Q0 : 0 <= q).
      { apply Rmult_le_reg_l with a; [exact Ha | ]. rewrite E. lra. }
      split.
      + assert (a * q <= 1 * q) by (apply Rmult_le_compat_r; lra). lra.
      + apply Rmult_le_reg_l with a; [exact Ha | ]. rewrite E. lra. }
  destruct HK as [K0 K1].
  assert (Hk0 : 0 < k).
  { destruct (Rlt_dec 0 k) as [P | P]; [exact P | exfalso].
    assert (k * T <= 0) by nra. unfold K in K0. lra. }
  assert (L0 : 0.4142 * k <= K) by (unfold K; nra).
  assert (L1 : K <= 0.4143 * k) by (unfold K; nra).
  apply Rabs_bounds in Hx, Hy, Hz.
  destruct sqrt249_bound as [S0 S1]. pose proof sqrt249_lower as S2.
  apply between_planes_diagonal; [exact Hk0 | ].
  unfold camera_near, camera_far.
  set (r1 := sqrt (249 / 100)) in *. clearbody r1.
  split; lra.
Qed.

Lemma within_planes_diagonal (c : PerspectiveCamera) (k px py pz : R) :
  position c = Vector3.mk (Fin k) (Fin (k * 0.7)) (Fin k) ->
  lookingAt c = Vector3.mk (Fin 0) (Fin 0) (Fin 0) ->
  between_planes (k, k * 0.7, k) (0, 0, 0) (px, py, pz) ->
  within_planes c (Vector3.mk (Fin px) (Fin py) (Fin pz)).
Proof.
  intros He Ht H. unfold within_planes. rewrite He, Ht. exact H.
Qed.

(** The master fit with the camera of [initThreeJS] (45 degrees): a box
    centred at the origin whose largest side is from 0.1 to 265, and 265
    times the aspect ratio at most, is within the six planes. *)
Lemma Master_fit_drawn
      (model : Master.Object3D) (this : Master.Viewer)
      (cam : PerspectiveCamera) (ctl : OrbitControls) (rnd : WebGLRenderer)
      (hx hy hz : R) :
  Master.camera this = Some cam ->
  Master.controls this = Some ctl ->
  Master.renderer this = Some rnd ->
  clientWidth (Master.canvas this) <> 0%N ->
  clientHeight (Master.canvas this) <> 0%N ->
  minDistance ctl = Fin 0 ->
  maxDistance ctl = PInf ->
  Master.setFromObject model = bounds (- hx, - hy, - hz) (hx, hy, hz) ->
  0 <= hx -> 0 <= hy -> 0 <= hz ->
  fov cam = Fin 45 ->
  projection cam
  = (Fin 45, (of_N (clientWidth (Master.canvas this))
              / of_N (clientHeight (Master.canvas this)))%js) ->
  let a := IZR (Z.of_N (clientWidth (Master.canvas this)))
           / IZR (Z.of_N (clientHeight (Master.canvas this))) in
  let maxDim := Rmax (Rmax (2 * hx) (2 * hy)) (2 * hz) in
  0.1 <= maxDim <= 265 * Rmin 1 a ->
  box_drawn (Master.camera (final (Master._fitCameraToModel (Some model) this)))
            (Master.setFromObject model).
Proof.
  intros Hc Ho Hr Hw Hh Hmin Hmax HB Hx Hy Hz Hf Hp a maxDim [M0 M1].
  destruct (Rmax3_bounds (2 * hx) (2 * hy) (2 * hz)) as (Mx & My & Mz).
  fold maxDim in Mx, My, Mz.
  assert (Hnd : 0 < hx \/ 0 < hy \/ 0 < hz).
  { unfold maxDim, Rmax in M0. repeat destruct (Rle_dec _ _); lra. }
  split.
  { apply (Master_fit_in_view model this cam ctl rnd hx hy hz 45); try assumption. lra. }
  assert (C0 : Box3.getCenter (Master.setFromObject model)
               = Vector3.mk (Fin 0) (Fin 0) (Fin 0)).
  { rewrite HB, getCenter_bounds by lra. f_equal; f_equal; lra. }
  assert (Hfin : Vector3.finite (Box3.getCenter (Master.setFromObject model)))
    by (rewrite C0; repeat split).
  pose proof (Master_fit_position model this cam ctl rnd Hc Ho Hr Hw Hmin Hmax Hfin)
    as Pos.
  destruct (Master_fit_aim model this cam ctl rnd Hc Ho Hr Hw) as [Aim _].
  destruct (Master.camera (final (Master._fitCameraToModel (Some model) this)))
    as [c' | ]; [ | discriminate].
  cbv zeta in Pos. cbn [option_map] in Pos, Aim.
  injection Pos as Pos. injection Aim as Aim.
  rewrite C0 in Aim.
  destruct (aspect_nonzero _ _ Hw Hh) as [A Apos].
  rewrite A in Pos. fold a in Pos, Apos.
  rewrite HB in Pos |- *. rewrite getSize_bounds in Pos by lra.
  cbn [Vector3.x Vector3.y Vector3.z] in Pos. rewrite Math_max3_Fin, Hf in Pos.
  replace (hx - - hx) with (2 * hx) in Pos by lra.
  replace (hy - - hy) with (2 * hy) in Pos by lra.
  replace (hz - - hz) with (2 * hz) in Pos by lra.
  fold maxDim in Pos.
  rewrite spec_distance_Fin in Pos by lra.
  replace (45 * (PI / 180) / 2) with (PI / 8) in Pos by lra.
  pose proof (Rmin_l 1 a) as Ml. pose proof (Rmin_r 1 a) as Mr.
  unfold bounds, Box3.corners.
  cbn [Box3.min Box3.max Vector3.x Vector3.y Vector3.z].
  repeat apply Forall_cons; [ .. | apply Forall_nil ].
  all: eapply within_planes_diagonal; [exact Pos | exact Aim | ].
  all: apply (diagonal_point_between_planes maxDim a); try reflexivity; try lra.
  all: apply Rabs_le; lra.
Qed.

(** Past its guard, [handleResize] fits the camera in the state in which
    aspect ratio, projection and renderer size are those of the canvas. *)
Lemma Master_handleResize_proceeds (this : Master.Viewer)
      (cam : PerspectiveCamera) (rnd : WebGLRenderer) :
  Master.camera this = Some cam ->
  Master.renderer this = Some rnd ->
  clientWidth (Master.canvas this) <> 0%N ->
  clientHeight (Master.canvas this) <> 0%N ->
  let w := of_N (clientWidth (Master.canvas this)) in
  let h := of_N (clientHeight (Master.canvas this)) in
  Master.handleResize this
  = Master._fitCameraToModel
      (Master.currentModel this)
      (Master.mkViewer (Master.canvas this)
         (Some (updateProjectionMatrix (set_aspect (w / h)%js cam)))
         (Some (setSize w h rnd))
         (Master.controls this) (Master.currentModel this)).
Proof.
  intros Hc Hr Hw Hh.
  destruct this as [cv c r o cur]. cbn in Hc, Hr, Hw, Hh. subst c r.
  unfold Master.handleResize. unfold bind at 1. unfold get at 1.
  cbn [Master.canvas].
  apply N.eqb_neq in Hw, Hh. rewrite Hw, Hh. reflexivity.
Qed.

(** [handleResize] keeps the model framed: on a canvas of non-zero width
    and height, with the camera of [initThreeJS] (45 degrees, near plane
    0.1, far plane 1000), the orbit distance limits that [new OrbitControls]
    sets, and a current model whose world box is centred at the origin and
    has a largest side of 0.1 at least and of 265 times the smaller of 1 and
    the aspect ratio of the canvas at most, every vertex of the model's
    world box is within the six planes of the view frustum once the handler
    has run, whatever the projection and the pose were before.  (A larger
    box, or a narrower canvas, can leave the box beyond the far plane.) *)
Theorem handleResize_reframes
        (this : Master.Viewer) (model : Master.Object3D)
        (cam : PerspectiveCamera) (ctl : OrbitControls) (rnd : WebGLRenderer)
        (hx hy hz : R) :
  Master.camera this = Some cam ->
  Master.controls this = Some ctl ->
  Master.renderer this = Some rnd ->
  Master.currentModel this = Some model ->
  clientWidth (Master.canvas this) <> 0%N ->
  clientHeight (Master.canvas this) <> 0%N ->
  minDistance ctl = Fin 0 ->
  maxDistance ctl = PInf ->
  Master.setFromObject model = bounds (- hx, - hy, - hz) (hx, hy, hz) ->
  0 <= hx -> 0 <= hy -> 0 <= hz ->
  fov cam = Fin 45 ->
  let a := IZR (Z.of_N (clientWidth (Master.canvas this)))
           / IZR (Z.of_N (clientHeight (Master.canvas this))) in
  let maxDim := Rmax (Rmax (2 * hx) (2 * hy)) (2 * hz) in
  0.1 <= maxDim <= 265 * Rmin 1 a ->
  box_drawn (Master.camera (final (Master.handleResize this)))
            (Master.setFromObject model).
Proof.
  intros Hc Ho Hr Hm Hw Hh Hmin Hmax HB Hx Hy Hz Hf a maxDim HM.
  rewrite (Master_handleResize_proceeds this cam rnd Hc Hr Hw Hh). cbv zeta.
  rewrite Hm.
  match goal with
  | |- context [Master._fitCameraToModel (Some model) ?s] =>
      apply (Master_fit_drawn model s _ ctl _ hx hy hz eq_refl Ho eq_refl Hw Hh
               Hmin Hmax HB Hx Hy Hz Hf)
  end.
  - cbn [projection updateProjectionMatrix set_aspect fov aspect Master.canvas].
    rewrite Hf. reflexivity.
  - exact HM.
Qed.

Lemma handleResize_reframes_witness :
  let model := Master.mkObject3D (bounds (- 5, - 5, - 5) (5, 5, 5)) in
  box_drawn
    (Master.camera
       (final (Master.handleResize
                 (Master_resized (mkCanvas 400 600)
                    (Master_with_model model (Master_initThreeJS (mkCanvas 800 600)))))))
    (Master.setFromObject model).
Proof.
  intros model.
  eapply handleResize_reframes with (hx := 5) (hy := 5) (hz := 5);
    [ reflexivity | reflexivity | reflexivity | reflexivity | cbn; lia | cbn; lia
    | reflexivity | reflexivity | reflexivity | lra | lra | lra
    | reflexivity | ].
  cbn. unfold Rmax, Rmin. repeat destruct (Rle_dec _ _); lra.
Defined.

(** ** The animation loop and the fitted pose *)

(** A camera that [controls.update()] finds where the limits allow it, and
    aimed at the target, is left as it is. *)
Lemma orbit_fixed (o : OrbitControls) (c : PerspectiveCamera) :
  position (orbit o c) = position c ->
  lookingAt c = target o ->
  orbit o c = c.
Proof.
  intros Hp Ht. destruct c as [f a p l pr]. cbn in Hp, Ht. subst l.
  unfold orbit in *. cbn [position fov aspect projection lookingAt] in *.
  rewrite Hp. reflexivity.
Qed.

Lemma Configurator_animate_settled (this : Configurator.Viewer)
      (c : PerspectiveCamera) (o : OrbitControls) :
  Configurator.camera this = Some c ->
  Configurator.controls this = Some o ->
  orbit o c = c ->
  Configurator.camera (final (Configurator_animate this)) = Some c
  /\ Configurator.controls (final (Configurator_animate this)) = Some (update o).
Proof.
  intros Hc Ho Hfix. destruct this as [cv cam r ctl m]. cbn in Hc, Ho. subst cam ctl.
  unfold Configurator_animate, Configurator.controls_update,
    Configurator.this_controls, Configurator.this_renderer. run.
  rewrite Hfix. destruct r; split; reflexivity.
Qed.

Lemma Configurator_frames_settled (n : nat) (this : Configurator.Viewer)
      (c : PerspectiveCamera) (o : OrbitControls) :
  Configurator.camera this = Some c ->
  Configurator.controls this = Some o ->
  orbit o c = c ->
  Configurator.pose (Nat.iter n (fun s => final (Configurator_animate s)) this)
  = Configurator.pose this.
Proof.
  intros Hc Ho Hfix.
  assert (G : exists o',
             Configurator.camera (Nat.iter n (fun s => final (Configurator_animate s)) this)
             = Some c
             /\ Configurator.controls
                  (Nat.iter n (fun s => final (Configurator_animate s)) this)
                = Some o'
             /\ target o' = target o /\ orbit o' c = c).
  { induction n as [ | n (o' & Hc' & Ho' & Ht' & Hf')].
    - exists o. repeat split; assumption.
    - cbn [Nat.iter].
      destruct (Configurator_animate_settled _ c o' Hc' Ho' Hf') as [A B].
      exists (update o'). repeat split; assumption. }
  destruct G as (o' & Hc' & Ho' & Ht' & _).
  unfold Configurator.pose, pose_of. rewrite Hc', Ho', Hc, Ho. cbn. rewrite Ht'. reflexivity.
Qed.

(** The animation loop of [configurator.js] leaves the pose of a freshly
    loaded model alone: after the callback of [loadSTLModel] (finite
    vertices, positive largest dimension, the camera and the orbit limits of
    [setupViewer]), any number of frames, each running [controls.update()],
    leaves camera position, aim and orbit target as the fit set them. *)
Theorem animate_keeps_loaded_pose
        (geometry : Configurator.BufferGeometry) (this : Configurator.Viewer)
        (cam : PerspectiveCamera) (ctl : OrbitControls) (n : nat) :
  Forall Vector3.finite (Configurator.attributes_position geometry) ->
  let size := Box3.getSize (Box3.setFromPoints (Configurator.attributes_position geometry)) in
  gt (Math_max3 (Vector3.x size) (Vector3.y size) (Vector3.z size)) (Fin 0) = true ->
  Configurator.camera this = Some cam ->
  Configurator.controls this = Some ctl ->
  fov cam = Fin 50 ->
  minDistance ctl = Fin 50 ->
  maxDistance ctl = Fin 500 ->
  let loaded := final (Configurator.loadSTLModel_onLoad geometry this) in
  Configurator.pose (Nat.iter n (fun s => final (Configurator_animate s)) loaded)
  = Configurator.pose loaded.
Proof.
  intros Hf size Hpos Hc Ho Hfov Hmin Hmax loaded.
  destruct (loadSTLModel_loaded geometry this Hf Hpos)
    as (m & a & b & c & Run & HB & Ha & Hb & Hc' & HM).
  set (this' := Configurator.set_model m this).
  pose proof (Configurator_fit_position this' m cam ctl (- a) (- b) (- c) a b c 50 50 500
                eq_refl Hc Ho HB ltac:(lra) ltac:(lra) ltac:(lra) Hfov ltac:(lra)
                Hmin Hmax) as Pos.
  cbv zeta in Pos. rewrite HM in Pos. specialize (Pos cube100_distance).
  destruct (Configurator_fit_aim this' m cam ctl eq_refl Hc Ho) as [Aim Tgt].
  cbv zeta in Aim, Tgt.
  rewrite HB, getCenter_bounds in Aim, Tgt by lra.
  assert (Lim : option_map minDistance
                  (Configurator.controls (final (Configurator.fitCameraToModel this')))
                = Some (Fin 50)
                /\ option_map maxDistance
                     (Configurator.controls (final (Configurator.fitCameraToModel this')))
                   = Some (Fin 500)).
  { rewrite (Configurator_fit_proceeds this' m cam ctl eq_refl Hc Ho).
    cbn. rewrite Hmin, Hmax. split; reflexivity. }
  unfold loaded. rewrite Run. fold this'.
  destruct (Configurator.camera (final (Configurator.fitCameraToModel this')))
    as [c1 | ] eqn:Hc1; [ | discriminate].
  destruct (Configurator.controls (final (Configurator.fitCameraToModel this')))
    as [o1 | ] eqn:Ho1; [ | discriminate].
  cbn [option_map] in Pos, Aim, Tgt, Lim.
  injection Pos as Pos. injection Aim as Aim. injection Tgt as Tgt.
  destruct Lim as [Lmin Lmax]. injection Lmin as Lmin. injection Lmax as Lmax.
  apply (Configurator_frames_settled n _ c1 o1 Hc1 Ho1).
  apply orbit_fixed; [ | rewrite Aim, Tgt; reflexivity].
  destruct cube100_distance as [D1 D2].
  apply (orbit_within_axis o1 c1 ((- a + a) * 0.5) ((- b + b) * 0.5) ((- c + c) * 0.5)
                           (100 / 2 / tan (50 * (PI / 180) / 2) * 1.5) 50 500
                           Lmin Lmax Tgt Pos);
    [lra | split; assumption].
Qed.

Lemma animate_keeps_loaded_pose_witness :
  let loaded :=
    final (Configurator.loadSTLModel_onLoad
             (Configurator.mkGeometry
                [Vector3.zero; Vector3.mk (Fin 20) (Fin 10) (Fin 4)] None)
             (Configurator_setupViewer (mkCanvas 800 600))) in
  Configurator.pose (Nat.iter 3 (fun s => final (Configurator_animate s)) loaded)
  = Configurator.pose loaded.
Proof.
  assert (Hf : Forall Vector3.finite [Vector3.zero; Vector3.mk (Fin 20) (Fin 10) (Fin 4)])
    by (repeat constructor).
  refine (animate_keeps_loaded_pose
            (Configurator.mkGeometry
               [Vector3.zero; Vector3.mk (Fin 20) (Fin 10) (Fin 4)] None)
            (Configurator_setupViewer (mkCanvas 800 600)) _ _ 3
            Hf _ eq_refl eq_refl eq_refl eq_refl eq_refl).
  cbn [Configurator.attributes_position].
  rewrite (setFromPoints_bounds _ 0 0 0 20 10 4) by (exact Hf || explicit_extreme).
  rewrite getSize_bounds by lra. cbn. rewrite Math_max3_Fin.
  unfold gt. apply Rltb_true.
  unfold Rmax. repeat destruct (Rle_dec _ _); lra.
Defined.

(** ** [loadSTLModel] on a geometry without extent *)

(** Centring and scaling, whatever the largest dimension is. *)
Lemma centerAndScale_runs_any (geometry : Configurator.BufferGeometry)
      (this : Configurator.Viewer) (lx ly lz hx hy hz : R) :
  let pts := Configurator.attributes_position geometry in
  Forall Vector3.finite pts ->
  least (map Vector3.x pts) lx -> least (map Vector3.y pts) ly ->
  least (map Vector3.z pts) lz ->
  greatest (map Vector3.x pts) hx -> greatest (map Vector3.y pts) hy ->
  greatest (map Vector3.z pts) hz ->
  let cx := (lx + hx) * 0.5 in
  let cy := (ly + hy) * 0.5 in
  let cz := (lz + hz) * 0.5 in
  let maxDim := Rmax (Rmax (hx - lx) (hy - ly)) (hz - lz) in
  Configurator.centerAndScale geometry this
  = Normal tt
      (Configurator.set_model
         (Configurator.mkMesh
            (Configurator.mkGeometry
               (map (fun p => Vector3.addVectors
                                p (Vector3.mk (Fin (- cx)) (Fin (- cy)) (Fin (- cz))))
                    pts)
               (Some (bounds (lx + - cx, ly + - cy, lz + - cz)
                             (hx + - cx, hy + - cy, hz + - cz))))
            (Vector3.setScalar (Fin 100 / Fin maxDim)%js))
         this).
Proof.
  intros pts Hf Lx Ly Lz Gx Gy Gz cx cy cz maxDim.
  pose proof (least_le_greatest _ _ _ Lx Gx) as Hx.
  pose proof (least_le_greatest _ _ _ Ly Gy) as Hy.
  pose proof (least_le_greatest _ _ _ Lz Gz) as Hz.
  pose proof (setFromPoints_bounds pts lx ly lz hx hy hz Hf Lx Ly Lz Gx Gy Gz) as E0.
  pose proof (setFromPoints_translate pts lx ly lz hx hy hz (- cx) (- cy) (- cz)
                Hf Lx Ly Lz Gx Gy Gz) as E1.
  unfold Configurator.centerAndScale, Configurator.on_geometry,
    Configurator.on_model, Configurator.geometry_boundingBox,
    Configurator.this_model. run.
  unfold Configurator.set_model, Configurator.scale_setScalar,
    Configurator.set_geometry, Configurator.translate,
    Configurator.computeBoundingBox. cbn.
  fold pts. rewrite E0. rewrite getCenter_bounds by assumption. cbn.
  fold cx cy cz.
  change (- Fin cx)%js with (Fin (- cx)).
  change (- Fin cy)%js with (Fin (- cy)).
  change (- Fin cz)%js with (Fin (- cz)).
  rewrite E1. rewrite getSize_bounds by lra. cbn.
  rewrite Math_max3_Fin.
  replace (Rmax (Rmax (hx + - cx - (lx + - cx)) (hy + - cy - (ly + - cy)))
                (hz + - cz - (lz + - cz)))
    with maxDim
    by (unfold maxDim; f_equal; [f_equal | ]; ring).
  reflexivity.
Qed.

(** The vector all of whose coordinates are [NaN]. *)
Lemma mul_zero_PInf : (Fin 0 * PInf)%js = NaN.
Proof. unfold mul. rewrite Reqb_true by reflexivity. reflexivity. Qed.

(** The world box of a mesh that is a single point at the origin, scaled by
    [Infinity]: every coordinate is [0 * Infinity]. *)
Lemma setFromObject_point_infinite (pts : list Vector3.t) :
  Configurator.setFromObject
    (Configurator.mkMesh
       (Configurator.mkGeometry pts (Some (bounds (0, 0, 0) (0, 0, 0))))
       (Vector3.setScalar PInf))
  = Box3.mk (Vector3.mk NaN NaN NaN) (Vector3.mk NaN NaN NaN).
Proof.
  unfold Configurator.setFromObject.
  cbn [Configurator.boundingBox Configurator.geometry].
  unfold Box3.applyMatrix4. rewrite isEmpty_bounds by lra.
  unfold bounds, Box3.corners, Configurator.matrixWorld, Vector3.multiply,
    Vector3.setScalar.
  cbn [map Box3.min Box3.max Vector3.x Vector3.y Vector3.z Configurator.scale].
  rewrite mul_zero_PInf. reflexivity.
Qed.

(** The fit of [configurator.js] on a model whose world box is [NaN]. *)
Lemma Configurator_fit_NaN (this : Configurator.Viewer) (m : Configurator.Mesh)
      (cam : PerspectiveCamera) (ctl : OrbitControls) :
  Configurator.model this = Some m ->
  Configurator.camera this = Some cam ->
  Configurator.controls this = Some ctl ->
  Configurator.setFromObject m
  = Box3.mk (Vector3.mk NaN NaN NaN) (Vector3.mk NaN NaN NaN) ->
  Configurator.pose (final (Configurator.fitCameraToModel this))
  = (Some (Vector3.mk NaN NaN NaN), Some (Vector3.mk NaN NaN NaN),
     Some (Vector3.mk NaN NaN NaN)).
Proof.
  intros Hm Hc Ho HB.
  rewrite (Configurator_fit_proceeds this m cam ctl Hm Hc Ho). rewrite HB.
  unfold Configurator.pose, pose_of.
  cbn [final Configurator.camera Configurator.controls option_map].
  unfold orbit, update, target_set, lookAt, position_set.
  cbn [position lookingAt target minDistance maxDistance fov aspect projection].
  destruct (minDistance ctl), (maxDistance ctl); reflexivity.
Qed.

(** [loadSTLModel] on a geometry without extent: if the loader hands over
    vertices that all coincide (at a finite point), the largest dimension is
    0, the mesh is scaled by [100 / 0 = Infinity], and the fit then leaves
    every coordinate of the camera position, of its aim and of the orbit
    target [NaN].  The callback does not throw. *)
Theorem loadSTLModel_without_extent
        (geometry : Configurator.BufferGeometry) (this : Configurator.Viewer)
        (cam : PerspectiveCamera) (ctl : OrbitControls) (p : Vector3.t) :
  Configurator.attributes_position geometry <> [] ->
  Forall (fun q => q = p) (Configurator.attributes_position geometry) ->
  Vector3.finite p ->
  Configurator.camera this = Some cam ->
  Configurator.controls this = Some ctl ->
  let loaded := Configurator.loadSTLModel_onLoad geometry this in
  returns loaded
  /\ option_map Configurator.scale (Configurator.model (final loaded))
     = Some (Vector3.setScalar PInf)
  /\ Configurator.pose (final loaded)
     = (Some (Vector3.mk NaN NaN NaN), Some (Vector3.mk NaN NaN NaN),
        Some (Vector3.mk NaN NaN NaN)).
Proof.
  intros Hne Hall Hp Hc Ho loaded.
  destruct p as [[ | | | px] [ | | | py] [ | | | pz]];
    try (exfalso; destruct Hp as (H1 & H2 & H3); cbn in H1, H2, H3; tauto).
  set (p := Vector3.mk (Fin px) (Fin py) (Fin pz)) in *.
  set (pts := Configurator.attributes_position geometry) in *.
  assert (Hf : Forall Vector3.finite pts).
  { apply Forall_forall. intros q Hq.
    rewrite Forall_forall in Hall. rewrite (Hall q Hq). exact Hp. }
  assert (Hin : In p pts).
  { destruct pts as [ | q rest]; [congruence | ].
    left. apply (Forall_inv Hall). }
  assert (Ext : forall (f : Vector3.t -> number) (v : R),
             f p = Fin v -> least (map f pts) v /\ greatest (map f pts) v).
  { intros f v Hv.
    assert (A : In (Fin v) (map f pts)) by (rewrite <- Hv; now apply in_map).
    assert (B : forall r, In (Fin r) (map f pts) -> r = v).
    { intros r Hr. apply in_map_iff in Hr. destruct Hr as (q & Hq & Hqin).
      rewrite Forall_forall in Hall. rewrite (Hall q Hqin), Hv in Hq.
      now apply Fin_inj in Hq. }
    split; (split; [exact A | intros r Hr; rewrite (B r Hr); lra]). }
  destruct (Ext Vector3.x px eq_refl) as [Lx Gx].
  destruct (Ext Vector3.y py eq_refl) as [Ly Gy].
  destruct (Ext Vector3.z pz eq_refl) as [Lz Gz].
  pose proof (centerAndScale_runs_any geometry this px py pz px py pz
                Hf Lx Ly Lz Gx Gy Gz) as Run.
  cbv zeta in Run. fold pts in Run.
  assert (EM : Rmax (Rmax (px - px) (py - py)) (pz - pz) = 0)
    by (unfold Rmax; repeat destruct (Rle_dec _ _); lra).
  assert (ES : (Fin 100 / Fin 0)%js = PInf).
  { unfold div. rewrite Reqb_true by reflexivity. rewrite Reqb_false by lra.
    unfold Rltb. destruct (Rlt_dec 0 100); [reflexivity | lra]. }
  rewrite EM, ES in Run.
  replace (bounds (px + - ((px + px) * 0.5), py + - ((py + py) * 0.5),
                   pz + - ((pz + pz) * 0.5))
                  (px + - ((px + px) * 0.5), py + - ((py + py) * 0.5),
                   pz + - ((pz + pz) * 0.5)))
    with (bounds (0, 0, 0) (0, 0, 0)) in Run
    by (unfold bounds; repeat first [ apply (f_equal Fin); lra | progress f_equal ]).
  unfold loaded, Configurator.loadSTLModel_onLoad, bind. rewrite Run.
  match goal with
  | |- context [Configurator.fitCameraToModel (Configurator.set_model ?m this)] =>
      set (mesh := m)
  end.
  pose proof (setFromObject_point_infinite
                (Configurator.attributes_position (Configurator.geometry mesh))) as HB.
  change (Configurator.mkMesh _ _) with mesh in HB.
  split; [ | split].
  - rewrite (Configurator_fit_proceeds (Configurator.set_model mesh this) mesh cam ctl
               eq_refl Hc Ho). exact I.
  - rewrite Configurator_fit_keeps_model. reflexivity.
  - apply (Configurator_fit_NaN (Configurator.set_model mesh this) mesh cam ctl
             eq_refl Hc Ho HB).
Qed.

Lemma loadSTLModel_without_extent_witness :
  Configurator.pose
    (final (Configurator.loadSTLModel_onLoad
              (Configurator.mkGeometry [Vector3.mk (Fin 1) (Fin 2) (Fin 3)] None)
              (Configurator_setupViewer (mkCanvas 800 600))))
  = (Some (Vector3.mk NaN NaN NaN), Some (Vector3.mk NaN NaN NaN),
     Some (Vector3.mk NaN NaN NaN)).
Proof.
  refine (proj2 (proj2 (loadSTLModel_without_extent
                          (Configurator.mkGeometry [Vector3.mk (Fin 1) (Fin 2) (Fin 3)] None)
                          (Configurator_setupViewer (mkCanvas 800 600)) _ _
                          (Vector3.mk (Fin 1) (Fin 2) (Fin 3))
                          _ _ _ eq_refl eq_refl))).
  - discriminate.
  - repeat constructor.
  - repeat split.
Defined.

(** ** The master library: the mesh that [loadModel] builds *)

Lemma quarter_turn_half :
  sin (- (PI / 2) / 2) * sin (- (PI / 2) / 2) = 1 / 2
  /\ cos (- (PI / 2) / 2) * sin (- (PI / 2) / 2) = - (1 / 2)
  /\ sin (0 / 2) = 0 /\ cos (0 / 2) = 1.
Proof.
  replace (- (PI / 2) / 2) with (- (PI / 4)) by lra.
  replace (0 / 2) with 0 by lra.
  rewrite sin_neg, cos_neg, sin_PI4, cos_PI4, sin_0, cos_0.
  assert (H : sqrt 2 * sqrt 2 = 2) by (apply sqrt_sqrt; lra).
  assert (P : 0 < sqrt 2) by (apply sqrt_lt_R0; lra).
  set (r := 1 / sqrt 2).
  assert (R1 : r * sqrt 2 = 1) by (unfold r; field; lra).
  assert (R2 : r * r * (sqrt 2 * sqrt 2) = 1)
    by (replace (r * r * (sqrt 2 * sqrt 2)) with ((r * sqrt 2) * (r * sqrt 2)) by ring;
        rewrite R1; ring).
  rewrite H in R2.
  repeat split; lra.
Qed.

(** The world matrix of a mesh turned by [-Math.PI / 2] about the [x] axis
    and placed at a finite position takes [(x, y, z)] to [(x, z, -y)], moved
    by the position. *)
Lemma matrixWorld_turned (i : nat) (pts : list Vector3.t) (tx ty tz x y z : R) :
  Vector3_applyMatrix4
    (Vector3.mk (Fin x) (Fin y) (Fin z))
    (MasterInstance.matrixWorld
       (MasterInstance.mkMesh i pts (Vector3.mk (Fin tx) (Fin ty) (Fin tz))
          (Vector3.mk (- (Math_PI / Fin 2))%js (Fin 0) (Fin 0))))
  = Vector3.mk (Fin (x + tx)) (Fin (z + ty)) (Fin (- y + tz)).
Proof.
  unfold MasterInstance.matrixWorld, Quaternion.setFromEuler.
  cbn [MasterInstance.position MasterInstance.rotation Vector3.x Vector3.y Vector3.z].
  unfold Math_PI. rewrite !div_Fin by lra.
  change (- Fin (PI / 2))%js with (Fin (- (PI / 2))). rewrite !div_Fin by lra.
  unfold Math_cos, Math_sin.
  destruct quarter_turn_half as (SS & CS & S0 & C0).
  rewrite S0, C0.
  set (S := sin (- (PI / 2) / 2)) in *. set (C := cos (- (PI / 2) / 2)) in *.
  unfold Matrix4.compose, Vector3_applyMatrix4, Vector3.setScalar.
  cbn [Quaternion.x Quaternion.y Quaternion.z Quaternion.w
       Vector3.x Vector3.y Vector3.z
       Matrix4.e0 Matrix4.e1 Matrix4.e2 Matrix4.e3 Matrix4.e4 Matrix4.e5 Matrix4.e6
       Matrix4.e7 Matrix4.e8 Matrix4.e9 Matrix4.e10 Matrix4.e11 Matrix4.e12
       Matrix4.e13 Matrix4.e14 Matrix4.e15].
  unfold sub, neg, add, mul.
  rewrite div_Fin by lra.
  unfold mul.
  assert (W : 1 / (0 * x + 0 * y + 0 * z + 1) = 1) by (field; lra).
  rewrite W. clearbody S C.
  pose proof (f_equal (fun v => v * x) SS) as SSx.
  pose proof (f_equal (fun v => v * y) SS) as SSy.
  pose proof (f_equal (fun v => v * z) SS) as SSz.
  pose proof (f_equal (fun v => v * x) CS) as CSx.
  pose proof (f_equal (fun v => v * y) CS) as CSy.
  pose proof (f_equal (fun v => v * z) CS) as CSz.
  cbv beta in SSx, SSy, SSz, CSx, CSy, CSz.
  apply (f_equal3 Vector3.mk); apply (f_equal Fin); lra.
Qed.

(** The world box of such a mesh whose geometry has finite vertices. *)
Lemma setFromObject_turned (i : nat) (pts : list Vector3.t)
      (lx ly lz hx hy hz tx ty tz : R) :
  Forall Vector3.finite pts ->
  least (map Vector3.x pts) lx -> least (map Vector3.y pts) ly ->
  least (map Vector3.z pts) lz ->
  greatest (map Vector3.x pts) hx -> greatest (map Vector3.y pts) hy ->
  greatest (map Vector3.z pts) hz ->
  MasterInstance.setFromObject
    (MasterInstance.mkMesh i pts (Vector3.mk (Fin tx) (Fin ty) (Fin tz))
       (Vector3.mk (- (Math_PI / Fin 2))%js (Fin 0) (Fin 0)))
  = bounds (lx + tx, lz + ty, - hy + tz) (hx + tx, hz + ty, - ly + tz).
Proof.
  intros Hf Lx Ly Lz Gx Gy Gz.
  pose proof (least_le_greatest _ _ _ Lx Gx) as Hx.
  pose proof (least_le_greatest _ _ _ Ly Gy) as Hy.
  pose proof (least_le_greatest _ _ _ Lz Gz) as Hz.
  unfold MasterInstance.setFromObject. cbn [MasterInstance.attributes_position].
  rewrite (setFromPoints_bounds pts lx ly lz hx hy hz) by assumption.
  unfold Box3.applyMatrix4. rewrite isEmpty_bounds by assumption.
  unfold bounds at 1. unfold Box3.corners.
  cbn [map Box3.min Box3.max Vector3.x Vector3.y Vector3.z].
  rewrite !matrixWorld_turned.
  rewrite (setFromPoints_bounds _ (lx + tx) (lz + ty) (- hy + tz)
                                (hx + tx) (hz + ty) (- ly + tz)).
  - apply union_makeEmpty_bounds.
  - repeat constructor.
  - explicit_extreme.
  - explicit_extreme.
  - explicit_extreme.
  - explicit_extreme.
  - explicit_extreme.
  - explicit_extreme.
Qed.

(** *** [lift]: the viewer code on the instance *)

Lemma lift_final {A} (m : M Master.Viewer A) (this : MasterInstance.Instance) :
  final (MasterInstance.lift m this)
  = MasterInstance.with_viewer (final (m (MasterInstance.viewer this))) this.
Proof.
  unfold MasterInstance.lift. destruct (m (MasterInstance.viewer this)); reflexivity.
Qed.

Lemma lift_returns {A} (m : M Master.Viewer A) (this : MasterInstance.Instance) :
  returns (m (MasterInstance.viewer this)) -> returns (MasterInstance.lift m this).
Proof.
  unfold MasterInstance.lift. destruct (m (MasterInstance.viewer this)); trivial.
Qed.

(** *** The callback of [loadModel], step by step *)

(** The mesh as the callback creates it, and as it leaves it. *)
Lemma loadModel_onLoad_runs (geometry : list Vector3.t)
      (this : MasterInstance.Instance) (children : list nat) :
  MasterInstance.scene this = Some children ->
  let w := MasterInstance.window this in
  let created :=
    MasterInstance.mkMesh (MasterInstance.object3DId w) geometry Vector3.zero
                          (Vector3.mk (- (Math_PI / Fin 2))%js (Fin 0) (Fin 0)) in
  let mesh :=
    MasterInstance.position_sub
      (Box3.getCenter (MasterInstance.setFromObject created)) created in
  let grid :=
    match MasterInstance.gridHelper this with
    | Some _ =>
        Some (MasterInstance.mkGridHelper
                (Vector3.y (Box3.min (MasterInstance.setFromObject mesh)) - Fin 0.1)%js)
    | None => None
    end in
  let placed :=
    MasterInstance.mkInstance
      (MasterInstance.mkWindow (MasterInstance.THREE w) (MasterInstance.DRACOLoader w)
                               (S (MasterInstance.object3DId w))
                               (MasterInstance.callback_identifier w)
                               (MasterInstance.callbacks w))
      (MasterInstance.canvas this)
      (Some (children ++ [MasterInstance.object3DId w]))
      (MasterInstance.camera this) (MasterInstance.renderer this)
      (MasterInstance.controls this) (Some mesh) grid
      (MasterInstance.animationFrameId this) in
  MasterInstance.loadModel_onLoad geometry this
  = Normal mesh
      (MasterInstance.with_viewer
         (final (Master._fitCameraToModel (Some (MasterInstance.world mesh))
                                          (MasterInstance.viewer placed)))
         placed).
Proof.
  intros Hs w created mesh grid placed.
  destruct (Master_fit_total (Some (MasterInstance.world mesh))
                             (MasterInstance.viewer placed)) as (v & Ev).
  transitivity
    (bind (MasterInstance.lift
             (Master._fitCameraToModel (Some (MasterInstance.world mesh))))
          (fun _ => ret mesh) placed);
    [ | unfold bind, MasterInstance.lift; rewrite Ev; reflexivity].
  subst w created mesh grid placed.
  destruct this as [win cv sc cam rnd ctl cur [g | ] fid]; cbn in Hs; subst sc;
    reflexivity.
Qed.

(** The world box of the mesh the callback leaves: that of the turned
    geometry, centred at the origin. *)
Lemma loadModel_mesh_box (i : nat) (geometry : list Vector3.t)
      (lx ly lz hx hy hz : R) :
  Forall Vector3.finite geometry ->
  least (map Vector3.x geometry) lx -> least (map Vector3.y geometry) ly ->
  least (map Vector3.z geometry) lz ->
  greatest (map Vector3.x geometry) hx -> greatest (map Vector3.y geometry) hy ->
  greatest (map Vector3.z geometry) hz ->
  let created :=
    MasterInstance.mkMesh i geometry Vector3.zero
                          (Vector3.mk (- (Math_PI / Fin 2))%js (Fin 0) (Fin 0)) in
  let mesh :=
    MasterInstance.position_sub
      (Box3.getCenter (MasterInstance.setFromObject created)) created in
  MasterInstance.setFromObject mesh
  = bounds (- ((hx - lx) / 2), - ((hz - lz) / 2), - ((hy - ly) / 2))
           ((hx - lx) / 2, (hz - lz) / 2, (hy - ly) / 2).
Proof.
  intros Hf Lx Ly Lz Gx Gy Gz created mesh.
  pose proof (least_le_greatest _ _ _ Lx Gx) as Hx.
  pose proof (least_le_greatest _ _ _ Ly Gy) as Hy.
  pose proof (least_le_greatest _ _ _ Lz Gz) as Hz.
  pose proof (setFromObject_turned i geometry lx ly lz hx hy hz 0 0 0
                Hf Lx Ly Lz Gx Gy Gz) as E0.
  change (MasterInstance.mkMesh i geometry _ _) with created in E0.
  unfold mesh, MasterInstance.position_sub. rewrite E0.
  rewrite getCenter_bounds by lra.
  cbn [MasterInstance.id MasterInstance.attributes_position MasterInstance.position
       MasterInstance.rotation created].
  change (Vector3.subVectors Vector3.zero
            (Vector3.mk (Fin ((lx + 0 + (hx + 0)) * 0.5))
                        (Fin ((lz + 0 + (hz + 0)) * 0.5))
                        (Fin ((- hy + 0 + (- ly + 0)) * 0.5))))
    with (Vector3.mk (Fin (0 + - ((lx + 0 + (hx + 0)) * 0.5)))
                     (Fin (0 + - ((lz + 0 + (hz + 0)) * 0.5)))
                     (Fin (0 + - ((- hy + 0 + (- ly + 0)) * 0.5)))).
  rewrite (setFromObject_turned i geometry lx ly lz hx hy hz) by assumption.
  unfold bounds.
  repeat first [ apply (f_equal Fin); lra | progress f_equal ].
Qed.

(** The callback of [loadModel] centres the model: for a decoded geometry of
    finite vertices, with the scene there, the callback returns the new mesh,
    which is then the current model and the last child of the scene; the
    world box of the mesh is the box of the geometry turned from Z-up to
    Y-up and centred at the origin, and a grid helper, if there is one, sits
    0.1 below the bottom of that box. *)
Theorem loadModel_centres_model
        (geometry : list Vector3.t) (this : MasterInstance.Instance)
        (children : list nat) (lx ly lz hx hy hz : R) :
  Forall Vector3.finite geometry ->
  least (map Vector3.x geometry) lx -> least (map Vector3.y geometry) ly ->
  least (map Vector3.z geometry) lz ->
  greatest (map Vector3.x geometry) hx -> greatest (map Vector3.y geometry) hy ->
  greatest (map Vector3.z geometry) hz ->
  MasterInstance.scene this = Some children ->
  exists (mesh : MasterInstance.Mesh) (this' : MasterInstance.Instance),
    MasterInstance.loadModel_onLoad geometry this = Normal mesh this'
    /\ MasterInstance.currentModel this' = Some mesh
    /\ MasterInstance.scene this' = Some (children ++ [MasterInstance.id mesh])
    /\ MasterInstance.setFromObject mesh
       = bounds (- ((hx - lx) / 2), - ((hz - lz) / 2), - ((hy - ly) / 2))
                ((hx - lx) / 2, (hz - lz) / 2, (hy - ly) / 2)
    /\ option_map MasterInstance.position_y (MasterInstance.gridHelper this')
       = option_map (fun _ => Fin (- ((hz - lz) / 2) - 0.1))
                    (MasterInstance.gridHelper this).
Proof.
  intros Hf Lx Ly Lz Gx Gy Gz Hs.
  pose proof (loadModel_onLoad_runs geometry this children Hs) as Run.
  cbv zeta in Run.
  pose proof (loadModel_mesh_box (MasterInstance.object3DId (MasterInstance.window this))
                geometry lx ly lz hx hy hz Hf Lx Ly Lz Gx Gy Gz) as HB.
  cbv zeta in HB.
  eexists. eexists. split; [exact Run | ].
  split; [reflexivity | ]. split; [reflexivity | ]. split; [exact HB | ].
  cbn [MasterInstance.with_viewer MasterInstance.gridHelper].
  destruct (MasterInstance.gridHelper this) as [g | ]; [ | reflexivity].
  cbn [option_map MasterInstance.position_y]. rewrite HB.
  unfold bounds. cbn [Box3.min Vector3.y].
  unfold sub, neg, add. reflexivity.
Qed.

Lemma loadModel_centres_model_witness :
  let this :=
    MasterInstance.mkInstance
      (MasterInstance.mkWindow true true 9%nat 0%N [])
      (mkCanvas 800 600) (Some [3; 4; 6; 8]%nat)
      (Master.camera (Master_initThreeJS (mkCanvas 800 600)))
      (Master.renderer (Master_initThreeJS (mkCanvas 800 600)))
      (Master.controls (Master_initThreeJS (mkCanvas 800 600)))
      None (Some (MasterInstance.mkGridHelper (Fin 0))) None in
  exists (mesh : MasterInstance.Mesh) (this' : MasterInstance.Instance),
    MasterInstance.loadModel_onLoad
      [Vector3.zero; Vector3.mk (Fin 20) (Fin 10) (Fin 4)] this
    = Normal mesh this'
    /\ MasterInstance.setFromObject mesh
       = bounds (- ((20 - 0) / 2), - ((4 - 0) / 2), - ((10 - 0) / 2))
                ((20 - 0) / 2, (4 - 0) / 2, (10 - 0) / 2)
    /\ option_map MasterInstance.position_y (MasterInstance.gridHelper this')
       = Some (Fin (- ((4 - 0) / 2) - 0.1)).
Proof.
  intros this.
  destruct (loadModel_centres_model
              [Vector3.zero; Vector3.mk (Fin 20) (Fin 10) (Fin 4)] this
              [3; 4; 6; 8]%nat 0 0 0 20 10 4)
    as (mesh & this' & Run & _ & _ & HB & HG).
  - repeat constructor.
  - explicit_extreme.
  - explicit_extreme.
  - explicit_extreme.
  - explicit_extreme.
  - explicit_extreme.
  - explicit_extreme.
  - reflexivity.
  - exists mesh, this'. split; [exact Run | ]. split; [exact HB | exact HG].
Defined.

(** *** The render loop of the master library and the fitted pose *)

(** Past its guards, with the distance limits that [new OrbitControls] sets
    and a finite centre, the master fit leaves a camera that a further
    [controls.update()] leaves as it is. *)
Lemma Master_fit_settled (model : Master.Object3D) (this : Master.Viewer)
      (cam : PerspectiveCamera) (ctl : OrbitControls) (rnd : WebGLRenderer) :
  Master.camera this = Some cam ->
  Master.controls this = Some ctl ->
  Master.renderer this = Some rnd ->
  clientWidth (Master.canvas this) <> 0%N ->
  minDistance ctl = Fin 0 ->
  maxDistance ctl = PInf ->
  Vector3.finite (Box3.getCenter (Master.setFromObject model)) ->
  exists (c : PerspectiveCamera) (o : OrbitControls),
    Master.camera (final (Master._fitCameraToModel (Some model) this)) = Some c
    /\ Master.controls (final (Master._fitCameraToModel (Some model) this)) = Some o
    /\ orbit o c = c.
Proof.
  intros Hc Ho Hr Hw Hmin Hmax Hfin.
  pose proof (aspect_guard_passes _ (clientHeight (Master.canvas this)) Hw) as A.
  rewrite (Master_fit_proceeds model this cam ctl rnd Hc Ho Hr A). cbv zeta.
  cbn [final Master.camera Master.controls].
  eexists. eexists. split; [reflexivity | ]. split; [reflexivity | ].
  set (center := Box3.getCenter (Master.setFromObject model)) in *.
  set (o1 := target_set center ctl).
  match goal with |- orbit _ (orbit o1 ?c) = _ => set (c0 := c) end.
  change (orbit (update o1) (orbit o1 c0)) with (orbit o1 (orbit o1 c0)).
  match type of c0 with _ => idtac end.
  assert (P0 : exists d, position c0 = Vector3.mk d (d * Fin 0.7)%js d)
    by (eexists; reflexivity).
  destruct P0 as (d & P0).
  pose proof (orbit_default_diagonal o1 c0 d Hmin Hmax Hfin P0) as P1.
  apply orbit_fixed; [ | reflexivity].
  apply (orbit_default_diagonal o1 (orbit o1 c0) d Hmin Hmax Hfin).
  rewrite P1. exact P0.
Qed.

Lemma MasterInstance_animate_settled (this : MasterInstance.Instance)
      (c : PerspectiveCamera) (o : OrbitControls) :
  MasterInstance.camera this = Some c ->
  MasterInstance.controls this = Some o ->
  orbit o c = c ->
  MasterInstance.camera (final (MasterInstance.animate this)) = Some c
  /\ MasterInstance.controls (final (MasterInstance.animate this)) = Some (update o).
Proof.
  intros Hc Ho Hfix.
  destruct this as [win cv sc cam rnd ctl cur gr fid]. cbn in Hc, Ho. subst cam ctl.
  unfold MasterInstance.animate, MasterInstance.requestAnimationFrame,
    MasterInstance.lift, Master.controls_update, Master.this_controls. run.
  rewrite Hfix. split; reflexivity.
Qed.

Lemma MasterInstance_callbacks_settled (handles : list N) :
  forall (this : MasterInstance.Instance) (c : PerspectiveCamera) (o : OrbitControls),
    MasterInstance.camera this = Some c ->
    MasterInstance.controls this = Some o ->
    orbit o c = c ->
    exists o',
      MasterInstance.camera (MasterInstance.run_callbacks handles this) = Some c
      /\ MasterInstance.controls (MasterInstance.run_callbacks handles this) = Some o'
      /\ orbit o' c = c.
Proof.
  induction handles as [ | h rest IH]; intros this c o Hc Ho Hfix.
  - exists o. repeat split; assumption.
  - cbn [MasterInstance.run_callbacks].
    destruct (MasterInstance_animate_settled this c o Hc Ho Hfix) as [A B].
    apply (IH _ c (update o) A B). exact Hfix.
Qed.

Lemma MasterInstance_frames_settled (n : nat) (this : MasterInstance.Instance)
      (c : PerspectiveCamera) (o : OrbitControls) :
  MasterInstance.camera this = Some c ->
  MasterInstance.controls this = Some o ->
  orbit o c = c ->
  exists o',
    MasterInstance.camera (Nat.iter n MasterInstance.frame this) = Some c
    /\ MasterInstance.controls (Nat.iter n MasterInstance.frame this) = Some o'
    /\ orbit o' c = c.
Proof.
  intros Hc Ho Hfix.
  induction n as [ | n (o' & Hc' & Ho' & Hf')].
  - exists o. repeat split; assumption.
  - cbn [Nat.iter]. unfold MasterInstance.frame at 1.
    apply (MasterInstance_callbacks_settled _ _ c o'); [ | | exact Hf'].
    + exact Hc'.
    + exact Ho'.
Qed.

(** [loadModel] frames the model, and the render loop keeps it framed: for
    a decoded geometry of finite vertices, on an instance as [initThreeJS]
    leaves it (scene, renderer and controls there, the camera of 45 degrees
    with near plane 0.1 and far plane 1000, a canvas of non-zero width and
    height whose aspect ratio the projection has, the default distance
    limits of the controls), if the largest side of the geometry's box is
    0.1 at least and 265 times the smaller of 1 and the aspect ratio at
    most, every vertex of the world box of the loaded mesh is within the six
    planes of the view frustum after the callback, and still after any
    number of animation frames. *)
Theorem loadModel_frames_model
        (geometry : list Vector3.t) (this : MasterInstance.Instance)
        (children : list nat) (cam : PerspectiveCamera) (ctl : OrbitControls)
        (rnd : WebGLRenderer) (lx ly lz hx hy hz : R) :
  Forall Vector3.finite geometry ->
  least (map Vector3.x geometry) lx -> least (map Vector3.y geometry) ly ->
  least (map Vector3.z geometry) lz ->
  greatest (map Vector3.x geometry) hx -> greatest (map Vector3.y geometry) hy ->
  greatest (map Vector3.z geometry) hz ->
  MasterInstance.scene this = Some children ->
  MasterInstance.camera this = Some cam ->
  MasterInstance.controls this = Some ctl ->
  MasterInstance.renderer this = Some rnd ->
  clientWidth (MasterInstance.canvas this) <> 0%N ->
  clientHeight (MasterInstance.canvas this) <> 0%N ->
  minDistance ctl = Fin 0 ->
  maxDistance ctl = PInf ->
  fov cam = Fin 45 ->
  projection cam
  = (Fin 45, (of_N (clientWidth (MasterInstance.canvas this))
              / of_N (clientHeight (MasterInstance.canvas this)))%js) ->
  let a := IZR (Z.of_N (clientWidth (MasterInstance.canvas this)))
           / IZR (Z.of_N (clientHeight (MasterInstance.canvas this))) in
  let maxDim := Rmax (Rmax (hx - lx) (hy - ly)) (hz - lz) in
  0.1 <= maxDim <= 265 * Rmin 1 a ->
  let loaded := final (MasterInstance.loadModel_onLoad geometry this) in
  exists mesh : MasterInstance.Mesh,
    MasterInstance.currentModel loaded = Some mesh
    /\ forall n : nat,
         box_drawn (MasterInstance.camera (Nat.iter n MasterInstance.frame loaded))
                   (MasterInstance.setFromObject mesh).
Proof.
  intros Hf Lx Ly Lz Gx Gy Gz Hs Hc Ho Hr Hw Hh Hmin Hmax Hfov Hp a maxDim HM loaded.
  pose proof (least_le_greatest _ _ _ Lx Gx) as Hx.
  pose proof (least_le_greatest _ _ _ Ly Gy) as Hy.
  pose proof (least_le_greatest _ _ _ Lz Gz) as Hz.
  pose proof (loadModel_onLoad_runs geometry this children Hs) as Run.
  cbv zeta in Run.
  pose proof (loadModel_mesh_box (MasterInstance.object3DId (MasterInstance.window this))
                geometry lx ly lz hx hy hz Hf Lx Ly Lz Gx Gy Gz) as HB.
  cbv zeta in HB.
  match type of Run with
  | _ = Normal ?m (MasterInstance.with_viewer (final (_ (MasterInstance.viewer ?p))) _) =>
      set (mesh := m) in *; set (placed := p) in *
  end.
  exists mesh. unfold loaded. rewrite Run. cbn [final].
  match goal with
  | |- MasterInstance.currentModel ?s = _ /\ _ => set (inst := s)
  end.
  split; [reflexivity | ].
  assert (HB' : Master.setFromObject (MasterInstance.world mesh)
                = bounds (- ((hx - lx) / 2), - ((hz - lz) / 2), - ((hy - ly) / 2))
                         ((hx - lx) / 2, (hz - lz) / 2, (hy - ly) / 2))
    by exact HB.
  assert (EM : Rmax (Rmax (2 * ((hx - lx) / 2)) (2 * ((hz - lz) / 2)))
                    (2 * ((hy - ly) / 2))
               = maxDim).
  { unfold maxDim, Rmax. repeat destruct (Rle_dec _ _); lra. }
  assert (View : box_drawn
                   (Master.camera
                      (final (Master._fitCameraToModel
                                (Some (MasterInstance.world mesh))
                                (MasterInstance.viewer placed))))
                   (MasterInstance.setFromObject mesh)).
  { apply (Master_fit_drawn (MasterInstance.world mesh) (MasterInstance.viewer placed)
             cam ctl rnd ((hx - lx) / 2) ((hz - lz) / 2) ((hy - ly) / 2)
             Hc Ho Hr Hw Hh Hmin Hmax HB'); try lra; try assumption.
    rewrite EM. exact HM. }
  destruct (Master_fit_settled (MasterInstance.world mesh) (MasterInstance.viewer placed)
              cam ctl rnd Hc Ho Hr Hw Hmin Hmax) as (c & o & Ec & Eo & Hfix).
  { rewrite HB', getCenter_bounds by lra. repeat split. }
  intros n.
  destruct (MasterInstance_frames_settled n inst c o Ec Eo Hfix) as (o' & Ec' & _ & _).
  rewrite Ec'. rewrite <- Ec. exact View.
Qed.

Lemma loadModel_frames_model_witness :
  let this :=
    MasterInstance.mkInstance
      (MasterInstance.mkWindow true true 9%nat 0%N [])
      (mkCanvas 800 600) (Some [3; 4; 6; 8]%nat)
      (Master.camera (Master_initThreeJS (mkCanvas 800 600)))
      (Master.renderer (Master_initThreeJS (mkCanvas 800 600)))
      (Master.controls (Master_initThreeJS (mkCanvas 800 600)))
      None (Some (MasterInstance.mkGridHelper (Fin 0))) None in
  let loaded :=
    final (MasterInstance.loadModel_onLoad
             [Vector3.zero; Vector3.mk (Fin 20) (Fin 10) (Fin 4)] this) in
  exists mesh : MasterInstance.Mesh,
    MasterInstance.currentModel loaded = Some mesh
    /\ box_drawn (MasterInstance.camera (Nat.iter 2 MasterInstance.frame loaded))
                 (MasterInstance.setFromObject mesh).
Proof.
  intros this loaded.
  destruct (loadModel_frames_model
              [Vector3.zero; Vector3.mk (Fin 20) (Fin 10) (Fin 4)] this
              [3; 4; 6; 8]%nat _ _ _ 0 0 0 20 10 4
              ltac:(repeat constructor)
              ltac:(explicit_extreme) ltac:(explicit_extreme) ltac:(explicit_extreme)
              ltac:(explicit_extreme) ltac:(explicit_extreme) ltac:(explicit_extreme)
              eq_refl eq_refl eq_refl eq_refl
              ltac:(cbn; lia) ltac:(cbn; lia) eq_refl eq_refl eq_refl eq_refl)
    as (mesh & Hm & Hv).
  - cbn. unfold Rmax, Rmin. repeat destruct (Rle_dec _ _); lra.
  - exists mesh. split; [exact Hm | exact (Hv 2%nat)].
Defined.

(** ** Starting a load, and loads that overlap *)

(** Taking a child out of a list that holds no child twice leaves the list
    without it; the other children stay. *)
Lemma splice_first_not_In (object : nat) (children : list nat) :
  NoDup children -> ~ In object (MasterInstance.splice_first object children).
Proof.
  induction 1 as [ | child rest Hn Hnd IH]; cbn [MasterInstance.splice_first].
  - intros [].
  - destruct (Nat.eqb_spec child object) as [-> | Hne]; [exact Hn | ].
    intros [E | Hin]; [exact (Hne E) | exact (IH Hin)].
Qed.

Lemma splice_first_In_other (object other : nat) (children : list nat) :
  other <> object -> In other children ->
  In other (MasterInstance.splice_first object children).
Proof.
  intros Hne. induction children as [ | child rest IH];
    cbn [MasterInstance.splice_first]; [intros [] | ].
  intros [E | Hin].
  - subst child. destruct (Nat.eqb_spec other object); [contradiction | now left].
  - destruct (Nat.eqb_spec child object); [exact Hin | right; exact (IH Hin)].
Qed.

(** With its prerequisites there, [loadModel] takes the current model, if
    any, out of the scene and out of the instance, and starts the loader. *)
Lemma loadModel_runs (this : MasterInstance.Instance) (children : list nat) :
  MasterInstance.THREE (MasterInstance.window this) = true ->
  MasterInstance.DRACOLoader (MasterInstance.window this) = true ->
  MasterInstance.scene this = Some children ->
  MasterInstance.loadModel this
  = Normal None
      (match MasterInstance.currentModel this with
       | Some model =>
           MasterInstance.set_currentModel
             None
             (MasterInstance.set_scene
                (MasterInstance.splice_first (MasterInstance.id model) children) this)
       | None => this
       end).
Proof.
  intros H3 HD Hs.
  destruct this as [win cv sc cam rnd ctl cur gr fid]. cbn in H3, HD, Hs. subst sc.
  unfold MasterInstance.loadModel, MasterInstance.scene_remove,
    MasterInstance.this_scene. unfold bind, get, ret, deref, modify.
  cbn [MasterInstance.window MasterInstance.scene MasterInstance.currentModel].
  rewrite H3, HD. cbn [negb falsy].
  destruct cur as [model | ]; reflexivity.
Qed.

(** Without a model, [handleResize] leaves the pose as it is. *)
Lemma MasterInstance_handleResize_no_model (this : MasterInstance.Instance) :
  MasterInstance.currentModel this = None ->
  MasterInstance.pose (final (MasterInstance.handleResize this))
  = MasterInstance.pose this.
Proof.
  intros Hm. unfold MasterInstance.handleResize. rewrite lift_final.
  destruct this as [win cv sc cam rnd ctl cur gr fid]. cbn in Hm. subst cur.
  unfold MasterInstance.pose, MasterInstance.viewer, MasterInstance.with_viewer.
  cbn [MasterInstance.canvas MasterInstance.camera MasterInstance.renderer
       MasterInstance.controls MasterInstance.currentModel option_map].
  unfold Master.handleResize, Master.on_camera, Master.on_renderer,
    Master.this_camera, Master.this_renderer. run.
  destruct ((clientWidth cv =? 0)%N || (clientHeight cv =? 0)%N); [reflexivity | ].
  destruct cam as [c | ]; [ | reflexivity].
  destruct rnd as [r | ]; reflexivity.
Qed.

(** Beginning a reload discards the model on display: with three.js, its
    [DRACOLoader] and the scene there (no child in it twice, as three.js
    keeps its children), [loadModel] returns without rejecting the promise,
    the instance then has no current model and the scene no longer holds
    the mesh that was the current model; nothing else has changed.  Until the loader calls back (and for good if decoding
    fails), a resize therefore leaves the camera pose where it is. *)
Theorem loadModel_discards_current_model
        (this : MasterInstance.Instance) (children : list nat)
        (model : MasterInstance.Mesh) :
  MasterInstance.THREE (MasterInstance.window this) = true ->
  MasterInstance.DRACOLoader (MasterInstance.window this) = true ->
  MasterInstance.scene this = Some children ->
  NoDup children ->
  MasterInstance.currentModel this = Some model ->
  let started := final (MasterInstance.loadModel this) in
  MasterInstance.loadModel this
  = Normal None
      (MasterInstance.set_currentModel
         None
         (MasterInstance.set_scene
            (MasterInstance.splice_first (MasterInstance.id model) children) this))
  /\ MasterInstance.currentModel started = None
  /\ (forall children', MasterInstance.scene started = Some children' ->
      ~ In (MasterInstance.id model) children')
  /\ MasterInstance.pose (final (MasterInstance.handleResize started))
     = MasterInstance.pose this.
Proof.
  intros H3 HD Hs Hnd Hm started.
  pose proof (loadModel_runs this children H3 HD Hs) as Run.
  rewrite Hm in Run. unfold started. rewrite Run. cbn [final].
  split; [reflexivity | ]. split; [reflexivity | ]. split.
  - intros children' E. cbn in E. injection E as E. subst children'.
    now apply splice_first_not_In.
  - rewrite MasterInstance_handleResize_no_model by reflexivity. reflexivity.
Qed.

Lemma loadModel_discards_current_model_witness :
  let model :=
    MasterInstance.mkMesh 9 [Vector3.zero] Vector3.zero
                          (Vector3.mk (- (Math_PI / Fin 2))%js (Fin 0) (Fin 0)) in
  let this :=
    MasterInstance.mkInstance
      (MasterInstance.mkWindow true true 10%nat 0%N [])
      (mkCanvas 800 600) (Some [3; 4; 6; 8; 9]%nat)
      (Master.camera (Master_initThreeJS (mkCanvas 800 600)))
      (Master.renderer (Master_initThreeJS (mkCanvas 800 600)))
      (Master.controls (Master_initThreeJS (mkCanvas 800 600)))
      (Some model) (Some (MasterInstance.mkGridHelper (Fin 0))) None in
  MasterInstance.currentModel (final (MasterInstance.loadModel this)) = None
  /\ MasterInstance.pose
       (final (MasterInstance.handleResize (final (MasterInstance.loadModel this))))
     = MasterInstance.pose this.
Proof.
  intros model this.
  assert (Hnd : NoDup [3; 4; 6; 8; 9]%nat)
    by (repeat constructor; cbn; intuition discriminate).
  destruct (loadModel_discards_current_model this [3; 4; 6; 8; 9]%nat model
              eq_refl eq_refl eq_refl Hnd eq_refl) as (_ & A & _ & B).
  split; [exact A | exact B].
Defined.

(** Two loads that overlap leave a stray mesh: if [loadModel] is called a
    second time before the loader has called back for the first, the two
    callbacks each add their mesh to the scene; only the second mesh is the
    current model, the first stays in the scene, and it is still there when
    a later load has taken the current model out. *)
Theorem overlapping_loads_leave_stray_mesh
        (this : MasterInstance.Instance) (children : list nat)
        (first second : list Vector3.t) :
  MasterInstance.THREE (MasterInstance.window this) = true ->
  MasterInstance.DRACOLoader (MasterInstance.window this) = true ->
  MasterInstance.scene this = Some children ->
  let begun := final (MasterInstance.loadModel (final (MasterInstance.loadModel this))) in
  exists (m1 m2 : MasterInstance.Mesh) (s1 s2 : MasterInstance.Instance)
         (shown later : list nat),
    MasterInstance.loadModel_onLoad first begun = Normal m1 s1
    /\ MasterInstance.loadModel_onLoad second s1 = Normal m2 s2
    /\ MasterInstance.id m1 <> MasterInstance.id m2
    /\ MasterInstance.currentModel s2 = Some m2
    /\ MasterInstance.scene s2 = Some shown
    /\ In (MasterInstance.id m1) shown /\ In (MasterInstance.id m2) shown
    /\ MasterInstance.currentModel (final (MasterInstance.loadModel s2)) = None
    /\ MasterInstance.scene (final (MasterInstance.loadModel s2)) = Some later
    /\ In (MasterInstance.id m1) later.
Proof.
  intros H3 HD Hs begun.
  pose proof (loadModel_runs this children H3 HD Hs) as Run0.
  set (s0 := final (MasterInstance.loadModel this)) in *.
  assert (P0 : MasterInstance.THREE (MasterInstance.window s0) = true
               /\ MasterInstance.DRACOLoader (MasterInstance.window s0) = true
               /\ MasterInstance.currentModel s0 = None
               /\ exists c0, MasterInstance.scene s0 = Some c0).
  { unfold s0. rewrite Run0. cbn [final].
    destruct (MasterInstance.currentModel this) as [m | ] eqn:Hm.
    - repeat split; try assumption. eexists. reflexivity.
    - repeat split; try assumption. exists children. exact Hs. }
  destruct P0 as (A3 & AD & Am & c0 & As).
  pose proof (loadModel_runs s0 c0 A3 AD As) as Run1. rewrite Am in Run1.
  assert (Eb : begun = s0) by (unfold begun; fold s0; rewrite Run1; reflexivity).
  rewrite Eb. clear Eb begun.
  pose proof (loadModel_onLoad_runs first s0 c0 As) as L1. cbv zeta in L1.
  match type of L1 with _ = Normal ?m ?s => set (m1 := m) in *; set (s1 := s) in * end.
  assert (As1 : MasterInstance.scene s1
                = Some (c0 ++ [MasterInstance.object3DId (MasterInstance.window s0)]))
    by reflexivity.
  pose proof (loadModel_onLoad_runs second s1 _ As1) as L2. cbv zeta in L2.
  match type of L2 with _ = Normal ?m ?s => set (m2 := m) in *; set (s2 := s) in * end.
  assert (I1 : MasterInstance.id m1 = MasterInstance.object3DId (MasterInstance.window s0))
    by reflexivity.
  assert (I2 : MasterInstance.id m2
               = S (MasterInstance.object3DId (MasterInstance.window s0)))
    by reflexivity.
  assert (As2 : MasterInstance.scene s2
                = Some ((c0 ++ [MasterInstance.id m1]) ++ [MasterInstance.id m2]))
    by reflexivity.
  assert (B3 : MasterInstance.THREE (MasterInstance.window s2) = true) by exact A3.
  assert (BD : MasterInstance.DRACOLoader (MasterInstance.window s2) = true) by exact AD.
  pose proof (loadModel_runs s2 _ B3 BD As2) as Run2.
  change (MasterInstance.currentModel s2) with (Some m2) in Run2.
  exists m1, m2, s1, s2. eexists. eexists.
  split; [exact L1 | ]. split; [exact L2 | ].
  split; [rewrite I1, I2; lia | ].
  split; [reflexivity | ]. split; [exact As2 | ].
  split; [apply in_or_app; left; apply in_or_app; right; now left | ].
  split; [apply in_or_app; right; now left | ].
  rewrite Run2. cbn [final].
  split; [reflexivity | ]. split; [reflexivity | ].
  apply splice_first_In_other; [rewrite I1, I2; lia | ].
  apply in_or_app; left; apply in_or_app; right; now left.
Qed.

Lemma overlapping_loads_leave_stray_mesh_witness :
  let this :=
    MasterInstance.mkInstance
      (MasterInstance.mkWindow true true 9%nat 0%N [])
      (mkCanvas 800 600) (Some [3; 4; 6; 8]%nat)
      (Master.camera (Master_initThreeJS (mkCanvas 800 600)))
      (Master.renderer (Master_initThreeJS (mkCanvas 800 600)))
      (Master.controls (Master_initThreeJS (mkCanvas 800 600)))
      None (Some (MasterInstance.mkGridHelper (Fin 0))) None in
  let begun := final (MasterInstance.loadModel (final (MasterInstance.loadModel this))) in
  exists (m1 m2 : MasterInstance.Mesh) (s1 s2 : MasterInstance.Instance)
         (shown : list nat),
    MasterInstance.loadModel_onLoad [Vector3.zero] begun = Normal m1 s1
    /\ MasterInstance.loadModel_onLoad [Vector3.zero] s1 = Normal m2 s2
    /\ MasterInstance.currentModel s2 = Some m2
    /\ MasterInstance.scene s2 = Some shown
    /\ In (MasterInstance.id m1) shown
    /\ MasterInstance.id m1 <> MasterInstance.id m2.
Proof.
  intros this begun.
  destruct (overlapping_loads_leave_stray_mesh this [3; 4; 6; 8]%nat
              [Vector3.zero] [Vector3.zero] eq_refl eq_refl eq_refl)
    as (m1 & m2 & s1 & s2 & shown & later & L1 & L2 & Hne & Hm & Hs & H1 & _).
  exists m1, m2, s1, s2, shown. repeat split; assumption.
Defined.

(** ** The render loop of the master library *)

Lemma iter_step {A} (n : nat) (f : A -> A) (x : A) :
  Nat.iter (S n) f x = f (Nat.iter n f x).
Proof. reflexivity. Qed.

Lemma iter_none {A} (f : A -> A) (x : A) : Nat.iter 0 f x = x.
Proof. reflexivity. Qed.

(** What a call of [animate] does to the bookkeeping: one more callback is
    pending, under a new handle, which is also [animationFrameId]; the
    controls, if there, have been updated once. *)
Lemma animate_effect (this : MasterInstance.Instance) :
  let w := MasterInstance.window this in
  let handle := (MasterInstance.callback_identifier w + 1)%N in
  MasterInstance.window (final (MasterInstance.animate this))
  = MasterInstance.mkWindow (MasterInstance.THREE w) (MasterInstance.DRACOLoader w)
                            (MasterInstance.object3DId w) handle
                            (MasterInstance.callbacks w ++ [handle])
  /\ MasterInstance.animationFrameId (final (MasterInstance.animate this)) = Some handle
  /\ MasterInstance.controls (final (MasterInstance.animate this))
     = option_map update (MasterInstance.controls this).
Proof.
  destruct this as [win cv sc cam rnd [ctl | ] cur gr fid].
  - unfold MasterInstance.animate, MasterInstance.requestAnimationFrame,
      MasterInstance.lift, Master.controls_update, Master.this_controls. run.
    destruct cam; repeat split; reflexivity.
  - repeat split; reflexivity.
Qed.

(** A frame with nothing pending changes nothing. *)
Lemma frame_idle (this : MasterInstance.Instance) :
  MasterInstance.callbacks (MasterInstance.window this) = [] ->
  MasterInstance.frame this = this.
Proof.
  intros H. destruct this as [[t d i k cb] cv sc cam rnd ctl cur gr fid].
  cbn in H. subst cb. reflexivity.
Qed.

(** A frame with one callback pending runs [animate] once, and leaves one
    callback pending again, under the handle that is [animationFrameId]. *)
Lemma frame_single (this : MasterInstance.Instance) (h : N) :
  MasterInstance.callbacks (MasterInstance.window this) = [h] ->
  exists h',
    MasterInstance.callbacks (MasterInstance.window (MasterInstance.frame this)) = [h']
    /\ MasterInstance.animationFrameId (MasterInstance.frame this) = Some h'
    /\ h' <> 0%N
    /\ MasterInstance.controls (MasterInstance.frame this)
       = option_map update (MasterInstance.controls this).
Proof.
  intros H. unfold MasterInstance.frame. rewrite H.
  cbn [MasterInstance.run_callbacks].
  match goal with |- context [MasterInstance.animate ?s] => set (s0 := s) end.
  destruct (animate_effect s0) as (W & F & C). cbv zeta in W, F.
  exists (MasterInstance.callback_identifier (MasterInstance.window this) + 1)%N.
  rewrite W, F, C. repeat split; try reflexivity. lia.
Qed.

(** [stopRenderLoop] stops a loop that was started once: if no animation
    frame callback is pending when [startRenderLoop] is called, then after
    any number of frames [stopRenderLoop] leaves no callback pending and
    [animationFrameId] null, and the frames that follow change nothing: the
    controls are updated no more. *)
Theorem stopRenderLoop_stops (this : MasterInstance.Instance) (n : nat) :
  MasterInstance.callbacks (MasterInstance.window this) = [] ->
  let running := Nat.iter n MasterInstance.frame
                          (final (MasterInstance.startRenderLoop this)) in
  let stopped := final (MasterInstance.stopRenderLoop running) in
  MasterInstance.callbacks (MasterInstance.window stopped) = []
  /\ MasterInstance.animationFrameId stopped = None
  /\ MasterInstance.controls stopped = MasterInstance.controls running
  /\ forall m : nat, Nat.iter m MasterInstance.frame stopped = stopped.
Proof.
  intros H running stopped.
  assert (Inv : exists h,
             MasterInstance.callbacks (MasterInstance.window running) = [h]
             /\ MasterInstance.animationFrameId running = Some h
             /\ h <> 0%N).
  { unfold running. clear running stopped.
    induction n as [ | n (h & Hcb & Hid & Hh)].
    - rewrite ?iter_step, ?iter_none. unfold MasterInstance.startRenderLoop.
      destruct (animate_effect this) as (W & F & _). cbv zeta in W, F.
      exists (MasterInstance.callback_identifier (MasterInstance.window this) + 1)%N.
      rewrite W, F, H. repeat split; try reflexivity. lia.
    - rewrite ?iter_step, ?iter_none.
      destruct (frame_single _ h Hcb) as (h' & A & B & C & _).
      exists h'. repeat split; assumption. }
  destruct Inv as (h & Hcb & Hid & Hh).
  assert (E : stopped
              = MasterInstance.set_animationFrameId
                  None
                  (MasterInstance.set_window
                     (MasterInstance.mkWindow
                        (MasterInstance.THREE (MasterInstance.window running))
                        (MasterInstance.DRACOLoader (MasterInstance.window running))
                        (MasterInstance.object3DId (MasterInstance.window running))
                        (MasterInstance.callback_identifier (MasterInstance.window running))
                        [])
                     running)).
  { unfold stopped, MasterInstance.stopRenderLoop, MasterInstance.cancelAnimationFrame.
    unfold bind, get, ret, modify. rewrite Hid.
    apply N.eqb_neq in Hh. rewrite Hh. cbn [final]. rewrite Hcb.
    cbn [remove]. destruct (N.eq_dec h h); [reflexivity | congruence]. }
  rewrite E. repeat split.
  intros m. induction m as [ | m IH]; [reflexivity | ].
  rewrite ?iter_step, ?iter_none. rewrite IH. apply frame_idle. reflexivity.
Qed.

Lemma stopRenderLoop_stops_witness :
  let this :=
    MasterInstance.mkInstance
      (MasterInstance.mkWindow true true 9%nat 0%N [])
      (mkCanvas 800 600) (Some [3; 4; 6; 8]%nat)
      (Master.camera (Master_initThreeJS (mkCanvas 800 600)))
      (Master.renderer (Master_initThreeJS (mkCanvas 800 600)))
      (Master.controls (Master_initThreeJS (mkCanvas 800 600)))
      None (Some (MasterInstance.mkGridHelper (Fin 0))) None in
  let running := Nat.iter 3 MasterInstance.frame
                          (final (MasterInstance.startRenderLoop this)) in
  MasterInstance.callbacks
    (MasterInstance.window (final (MasterInstance.stopRenderLoop running))) = [].
Proof.
  intros this running.
  exact (proj1 (stopRenderLoop_stops this 3 eq_refl)).
Defined.

(** [startRenderLoop] called twice starts two loops, of which
    [stopRenderLoop] stops one: if no callback is pending at the first
    call, then after any number of frames two callbacks are pending and the
    controls have been updated twice per frame; [stopRenderLoop] cancels the
    callback registered last, and after every later frame one callback is
    pending still. *)
Theorem startRenderLoop_twice_outlives_stop (this : MasterInstance.Instance) (n : nat) :
  MasterInstance.callbacks (MasterInstance.window this) = [] ->
  let running :=
    Nat.iter n MasterInstance.frame
             (final (MasterInstance.startRenderLoop
                       (final (MasterInstance.startRenderLoop this)))) in
  let stopped := final (MasterInstance.stopRenderLoop running) in
  length (MasterInstance.callbacks (MasterInstance.window running)) = 2%nat
  /\ MasterInstance.controls running
     = option_map (Nat.iter (2 + 2 * n) update) (MasterInstance.controls this)
  /\ forall m : nat,
       length (MasterInstance.callbacks
                 (MasterInstance.window (Nat.iter m MasterInstance.frame stopped)))
       = 1%nat.
Proof.
  intros H running stopped.
  assert (Inv : exists i,
             MasterInstance.callbacks (MasterInstance.window running)
             = [(i + 1)%N; (i + 2)%N]
             /\ MasterInstance.animationFrameId running = Some (i + 2)%N
             /\ MasterInstance.controls running
                = option_map (Nat.iter (2 + 2 * n) update) (MasterInstance.controls this)).
  { unfold running. clear running stopped.
    induction n as [ | n (i & Hcb & Hid & Hc)].
    - rewrite ?iter_step, ?iter_none. unfold MasterInstance.startRenderLoop.
      destruct (animate_effect this) as (W1 & F1 & C1). cbv zeta in W1, F1.
      destruct (animate_effect (final (MasterInstance.animate this)))
        as (W2 & F2 & C2). cbv zeta in W2, F2.
      exists (MasterInstance.callback_identifier (MasterInstance.window this)).
      rewrite W2, F2, C2, W1, C1, H.
      cbn [MasterInstance.callbacks MasterInstance.callback_identifier app].
      repeat split.
      + rewrite <- N.add_assoc. reflexivity.
      + rewrite <- N.add_assoc. reflexivity.
      + destruct (MasterInstance.controls this); reflexivity.
    - rewrite ?iter_step, ?iter_none.
      match goal with
      | |- context [MasterInstance.frame (Nat.iter n MasterInstance.frame ?x)] =>
          set (s := Nat.iter n MasterInstance.frame x) in *
      end.
      unfold MasterInstance.frame. rewrite Hcb.
      cbn [MasterInstance.run_callbacks].
      match goal with
      | |- context [MasterInstance.animate (final (MasterInstance.animate ?s0))] =>
          set (t := s0)
      end.
      destruct (animate_effect t) as (W1 & F1 & C1). cbv zeta in W1, F1.
      destruct (animate_effect (final (MasterInstance.animate t)))
        as (W2 & F2 & C2). cbv zeta in W2, F2.
      exists (MasterInstance.callback_identifier (MasterInstance.window s)).
      rewrite W2, F2, C2, W1, C1.
      cbn [MasterInstance.callbacks MasterInstance.callback_identifier app
           MasterInstance.window MasterInstance.set_window t MasterInstance.controls].
      repeat split.
      + rewrite <- N.add_assoc. reflexivity.
      + rewrite <- N.add_assoc. reflexivity.
      + change (MasterInstance.controls t) with (MasterInstance.controls s).
        rewrite Hc. destruct (MasterInstance.controls this) as [o | ]; [ | reflexivity].
        cbn [option_map]. f_equal.
        replace (2 + 2 * S n)%nat with (S (S (2 + 2 * n))) by lia. reflexivity. }
  destruct Inv as (i & Hcb & Hid & Hc).
  split; [rewrite Hcb; reflexivity | ]. split; [exact Hc | ].
  assert (E : MasterInstance.callbacks (MasterInstance.window stopped) = [(i + 1)%N]).
  { unfold stopped, MasterInstance.stopRenderLoop, MasterInstance.cancelAnimationFrame.
    unfold bind, get, ret, modify. rewrite Hid.
    assert (Hz : ((i + 2) =? 0)%N = false) by (apply N.eqb_neq; lia).
    rewrite Hz. cbn [final MasterInstance.window MasterInstance.set_window
                     MasterInstance.set_animationFrameId MasterInstance.callbacks].
    rewrite Hcb. cbn [remove].
    destruct (N.eq_dec (i + 2) (i + 1)) as [D | _]; [lia | ].
    destruct (N.eq_dec (i + 2) (i + 2)) as [_ | D]; [reflexivity | congruence]. }
  intros m.
  assert (G : exists h,
             MasterInstance.callbacks
               (MasterInstance.window (Nat.iter m MasterInstance.frame stopped)) = [h]).
  { induction m as [ | m (h & Hm)].
    - eexists. exact E.
    - rewrite ?iter_step, ?iter_none. destruct (frame_single _ h Hm) as (h' & A & _).
      exists h'. exact A. }
  destruct G as (h & G). rewrite G. reflexivity.
Qed.

Lemma startRenderLoop_twice_outlives_stop_witness :
  let this :=
    MasterInstance.mkInstance
      (MasterInstance.mkWindow true true 9%nat 0%N [])
      (mkCanvas 800 600) (Some [3; 4; 6; 8]%nat)
      (Master.camera (Master_initThreeJS (mkCanvas 800 600)))
      (Master.renderer (Master_initThreeJS (mkCanvas 800 600)))
      (Master.controls (Master_initThreeJS (mkCanvas 800 600)))
      None (Some (MasterInstance.mkGridHelper (Fin 0))) None in
  let running :=
    Nat.iter 3 MasterInstance.frame
             (final (MasterInstance.startRenderLoop
                       (final (MasterInstance.startRenderLoop this)))) in
  length (MasterInstance.callbacks
            (MasterInstance.window
               (Nat.iter 2 MasterInstance.frame
                         (final (MasterInstance.stopRenderLoop running)))))
  = 1%nat.
Proof.
  intros this running.
  exact (proj2 (proj2 (startRenderLoop_twice_outlives_stop this 3 eq_refl)) 2%nat).
Defined.

Import Stdlib.Strings.String.StringSyntax.
Local Open Scope string_scope.

(** ** Plain objects: reading after writing *)

Lemma own_put_same {A} (k : String.string) (v : A) (o : list (String.string * A)) :
  JS.own (JS.put k v o) k = Some v.
Proof.
  induction o as [ | [k' v'] o IH]; cbn.
  - now rewrite String.eqb_refl.
  - destruct (String.eqb k k') eqn:E; cbn.
    + now rewrite String.eqb_refl.
    + now rewrite E.
Qed.

Lemma own_put_other {A} (k k' : String.string) (v : A) (o : list (String.string * A)) :
  k' <> k -> JS.own (JS.put k v o) k' = JS.own o k'.
Proof.
  intros Hne. induction o as [ | [k0 v0] o IH]; cbn.
  - apply String.eqb_neq in Hne. now rewrite Hne.
  - destruct (String.eqb k k0) eqn:E; cbn.
    + apply String.eqb_eq in E. subst k0.
      apply String.eqb_neq in Hne. now rewrite Hne.
    + destruct (String.eqb k' k0); [reflexivity | exact IH].
Qed.

Lemma keys_put_own {A} (k : String.string) (v v0 : A) (o : list (String.string * A)) :
  JS.own o k = Some v0 -> JS.keys (JS.put k v o) = JS.keys o.
Proof.
  induction o as [ | [k' v'] o IH]; cbn; [discriminate | ].
  destruct (String.eqb k k') eqn:E; intros H; cbn.
  - apply String.eqb_eq in E. now subst k'.
  - f_equal. now apply IH.
Qed.

Lemma own_In_keys {A} (k : String.string) (o : list (String.string * A)) :
  JS.own o k <> None <-> In k (JS.keys o).
Proof.
  induction o as [ | [k' v'] o IH]; cbn; [tauto | ].
  destruct (String.eqb k k') eqn:E.
  - apply String.eqb_eq in E. subst k'. split; [now left | discriminate].
  - apply String.eqb_neq in E. rewrite IH. split; [now right | ].
    intros [H | H]; [congruence | exact H].
Qed.

Lemma own_map {A B} (f : A -> B) (k : String.string) (o : list (String.string * A)) :
  JS.own (map (fun entry => (fst entry, f (snd entry))) o) k = option_map f (JS.own o k).
Proof.
  induction o as [ | [k' v'] o IH]; cbn; [reflexivity | ].
  destruct (String.eqb k k'); [reflexivity | exact IH].
Qed.

Lemma keys_map {A B} (f : A -> B) (o : list (String.string * A)) :
  JS.keys (map (fun entry => (fst entry, f (snd entry))) o) = JS.keys o.
Proof. unfold JS.keys. rewrite map_map. reflexivity. Qed.

Lemma prop_put_same (k : String.string) (v : JS.value) (o : JS.object) :
  JS.prop (JS.put k v o) k = v.
Proof. unfold JS.prop. now rewrite own_put_same. Qed.

Lemma prop_put_other (k k' : String.string) (v : JS.value) (o : JS.object) :
  k' <> k -> JS.prop (JS.put k v o) k' = JS.prop o k'.
Proof. intros H. unfold JS.prop. now rewrite own_put_other. Qed.

(** A write in the midst of an object whose keys are distinct. *)
Lemma own_app_fresh {A} (k : String.string) (before after : list (String.string * A)) :
  ~ In k (JS.keys before) -> JS.own (before ++ after) k = JS.own after k.
Proof.
  induction before as [ | [k' v'] before IH]; cbn; [reflexivity | ].
  intros H. destruct (String.eqb k k') eqn:E.
  - apply String.eqb_eq in E. subst k'. exfalso. apply H. now left.
  - apply IH. intros H'. apply H. now right.
Qed.

Lemma put_app_fresh {A} (k : String.string) (v : A)
      (before after : list (String.string * A)) :
  ~ In k (JS.keys before) -> JS.put k v (before ++ after) = before ++ JS.put k v after.
Proof.
  induction before as [ | [k' v'] before IH]; cbn; [reflexivity | ].
  intros H. destruct (String.eqb k k') eqn:E.
  - apply String.eqb_eq in E. subst k'. exfalso. apply H. now left.
  - f_equal. apply IH. intros H'. apply H. now right.
Qed.

Lemma put_put_same {A} (k : String.string) (v : A) (o : list (String.string * A)) :
  JS.put k v (JS.put k v o) = JS.put k v o.
Proof.
  induction o as [ | [k' v'] o IH]; cbn.
  - now rewrite String.eqb_refl.
  - destruct (String.eqb k k') eqn:E; cbn.
    + now rewrite String.eqb_refl.
    + rewrite E. f_equal. exact IH.
Qed.

(** ** The parameters of the master library *)

(** The value of a parameter once [value] has been written to it. *)
Lemma current_put_value (v : JS.value) (param : JS.object) :
  MasterState.current (JS.put "value" v param)
  = if JS.defined v then v else JS.prop param "defaultValue".
Proof.
  unfold MasterState.current. rewrite prop_put_same.
  destruct (JS.defined v); [reflexivity | ].
  apply prop_put_other. discriminate.
Qed.

(** A parameter whose current value is [undefined] has no default. *)
Lemma current_undefined (param : JS.object) :
  JS.defined (MasterState.current param) = false ->
  JS.prop param "defaultValue" = MasterState.current param.
Proof.
  unfold MasterState.current.
  destruct (JS.defined (JS.prop param "value")) eqn:E; [ | reflexivity].
  intros H. congruence.
Qed.

(** [updateParameter], for a name that is not one of those every object
    inherits: the call returns [true] exactly if [name] is a parameter.  If
    it is not, nothing changes and the callback is not called.  If it is,
    [getParameterValues()] then has [value] under [name] (or the default of
    the parameter, if [value] is [undefined]) and what it had before under
    every other name; the names and their order are as before, the state is
    dirty, and the callback has been called once, with the new state. *)
Theorem updateParameter_then_read
        (name : String.string) (value : JS.value) (this : MasterState.Instance) :
  JS.inherited name = false ->
  exists (result : bool) (this' : MasterState.Instance),
    MasterState.updateParameter name value this = Some (Normal result this')
    /\ (result = true
        <-> In name (JS.keys (MasterState.parameters (MasterState.state this))))
    /\ (result = false -> this' = this)
    /\ (result = true ->
        forall param,
          JS.own (MasterState.parameters (MasterState.state this)) name = Some param ->
          JS.own (MasterState.getParameterValues this') name
          = Some (if JS.defined value then value else JS.prop param "defaultValue")
          /\ (forall other,
                 other <> name ->
                 JS.own (MasterState.getParameterValues this') other
                 = JS.own (MasterState.getParameterValues this) other)
          /\ JS.keys (MasterState.parameters (MasterState.state this'))
             = JS.keys (MasterState.parameters (MasterState.state this))
          /\ MasterState.isDirty (MasterState.state this') = true
          /\ MasterState.notified this'
             = MasterState.notified this ++ [MasterState.state this']).
Proof.
  intros Hin. unfold MasterState.updateParameter. rewrite Hin.
  destruct (JS.own (MasterState.parameters (MasterState.state this)) name)
    as [p | ] eqn:Hp.
  - eexists. eexists. split; [reflexivity | ].
    assert (K : In name (JS.keys (MasterState.parameters (MasterState.state this))))
      by (apply own_In_keys; congruence).
    split; [tauto | ]. split; [discriminate | ].
    intros _ param E. injection E as E. subst param.
    unfold MasterState.getParameterValues.
    cbn [MasterState.state MasterState.parameters MasterState.merge MasterState.assign
         MasterState.edited MasterState.set_parameters MasterState.set_isDirty
         MasterState.isDirty MasterState.notified].
    split; [ | split; [ | split; [ | split]]].
    + rewrite own_map, own_put_same. cbn [option_map].
      now rewrite current_put_value.
    + intros other Hne. rewrite !own_map. now rewrite own_put_other.
    + apply (keys_put_own _ _ p). exact Hp.
    + reflexivity.
    + reflexivity.
  - exists false, this. split; [reflexivity | ].
    split.
    + split; [discriminate | ].
      intros K. apply own_In_keys in K. congruence.
    + split; [reflexivity | discriminate].
Qed.

Lemma updateParameter_then_read_witness :
  let width :=
    [("defaultValue", JS.Num (Fin 10)); ("label", JS.Str "Width")] in
  let this :=
    MasterState.mkInstance
      (MasterState.mkState false true [("width", width)] [] false false JS.Null)
      false [] in
  exists this' : MasterState.Instance,
    MasterState.updateParameter "width" (JS.Num (Fin 25)) this = Some (Normal true this')
    /\ JS.own (MasterState.getParameterValues this') "width" = Some (JS.Num (Fin 25)).
Proof.
  intros width this.
  destruct (updateParameter_then_read "width" (JS.Num (Fin 25)) this eq_refl)
    as (result & this' & Run & Hres & _ & Hset).
  assert (R : result = true) by (apply Hres; left; reflexivity).
  subst result. exists this'. split; [exact Run | ].
  exact (proj1 (Hset eq_refl width eq_refl)).
Defined.

(** [resetParameters]: afterwards [getParameterValues()] has, under every
    name, the default of that parameter; the names and their order are as
    before, the state is dirty, the callback has been called once with the
    new state, and a second reset changes no parameter. *)
Theorem resetParameters_restores_defaults (this : MasterState.Instance) :
  let this' := final (MasterState.resetParameters this) in
  returns (MasterState.resetParameters this)
  /\ MasterState.getParameterValues this'
     = map (fun entry => (fst entry, JS.prop (snd entry) "defaultValue"))
           (MasterState.parameters (MasterState.state this))
  /\ JS.keys (MasterState.parameters (MasterState.state this'))
     = JS.keys (MasterState.parameters (MasterState.state this))
  /\ MasterState.isDirty (MasterState.state this') = true
  /\ MasterState.notified this' = MasterState.notified this ++ [MasterState.state this']
  /\ MasterState.parameters (MasterState.state (final (MasterState.resetParameters this')))
     = MasterState.parameters (MasterState.state this').
Proof.
  cbv zeta. unfold MasterState.resetParameters, MasterState.updateState. run.
  unfold MasterState.getParameterValues.
  cbn [MasterState.state MasterState.parameters MasterState.merge MasterState.assign
       MasterState.edited MasterState.set_parameters MasterState.set_isDirty
       MasterState.isDirty MasterState.notified].
  split; [exact I | ]. split; [ | split; [ | split; [ | split]]].
  - rewrite map_map. apply map_ext. intros [k p]. cbn [fst snd].
    rewrite current_put_value.
    destruct (JS.defined (JS.prop p "defaultValue")); reflexivity.
  - unfold JS.keys. rewrite map_map. reflexivity.
  - reflexivity.
  - reflexivity.
  - rewrite map_map. apply map_ext. intros [k p]. cbn [fst snd].
    rewrite prop_put_other by discriminate. now rewrite put_put_same.
Qed.

(** ** Saving and loading a configuration *)

Lemma same_defaults_refl (o : list (String.string * JS.object)) :
  MasterState.same_defaults o o.
Proof. induction o; constructor; [split; reflexivity | assumption]. Qed.

Lemma same_defaults_trans (a b c : list (String.string * JS.object)) :
  MasterState.same_defaults a b -> MasterState.same_defaults b c ->
  MasterState.same_defaults a c.
Proof.
  intros Hab. revert c.
  induction Hab as [ | x y a b [H1 H2] Hab IH]; intros c Hbc; inversion Hbc; subst.
  - constructor.
  - constructor; [ | now apply IH].
    match goal with H : _ /\ _ |- _ => destruct H as [H3 H4] end.
    split; congruence.
Qed.

Lemma same_defaults_keys (a b : list (String.string * JS.object)) :
  MasterState.same_defaults a b -> JS.keys b = JS.keys a.
Proof.
  induction 1 as [ | x y a b [H1 H2] Hab IH]; [reflexivity | ].
  unfold JS.keys in *. cbn [map]. now rewrite IH, H1.
Qed.

Lemma same_defaults_put (k : String.string) (p p' : JS.object)
      (o : list (String.string * JS.object)) :
  JS.own o k = Some p ->
  JS.prop p' "defaultValue" = JS.prop p "defaultValue" ->
  MasterState.same_defaults o (JS.put k p' o).
Proof.
  intros Ho Hd. induction o as [ | [k0 p0] o IH]; cbn in *; [discriminate | ].
  destruct (String.eqb k k0) eqn:E.
  - apply String.eqb_eq in E. subst k0. injection Ho as Ho. subst p0.
    constructor; [split; [reflexivity | exact Hd] | apply same_defaults_refl].
  - constructor; [split; reflexivity | now apply IH].
Qed.

Lemma with_parameters_twice (a b : list (String.string * JS.object))
      (this : MasterState.Instance) :
  MasterState.with_parameters a (MasterState.with_parameters b this)
  = MasterState.with_parameters a this.
Proof. reflexivity. Qed.

(** The loop of [loadConfiguration], however it ends, writes to the values
    of parameters that are there and to nothing else. *)
Lemma loadConfiguration_entries_keeps (entries : list (String.string * JS.value)) :
  forall (this : MasterState.Instance) (c : completion MasterState.Instance unit),
    MasterState.loadConfiguration_entries entries this = Some c ->
    MasterState.same_defaults (MasterState.parameters (MasterState.state this))
                              (MasterState.parameters (MasterState.state (final c)))
    /\ final c
       = MasterState.with_parameters
           (MasterState.parameters (MasterState.state (final c))) this.
Proof.
  induction entries as [ | [key savedParam] rest IH]; intros this c H;
    cbn [MasterState.loadConfiguration_entries] in H.
  - injection H as H. subst c. cbn [final]. split; [apply same_defaults_refl | ].
    destruct this as [[l i ps pr m d e] cur n]. reflexivity.
  - destruct (JS.own (MasterState.parameters (MasterState.state this)) key)
      as [param | ] eqn:Hp.
    + assert (Step : forall v,
                 MasterState.loadConfiguration_entries
                   rest
                   (MasterState.with_parameters
                      (JS.put key (JS.put "value" v param)
                              (MasterState.parameters (MasterState.state this)))
                      this) = Some c ->
                 MasterState.same_defaults
                   (MasterState.parameters (MasterState.state this))
                   (MasterState.parameters (MasterState.state (final c)))
                 /\ final c
                    = MasterState.with_parameters
                        (MasterState.parameters (MasterState.state (final c))) this).
      { intros v Hv. destruct (IH _ _ Hv) as [S1 S2]. split.
        - eapply same_defaults_trans; [ | exact S1].
          cbn [MasterState.with_parameters MasterState.state MasterState.parameters].
          apply (same_defaults_put key param); [exact Hp | ].
          apply prop_put_other. discriminate.
        - rewrite S2 at 1. apply with_parameters_twice. }
      destruct savedParam as [ | | b | n | s | o | l].
      * injection H as H. subst c. cbn [final]. split; [apply same_defaults_refl | ].
        destruct this as [[l i ps pr m d e] cur n]. reflexivity.
      * injection H as H. subst c. cbn [final]. split; [apply same_defaults_refl | ].
        destruct this as [[l i ps pr m d e] cur n]. reflexivity.
      * exact (Step (MasterState.saved_value (JS.Bool b)) H).
      * exact (Step (MasterState.saved_value (JS.Num n)) H).
      * exact (Step (MasterState.saved_value (JS.Str s)) H).
      * exact (Step (MasterState.saved_value (JS.Obj o)) H).
      * exact (Step (MasterState.saved_value (JS.Arr l)) H).
    + destruct (JS.inherited key); [discriminate | ]. now apply IH.
Qed.

(** The loop of [loadConfiguration] is within the model when every saved
    key that is a name all objects inherit is the name of a parameter. *)
Lemma loadConfiguration_entries_defined (entries : list (String.string * JS.value)) :
  forall this : MasterState.Instance,
    (forall key, In key (JS.keys entries) -> JS.inherited key = true ->
                 In key (JS.keys (MasterState.parameters (MasterState.state this)))) ->
    exists c, MasterState.loadConfiguration_entries entries this = Some c.
Proof.
  induction entries as [ | [key savedParam] rest IH]; intros this H;
    cbn [MasterState.loadConfiguration_entries].
  - eexists. reflexivity.
  - destruct (JS.own (MasterState.parameters (MasterState.state this)) key)
      as [param | ] eqn:Hp.
    + assert (Step : forall v,
                 exists c,
                   MasterState.loadConfiguration_entries
                     rest
                     (MasterState.with_parameters
                        (JS.put key (JS.put "value" v param)
                                (MasterState.parameters (MasterState.state this)))
                        this) = Some c).
      { intros v. apply IH. intros k Hin Hinh.
        cbn [MasterState.with_parameters MasterState.state MasterState.parameters].
        rewrite (keys_put_own key _ param) by exact Hp.
        apply H; [right; exact Hin | exact Hinh]. }
      destruct savedParam; try (eexists; reflexivity); apply Step.
    + destruct (JS.inherited key) eqn:Hi.
      * exfalso. apply (proj2 (own_In_keys key _)) in H; [ | now left | exact Hi].
        congruence.
      * apply IH. intros k Hin Hinh. apply H; [right; exact Hin | exact Hinh].
Qed.

(** What [loadConfiguration] leaves, where it is within the model. *)
Lemma loadConfiguration_kept
        (saved : option JS.object) (this : MasterState.Instance)
        (c : completion MasterState.Instance bool) :
  MasterState.loadConfiguration saved this = Some c ->
  MasterState.same_defaults (MasterState.parameters (MasterState.state this))
                            (MasterState.parameters (MasterState.state (final c)))
  /\ JS.keys (MasterState.parameters (MasterState.state (final c)))
     = JS.keys (MasterState.parameters (MasterState.state this))
  /\ (saved = None -> c = Normal false this)
  /\ (saved <> None -> returns c ->
      exists this', c = Normal true this'
                    /\ MasterState.isDirty (MasterState.state this') = true
                    /\ MasterState.notified this'
                       = MasterState.notified this ++ [MasterState.state this']).
Proof.
  intros H.
  assert (G : MasterState.same_defaults
                (MasterState.parameters (MasterState.state this))
                (MasterState.parameters (MasterState.state (final c)))
              /\ (saved = None -> c = Normal false this)
              /\ (saved <> None -> returns c ->
                  exists this', c = Normal true this'
                                /\ MasterState.isDirty (MasterState.state this') = true
                                /\ MasterState.notified this'
                                   = MasterState.notified this
                                     ++ [MasterState.state this'])).
  { destruct saved as [entries | ]; cbn in H.
    - destruct (MasterState.loadConfiguration_entries entries this) as [[[] mid | mid] | ]
        eqn:E; [ | | discriminate].
      + destruct (loadConfiguration_entries_keeps entries this _ E) as [S1 S2].
        cbn [final] in S1, S2. injection H as H. subst c.
        unfold MasterState.updateState. run.
        split; [exact S1 | ]. split; [discriminate | ].
        intros _ _. eexists. split; [reflexivity | ]. split; [reflexivity | ].
        cbn [MasterState.notified]. rewrite S2. reflexivity.
      + destruct (loadConfiguration_entries_keeps entries this _ E) as [S1 _].
        injection H as H. subst c. cbn [final] in *.
        split; [exact S1 | ]. split; [discriminate | ].
        intros _ [].
    - injection H as H. subst c. cbn [final].
      split; [apply same_defaults_refl | ]. split; [reflexivity | ].
      intros Hn. congruence. }
  destruct G as (G1 & G2 & G3).
  split; [exact G1 | ]. split; [apply same_defaults_keys, G1 | ].
  split; assumption.
Qed.

(** [loadConfiguration] neither adds nor removes a parameter, and changes no
    default.  For a saved object whose keys are names of parameters or names
    that no object inherits from [Object.prototype] (for an inherited name
    that is no parameter the code assigns to a built-in object, which this
    model leaves out), and for no argument at all: however the call ends (it
    throws on a saved entry that is [null] or [undefined] under the name of
    a parameter), the parameters have the names they had, in the same order,
    and the same defaults; saved keys that name no parameter are passed
    over.  Without an argument it returns [false] and changes nothing; if it
    returns [true], the state is dirty and the callback has been called
    once, with the new state. *)
Theorem loadConfiguration_keeps_parameters
        (saved : option JS.object) (this : MasterState.Instance) :
  (forall entries key,
      saved = Some entries -> In key (JS.keys entries) -> JS.inherited key = true ->
      In key (JS.keys (MasterState.parameters (MasterState.state this)))) ->
  exists c : completion MasterState.Instance bool,
    MasterState.loadConfiguration saved this = Some c
    /\ MasterState.same_defaults (MasterState.parameters (MasterState.state this))
                                 (MasterState.parameters (MasterState.state (final c)))
    /\ JS.keys (MasterState.parameters (MasterState.state (final c)))
       = JS.keys (MasterState.parameters (MasterState.state this))
    /\ (saved = None -> c = Normal false this)
    /\ (saved <> None -> returns c ->
        exists this', c = Normal true this'
                      /\ MasterState.isDirty (MasterState.state this') = true
                      /\ MasterState.notified this'
                         = MasterState.notified this ++ [MasterState.state this']).
Proof.
  intros H.
  assert (D : exists c, MasterState.loadConfiguration saved this = Some c).
  { destruct saved as [entries | ]; cbn [MasterState.loadConfiguration].
    - destruct (loadConfiguration_entries_defined
                  entries this (fun key => H entries key eq_refl)) as (c & E).
      rewrite E. destruct c as [[] mid | mid]; eexists; reflexivity.
    - eexists. reflexivity. }
  destruct D as (c & E). exists c. split; [exact E | ].
  exact (loadConfiguration_kept saved this c E).
Qed.

Lemma loadConfiguration_keeps_parameters_witness :
  let this :=
    MasterState.mkInstance
      (MasterState.mkState false true
         [("width", [("defaultValue", JS.Num (Fin 10)); ("value", JS.Num (Fin 25))])]
         [] false false JS.Null)
      false [] in
  let saved :=
    Some [("depth", JS.Obj [("value", JS.Num (Fin 7))]);
          ("width", JS.Obj [("value", JS.Num (Fin 3))])] in
  exists c : completion MasterState.Instance bool,
    MasterState.loadConfiguration saved this = Some c
    /\ JS.keys (MasterState.parameters (MasterState.state (final c))) = ["width"].
Proof.
  intros this saved.
  destruct (loadConfiguration_keeps_parameters saved this) as (c & E & _ & K & _).
  - intros entries key Es Hin Hinh. injection Es as Es. subst entries.
    destruct Hin as [K | [K | []]]; subst key; discriminate.
  - exists c. split; [exact E | exact K].
Defined.

(** What a saved configuration holds under each name: an object from which
    [loadConfiguration] reads the value the parameter had. *)
Lemma saved_parameters_shape (this : MasterState.Instance) :
  exists cfg : String.string * JS.object -> JS.object,
    MasterState.saved_parameters (MasterState.getCurrentConfig this)
    = map (fun entry => (fst entry, JS.Obj (cfg entry)))
          (MasterState.parameters (MasterState.state this))
    /\ forall entry,
         MasterState.saved_value (JS.Obj (cfg entry)) = MasterState.current (snd entry).
Proof.
  unfold MasterState.saved_parameters, MasterState.getCurrentConfig.
  cbn [MasterState.config_parameters].
  eexists (fun entry => _). split.
  - rewrite map_map. cbn [fst snd]. reflexivity.
  - intros [key param]. cbn [fst snd MasterState.saved_value].
    set (o := [("name", JS.Str key); ("value", MasterState.current param);
               ("label", JS.prop param "label"); ("type", JS.prop param "type");
               ("valueType", JS.prop param "valueType");
               ("defaultValue", JS.prop param "defaultValue")]).
    assert (V : forall o', JS.prop o' "value" = JS.prop o "value" ->
                           JS.prop o' "defaultValue" = JS.prop o "defaultValue" ->
                           MasterState.current o' = MasterState.current param).
    { intros o' H1 H2. unfold MasterState.current at 1. rewrite H1, H2.
      change (JS.prop o "value") with (MasterState.current param).
      change (JS.prop o "defaultValue") with (JS.prop param "defaultValue").
      destruct (JS.defined (MasterState.current param)) eqn:D; [reflexivity | ].
      now apply current_undefined. }
    destruct (JS.truthy (JS.prop param "rangeConfig")),
             (JS.truthy (JS.prop param "dropdownOptions"));
      apply V; repeat rewrite prop_put_other by discriminate; reflexivity.
Qed.

Lemma keys_app {A} (a b : list (String.string * A)) :
  JS.keys (a ++ b) = JS.keys a ++ JS.keys b.
Proof. apply map_app. Qed.

Lemma with_parameters_same (this : MasterState.Instance) :
  MasterState.with_parameters (MasterState.parameters (MasterState.state this)) this = this.
Proof. destruct this as [[l i ps pr m d e] cur n]. reflexivity. Qed.

(** The loop of [loadConfiguration] on what [getCurrentConfig] saved. *)
Lemma loadConfiguration_entries_restore
      (cfg : String.string * JS.object -> JS.object) :
  (forall entry,
      MasterState.saved_value (JS.Obj (cfg entry)) = MasterState.current (snd entry)) ->
  forall (saved now : list (String.string * JS.object)),
    MasterState.same_defaults saved now ->
    forall (done : list (String.string * JS.object)) (this : MasterState.Instance),
      NoDup (JS.keys done ++ JS.keys now) ->
      MasterState.parameters (MasterState.state this) = done ++ now ->
      MasterState.loadConfiguration_entries
        (map (fun entry => (fst entry, JS.Obj (cfg entry))) saved) this
      = Some (Normal tt
                (MasterState.with_parameters
                   (done
                    ++ map (fun pair =>
                              (fst (snd pair),
                               JS.put "value" (MasterState.current (snd (fst pair)))
                                      (snd (snd pair))))
                           (combine saved now))
                   this)).
Proof.
  intros Hcfg saved now H.
  induction H as [ | [k0 p0] [k1 p1] saved now [Hk Hd] H IH]; intros done this Hnd Hp.
  - cbn. rewrite app_nil_r in *. rewrite <- Hp. now rewrite with_parameters_same.
  - cbn [fst snd] in Hk, Hd. subst k1.
    cbn [map fst snd combine MasterState.loadConfiguration_entries].
    assert (Hfresh : ~ In k0 (JS.keys done)).
    { intros Hin. cbn in Hnd. apply NoDup_remove_2 in Hnd. apply Hnd.
      apply in_or_app. now left. }
    rewrite Hp, own_app_fresh by exact Hfresh.
    cbn [JS.own]. rewrite String.eqb_refl.
    rewrite put_app_fresh by exact Hfresh.
    cbn [JS.put]. rewrite String.eqb_refl.
    rewrite (Hcfg (k0, p0)). cbn [snd].
    set (p := JS.put "value" (MasterState.current p0) p1).
    etransitivity.
    + apply (IH (done ++ [(k0, p)])).
      * rewrite keys_app. cbn [JS.keys map fst]. rewrite <- app_assoc. exact Hnd.
      * cbn [MasterState.with_parameters MasterState.state MasterState.parameters].
        rewrite <- app_assoc. reflexivity.
    + rewrite with_parameters_twice. rewrite <- app_assoc. reflexivity.
Qed.

(** [updateParameter] on a parameter and [resetParameters] keep names,
    order and defaults. *)
Lemma updateParameter_same_defaults (name : String.string) (value : JS.value)
      (this : MasterState.Instance) (param : JS.object)
      (c : completion MasterState.Instance bool) :
  JS.own (MasterState.parameters (MasterState.state this)) name = Some param ->
  MasterState.updateParameter name value this = Some c ->
  MasterState.same_defaults (MasterState.parameters (MasterState.state this))
                            (MasterState.parameters (MasterState.state (final c))).
Proof.
  intros Hp H. unfold MasterState.updateParameter in H. rewrite Hp in H.
  injection H as H. subst c. unfold MasterState.updateState. run.
  apply (same_defaults_put name param); [exact Hp | ].
  apply prop_put_other. discriminate.
Qed.

Lemma resetParameters_same_defaults (this : MasterState.Instance) :
  MasterState.same_defaults
    (MasterState.parameters (MasterState.state this))
    (MasterState.parameters (MasterState.state (final (MasterState.resetParameters this)))).
Proof.
  unfold MasterState.resetParameters, MasterState.updateState. run.
  induction (MasterState.parameters (MasterState.state this)) as [ | [k p] ps IH];
    cbn [map fst snd]; constructor; [ | exact IH].
  split; [reflexivity | ]. cbn [snd]. apply prop_put_other. discriminate.
Qed.

Lemma restored_values (saved now : list (String.string * JS.object)) :
  MasterState.same_defaults saved now ->
  map (fun entry => (fst entry, MasterState.current (snd entry)))
      (map (fun pair =>
              (fst (snd pair),
               JS.put "value" (MasterState.current (snd (fst pair))) (snd (snd pair))))
           (combine saved now))
  = map (fun entry => (fst entry, MasterState.current (snd entry))) saved.
Proof.
  intros Hsame.
  induction Hsame as [ | [k0 p0] [k1 p1] saved now [Hk Hd] H IH]; [reflexivity | ].
  cbn [fst snd] in Hk, Hd. subst k1.
  cbn [map combine fst snd]. rewrite IH. do 2 f_equal. rewrite current_put_value.
  destruct (JS.defined (MasterState.current p0)) eqn:D; [reflexivity | ].
  rewrite Hd. now apply current_undefined.
Qed.

(** Saving and loading a configuration gives the values back: if the
    parameters have, when [loadConfiguration] is called with the parameters
    of a configuration that [getCurrentConfig] returned, the names, the
    order and the defaults they had when it was saved (which
    [updateParameter] on a parameter, [resetParameters] and
    [loadConfiguration] keep), then [loadConfiguration] returns [true] and
    [getParameterValues()] is again what it was when the configuration was
    saved; the state is dirty. *)
Theorem loadConfiguration_restores_saved (saved_at this : MasterState.Instance) :
  NoDup (JS.keys (MasterState.parameters (MasterState.state this))) ->
  MasterState.same_defaults (MasterState.parameters (MasterState.state saved_at))
                            (MasterState.parameters (MasterState.state this)) ->
  exists this' : MasterState.Instance,
    MasterState.loadConfiguration
      (Some (MasterState.saved_parameters (MasterState.getCurrentConfig saved_at))) this
    = Some (Normal true this')
    /\ MasterState.getParameterValues this' = MasterState.getParameterValues saved_at
    /\ MasterState.isDirty (MasterState.state this') = true.
Proof.
  intros Hnd Hsame.
  destruct (saved_parameters_shape saved_at) as (cfg & Hshape & Hcfg).
  pose proof (loadConfiguration_entries_restore
                cfg Hcfg _ _ Hsame [] this Hnd eq_refl) as Run.
  unfold MasterState.loadConfiguration. rewrite Hshape, Run.
  unfold MasterState.updateState, bind, modify, ret.
  eexists. split; [reflexivity | ]. split; [ | reflexivity].
  unfold MasterState.getParameterValues.
  cbn [MasterState.state MasterState.parameters].
  unfold MasterState.merge, MasterState.edited, MasterState.with_parameters,
    MasterState.assign.
  cbn [app MasterState.state MasterState.parameters MasterState.set_parameters].
  now apply restored_values.
Qed.

Lemma loadConfiguration_restores_saved_witness :
  let saved_at :=
    MasterState.mkInstance
      (MasterState.mkState false true
         [("width", [("defaultValue", JS.Num (Fin 10)); ("label", JS.Str "Width")])]
         [] false false JS.Null)
      false [] in
  let this :=
    MasterState.mkInstance
      (MasterState.mkState false true
         [("width", [("defaultValue", JS.Num (Fin 10)); ("label", JS.Str "Width");
                     ("value", JS.Num (Fin 25))])]
         [] false true JS.Null)
      false [] in
  exists this' : MasterState.Instance,
    MasterState.loadConfiguration
      (Some (MasterState.saved_parameters (MasterState.getCurrentConfig saved_at))) this
    = Some (Normal true this')
    /\ MasterState.getParameterValues this' = [("width", JS.Num (Fin 10))].
Proof.
  intros saved_at this.
  destruct (loadConfiguration_restores_saved saved_at this) as (this' & Run & V & _).
  - repeat constructor. intros [].
  - repeat constructor.
  - exists this'. split; [exact Run | exact V].
Defined.
